(** * targetcli root node: save, restore, clear and session listing

    A shallow embedding of [targetcli/ui_root.py] (class [UIRoot]) and a
    verification of its persistence, refresh and session-listing
    behaviour.

    The commands of [UIRoot] are effectful Python: they touch the file
    system, the rtslib backend ([RTSRoot()]), the shell's log and console
    and the node tree.  They are embedded as programs of a state-and-
    exception monad over a record of all these stores, so that what an
    exception leaves behind is part of the model.

    Python's [json] module is modelled by an encoder following
    [json.dumps(obj, sort_keys=True, indent=2)] of Python 2.7 (the source
    is Python 2: [except ValueError, e]) and a decoder following
    [json.loads]. *)

From Stdlib Require Import ZArith NArith Lia List Ascii String Bool Permutation Sorted.
From stdpp Require Import base option list strings gmap sorting.

Open Scope Z_scope.

(** ** Python text and integers *)

(** Byte strings ([str] of Python 2) are [string]; [chars] gives their
    characters for the functions that scan them. *)
Definition chars (s : string) : list ascii := list_ascii_of_string s.

(** Text inside a snapshot is a sequence of Unicode code points,
    [list N]. *)
Definition text_of_string (s : string) : list N :=
  map N_of_ascii (chars s).

Definition digit_char (d : N) : ascii := ascii_of_N (48 + d).

Fixpoint digits_aux (fuel : nat) (n : N) (acc : list ascii) : list ascii :=
  match fuel with
  | O => acc
  | S fuel' =>
      let acc' := digit_char (n mod 10) :: acc in
      if (n <? 10)%N then acc' else digits_aux fuel' (n / 10) acc'
  end.

(** Decimal digits of a natural number, most significant first. *)
Definition digits_of_N (n : N) : list ascii :=
  digits_aux (N.to_nat (N.succ (N.log2 n))) n [].

(** [str(n)], also what [%i] and [%s] give for an [int]. *)
Definition repr_int (n : Z) : list ascii :=
  match n with
  | Z0 => digits_of_N 0
  | Zpos p => digits_of_N (Npos p)
  | Zneg p => "-"%char :: digits_of_N (Npos p)
  end.

Definition str_of_int (n : Z) : string := string_of_list_ascii (repr_int n).

Definition is_digit (c : ascii) : bool :=
  let n := N_of_ascii c in ((48 <=? n) && (n <=? 57))%N.

Definition digit_val (c : ascii) : N := N_of_ascii c - 48.

Definition digits_value (ds : list ascii) : N :=
  fold_left (fun a c => (10 * a + digit_val c)%N) ds 0%N.

(** Longest prefix of decimal digits, and what follows it. *)
Fixpoint span_digits (s : list ascii) : list ascii * list ascii :=
  match s with
  | c :: r =>
      if is_digit c then let '(ds, r') := span_digits r in (c :: ds, r')
      else ([], s)
  | [] => ([], [])
  end.

(** Whitespace of [str.strip()] and [int()]. *)
Definition is_space (c : ascii) : bool :=
  let n := N_of_ascii c in ((n =? 32) || ((9 <=? n) && (n <=? 13)))%N.

Fixpoint lstrip (s : list ascii) : list ascii :=
  match s with
  | c :: r => if is_space c then lstrip r else s
  | [] => []
  end.

Definition strip (s : list ascii) : list ascii :=
  rev (lstrip (rev (lstrip s))).

(** [int(s)] on a string: surrounding whitespace, an optional sign, at
    least one decimal digit, nothing else; [None] is [ValueError]. *)
Definition py_int (s : string) : option Z :=
  let body := strip (chars s) in
  let neg := match body with c :: _ => Ascii.eqb c "-" | [] => false end in
  let plus := match body with c :: _ => Ascii.eqb c "+" | [] => false end in
  let ds := if neg || plus then tl body else body in
  match ds with
  | [] => None
  | _ :: _ =>
      if forallb is_digit ds
      then Some (if neg : bool then - Z.of_N (digits_value ds) else Z.of_N (digits_value ds))
      else None
  end.

(** ** Snapshots: the values [json] reads and writes *)

(** What [RTSRoot().dump()] returns and [json.loads] builds.  A [dict] is
    the list of its items in enumeration order.  A float is kept as the
    literal it was read from; binary floating point is not modelled. *)
#[warnings="-register-all"]
Inductive json : Type :=
| JNull
| JBool (b : bool)
| JInt (n : Z)
| JFloat (lit : list ascii)
| JStr (s : list N)
| JArr (items : list json)
| JObj (members : list (list N * json)).

(** *** json.dumps(obj, sort_keys=True, indent=2) *)

Definition newline : ascii := "010"%char.

(** The double quote. *)
Definition dquote : ascii := "034"%char.

Definition hex_char (d : N) : ascii :=
  if (d <? 10)%N then ascii_of_N (48 + d) else ascii_of_N (87 + d).

(** ['{0:04x}'.format(n)] for [n < 0x10000]. *)
Definition hex4 (n : N) : list ascii :=
  [hex_char (N.shiftr n 12 mod 16); hex_char (N.shiftr n 8 mod 16);
   hex_char (N.shiftr n 4 mod 16); hex_char (n mod 16)]%N.

Definition u_escape (n : N) : list ascii :=
  "\"%char :: "u"%char :: hex4 n.

(** The replacement [encode_basestring_ascii] makes for one code point:
    printable ASCII other than the quote and the backslash is kept, the
    rest is escaped, above the basic plane as a surrogate pair. *)
Definition escape_char (c : N) : list ascii :=
  if (c =? 34)%N then ["\"%char; dquote]
  else if (c =? 92)%N then chars "\\"
  else if (c =? 8)%N then chars "\b"
  else if (c =? 12)%N then chars "\f"
  else if (c =? 10)%N then chars "\n"
  else if (c =? 13)%N then chars "\r"
  else if (c =? 9)%N then chars "\t"
  else if ((32 <=? c) && (c <=? 126))%N then [ascii_of_N c]
  else if (c <? 65536)%N then u_escape c
  else
    let n := (c - 65536)%N in
    let s1 := N.lor 55296 (N.land (N.shiftr n 10) 1023) in
    let s2 := N.lor 56320 (N.land n 1023) in
    u_escape s1 ++ u_escape s2.

Definition encode_string (s : list N) : list ascii :=
  dquote :: flat_map escape_char s ++ [dquote].

(** Lexicographic order of text by code point, the order of [sorted] on
    the keys. *)
Fixpoint text_compare (a b : list N) : comparison :=
  match a, b with
  | [], [] => Eq
  | [], _ :: _ => Lt
  | _ :: _, [] => Gt
  | x :: a', y :: b' =>
      match (x ?= y)%N with
      | Eq => text_compare a' b'
      | c => c
      end
  end.

Definition text_leb (a b : list N) : bool :=
  match text_compare a b with Gt => false | _ => true end.

Section SortItems.
Context {A : Type}.

Fixpoint insert_item (x : list N * A) (l : list (list N * A)) : list (list N * A) :=
  match l with
  | [] => [x]
  | y :: l' => if text_leb x.1 y.1 then x :: l else y :: insert_item x l'
  end.

(** [sorted(items, key=lambda kv: kv[0])]: stable, by key. *)
Definition sort_items (l : list (list N * A)) : list (list N * A) :=
  foldr insert_item [] l.
End SortItems.

Definition newline_indent (level : nat) : list ascii :=
  "010"%char :: repeat " "%char (2 * level).

Fixpoint join (sep : list ascii) (parts : list (list ascii)) : list ascii :=
  match parts with
  | [] => []
  | [p] => p
  | p :: ps => p ++ sep ++ join sep ps
  end.

Definition item_separator : list ascii := chars ", ".
Definition key_separator : list ascii := chars ": ".

Definition encode_member (kv : list N * list ascii) : list ascii :=
  encode_string kv.1 ++ key_separator ++ kv.2.

(** [_iterencode] at nesting depth [level], with [indent=2] and
    [sort_keys=True].  Python 2.7 keeps the item separator [", "] when an
    indent is given, so a line that is not the last of its container ends
    in a comma and a space.  The members are encoded and then ordered by
    key, which writes the same text as ordering them first. *)
Fixpoint encode (level : nat) (v : json) : list ascii :=
  match v with
  | JNull => chars "null"
  | JBool true => chars "true"
  | JBool false => chars "false"
  | JInt n => repr_int n
  | JFloat lit => lit
  | JStr s => encode_string s
  | JArr [] => chars "[]"
  | JArr items =>
      "["%char :: newline_indent (S level)
        ++ join (item_separator ++ newline_indent (S level))
                (map (encode (S level)) items)
        ++ newline_indent level ++ ["]"%char]
  | JObj [] => chars "{}"
  | JObj members =>
      "{"%char :: newline_indent (S level)
        ++ join (item_separator ++ newline_indent (S level))
                (map encode_member
                   (sort_items (map (fun kv => (kv.1, encode (S level) kv.2)) members)))
        ++ newline_indent level ++ ["}"%char]
  end.

Definition json_dumps (v : json) : string :=
  string_of_list_ascii (encode 0 v).

(** *** json.loads *)

(** Whitespace between the tokens of a document. *)
Definition is_ws (c : ascii) : bool :=
  let n := N_of_ascii c in
  ((n =? 32) || (n =? 9) || (n =? 10) || (n =? 13))%N.

Fixpoint skip_ws (s : list ascii) : list ascii :=
  match s with
  | c :: r => if is_ws c then skip_ws r else s
  | [] => []
  end.

Definition hex_val (c : ascii) : option N :=
  let n := N_of_ascii c in
  if ((48 <=? n) && (n <=? 57))%N then Some (n - 48)%N
  else if ((97 <=? n) && (n <=? 102))%N then Some (n - 87)%N
  else if ((65 <=? n) && (n <=? 70))%N then Some (n - 55)%N
  else None.

(** Four hexadecimal digits of a [\u] escape. *)
Definition hex4_val (a b c d : ascii) : option N :=
  match hex_val a, hex_val b, hex_val c, hex_val d with
  | Some x1, Some x2, Some x3, Some x4 =>
      Some (16 * (16 * (16 * x1 + x2) + x3) + x4)%N
  | _, _, _, _ => None
  end.

Definition is_high_surrogate (u : N) : bool := (N.land u 64512 =? 55296)%N.
Definition is_low_surrogate (u : N) : bool := (N.land u 64512 =? 56320)%N.

Definition join_surrogates (hi lo : N) : N :=
  (65536 + N.lor (N.shiftl (hi - 55296) 10) (lo - 56320))%N.

(** The character a backslash escape other than [\u] stands for. *)
Definition simple_escape (e : ascii) : option N :=
  let n := N_of_ascii e in
  if ((n =? 34) || (n =? 92) || (n =? 47))%N then Some n
  else if (n =? 98)%N then Some 8%N
  else if (n =? 102)%N then Some 12%N
  else if (n =? 110)%N then Some 10%N
  else if (n =? 114)%N then Some 13%N
  else if (n =? 116)%N then Some 9%N
  else None.

(** A continuation byte of a UTF-8 sequence. *)
Definition is_cont (c : ascii) : bool := (N.land (N_of_ascii c) 192 =? 128)%N.

Definition cont_bits (c : ascii) : N := N.land (N_of_ascii c) 63.

Definition prepend {A : Type} (x : A) (o : option (list A * list ascii)) :
    option (list A * list ascii) :=
  match o with
  | Some (t, rest) => Some (x :: t, rest)
  | None => None
  end.

(** [scanstring] in strict mode, from just after the opening quote: the
    text up to the closing quote and what follows it.  A byte above 127
    starts a UTF-8 sequence, decoded as CPython 2.7 does (overlong forms
    and values above 0x10FFFF are errors).  A [\u] escape of a high
    surrogate directly followed by one of a low surrogate is one code
    point. *)
Fixpoint scanstring (s : list ascii) : option (list N * list ascii) :=
  match s with
  | [] => None
  | c :: r =>
      let n := N_of_ascii c in
      if (n =? 34)%N then Some ([], r)
      else if (n =? 92)%N then
        match r with
        | [] => None
        | e :: r1 =>
            if (N_of_ascii e =? 117)%N then
              match r1 with
              | h1 :: h2 :: h3 :: h4 :: ((_ :: _) as r2) =>
                  match hex4_val h1 h2 h3 h4 with
                  | None => None
                  | Some u =>
                      let single := prepend u (scanstring r2) in
                      if is_high_surrogate u then
                        match r2 with
                        | b :: v :: l1 :: l2 :: l3 :: l4 :: ((_ :: _) as r3) =>
                            if ((N_of_ascii b =? 92) && (N_of_ascii v =? 117))%N then
                              match hex4_val l1 l2 l3 l4 with
                              | None => None
                              | Some lo =>
                                  if is_low_surrogate lo
                                  then prepend (join_surrogates u lo) (scanstring r3)
                                  else single
                              end
                            else single
                        | _ => single
                        end
                      else single
                  end
              | _ => None
              end
            else
              match simple_escape e with
              | Some x => prepend x (scanstring r1)
              | None => None
              end
        end
      else if (n <=? 31)%N then None
      else if (n <=? 127)%N then prepend n (scanstring r)
      else if ((194 <=? n) && (n <=? 223))%N then
        match r with
        | c1 :: r1 =>
            if is_cont c1
            then prepend (N.shiftl (N.land n 31) 6 + cont_bits c1)%N (scanstring r1)
            else None
        | _ => None
        end
      else if ((224 <=? n) && (n <=? 239))%N then
        match r with
        | c1 :: c2 :: r2 =>
            if is_cont c1 && is_cont c2
               && negb ((n =? 224) && (N_of_ascii c1 <? 160))%N
            then prepend (N.shiftl (N.land n 15) 12 + N.shiftl (cont_bits c1) 6
                          + cont_bits c2)%N (scanstring r2)
            else None
        | _ => None
        end
      else if ((240 <=? n) && (n <=? 244))%N then
        match r with
        | c1 :: c2 :: c3 :: r3 =>
            if is_cont c1 && is_cont c2 && is_cont c3
               && negb ((n =? 240) && (N_of_ascii c1 <? 144))%N
               && negb ((n =? 244) && (143 <? N_of_ascii c1))%N
            then prepend (N.shiftl (N.land n 7) 18 + N.shiftl (cont_bits c1) 12
                          + N.shiftl (cont_bits c2) 6 + cont_bits c3)%N (scanstring r3)
            else None
        | _ => None
        end
      else None
  end.

(** Whether [s] starts with the character of code [n]. *)
Definition starts_with (n : N) (s : list ascii) : bool :=
  match s with
  | c :: _ => (N_of_ascii c =? n)%N
  | [] => false
  end.

Definition signed (neg : bool) (n : N) : Z :=
  if neg then - Z.of_N n else Z.of_N n.

(** The integer part of a number: [0], or a digit string that does not
    start with [0]. *)
Definition scan_int_part (s : list ascii) : option (list ascii * list ascii) :=
  match s with
  | [] => None
  | c :: r =>
      if (N_of_ascii c =? 48)%N then Some ([c], r)
      else if is_digit c then let '(ds, r') := span_digits r in Some (c :: ds, r')
      else None
  end.

(** The fraction, if one follows: a dot and at least one digit. *)
Definition scan_frac (s : list ascii) : list ascii * list ascii :=
  match s with
  | dot :: d :: r =>
      if (N_of_ascii dot =? 46)%N && is_digit d
      then let '(ds, r') := span_digits r in (dot :: d :: ds, r')
      else ([], s)
  | _ => ([], s)
  end.

(** The exponent, if one follows: [e] or [E], an optional sign, at least
    one digit. *)
Definition scan_exp (s : list ascii) : list ascii * list ascii :=
  match s with
  | e :: r =>
      if ((N_of_ascii e =? 101) || (N_of_ascii e =? 69))%N then
        let sg := if starts_with 45 r || starts_with 43 r then firstn 1 r else [] in
        let '(ds, r') := span_digits (skipn (length sg) r) in
        match ds with
        | [] => ([], s)
        | _ :: _ => (e :: sg ++ ds, r')
        end
      else ([], s)
  | [] => ([], s)
  end.

(** [_match_number]: an optional minus, the integer part, an optional
    fraction, an optional exponent.  Without fraction and exponent the
    number is an [int]. *)
Definition scan_number (s : list ascii) : option (json * list ascii) :=
  let neg := starts_with 45 s in
  match scan_int_part (if neg then tl s else s) with
  | None => None
  | Some (ids, r1) =>
      let '(frac, r2) := scan_frac r1 in
      let '(exp, r3) := scan_exp r2 in
      match frac, exp with
      | [], [] => Some (JInt (signed neg (digits_value ids)), r3)
      | _, _ =>
          Some (JFloat ((if neg then ["-"%char] else []) ++ ids ++ frac ++ exp), r3)
      end
  end.

(** If [s] starts with [lit], what follows it. *)
Fixpoint match_literal (lit s : list ascii) : option (list ascii) :=
  match lit, s with
  | [], _ => Some s
  | a :: lit', b :: s' => if Ascii.eqb a b then match_literal lit' s' else None
  | _ :: _, [] => None
  end.

(** [d[k] = v] on the items of a dict: a key already present keeps its
    place and takes the new value. *)
Fixpoint dict_set (k : list N) (v : json) (d : list (list N * json)) :
    list (list N * json) :=
  match d with
  | [] => [(k, v)]
  | (k', v') :: d' =>
      if bool_decide (k = k') then (k, v) :: d' else (k', v') :: dict_set k v d'
  end.

(** [dict(pairs)]: of two pairs with one key the later wins. *)
Definition dict_of_pairs (pairs : list (list N * json)) : list (list N * json) :=
  fold_left (fun d kv => dict_set kv.1 kv.2 d) pairs [].

(** Outcome of a scanner that recurses on a step budget: a value and the
    rest of the input, a malformed document, or the budget ran out. *)
Inductive scanned (A : Type) : Type :=
| Scanned (a : A) (rest : list ascii)
| Malformed
| OutOfFuel.
Arguments Scanned {A} a rest.
Arguments Malformed {A}.
Arguments OutOfFuel {A}.

(** The scanners of values, arrays and objects call one another; each is
    given here as one step that takes the scanners it calls, and the
    three are tied together below.  [scan_step] reads one JSON value at
    the head of [s]; [array_step] and [object_step] read the items of a
    non-empty array or object from its first term or key up to and
    including the closing bracket. *)
Definition scan_step (array : list ascii -> scanned (list json))
    (object : list ascii -> scanned (list (list N * json)))
    (s : list ascii) : scanned json :=
  match s with
  | [] => Malformed
  | c :: r =>
      let n := N_of_ascii c in
      if (n =? 34)%N then
        match scanstring r with
        | Some (t, r') => Scanned (JStr t) r'
        | None => Malformed
        end
      else if (n =? 123)%N then
        let r0 := skip_ws r in
        if starts_with 125 r0 then Scanned (JObj []) (tl r0)
        else
          match object r0 with
          | Scanned ms r' => Scanned (JObj (dict_of_pairs ms)) r'
          | Malformed => Malformed
          | OutOfFuel => OutOfFuel
          end
      else if (n =? 91)%N then
        let r0 := skip_ws r in
        if starts_with 93 r0 then Scanned (JArr []) (tl r0)
        else
          match array r0 with
          | Scanned vs r' => Scanned (JArr vs) r'
          | Malformed => Malformed
          | OutOfFuel => OutOfFuel
          end
      else
        match match_literal (chars "null") s with
        | Some r' => Scanned JNull r'
        | None =>
        match match_literal (chars "true") s with
        | Some r' => Scanned (JBool true) r'
        | None =>
        match match_literal (chars "false") s with
        | Some r' => Scanned (JBool false) r'
        | None =>
        match match_literal (chars "NaN") s with
        | Some r' => Scanned (JFloat (chars "NaN")) r'
        | None =>
        match match_literal (chars "Infinity") s with
        | Some r' => Scanned (JFloat (chars "Infinity")) r'
        | None =>
        match match_literal (chars "-Infinity") s with
        | Some r' => Scanned (JFloat (chars "-Infinity")) r'
        | None =>
        match scan_number s with
        | Some (v, r') => Scanned v r'
        | None => Malformed
        end end end end end end end
  end.

Definition array_step (once : list ascii -> scanned json)
    (array : list ascii -> scanned (list json))
    (s : list ascii) : scanned (list json) :=
  match once s with
  | Scanned v r =>
      match skip_ws r with
      | c :: r' =>
          if (N_of_ascii c =? 93)%N then Scanned [v] r'
          else if (N_of_ascii c =? 44)%N then
            match array (skip_ws r') with
            | Scanned vs r'' => Scanned (v :: vs) r''
            | Malformed => Malformed
            | OutOfFuel => OutOfFuel
            end
          else Malformed
      | [] => Malformed
      end
  | Malformed => Malformed
  | OutOfFuel => OutOfFuel
  end.

Definition object_step (once : list ascii -> scanned json)
    (object : list ascii -> scanned (list (list N * json)))
    (s : list ascii) : scanned (list (list N * json)) :=
  match s with
  | q :: r =>
      if (N_of_ascii q =? 34)%N then
        match scanstring r with
        | None => Malformed
        | Some (k, r1) =>
            match skip_ws r1 with
            | colon :: r2 =>
                if (N_of_ascii colon =? 58)%N then
                  match once (skip_ws r2) with
                  | Scanned v r3 =>
                      match skip_ws r3 with
                      | c :: r4 =>
                          if (N_of_ascii c =? 125)%N then Scanned [(k, v)] r4
                          else if (N_of_ascii c =? 44)%N then
                            match object (skip_ws r4) with
                            | Scanned ms r5 => Scanned ((k, v) :: ms) r5
                            | Malformed => Malformed
                            | OutOfFuel => OutOfFuel
                            end
                          else Malformed
                      | [] => Malformed
                      end
                  | Malformed => Malformed
                  | OutOfFuel => OutOfFuel
                  end
                else Malformed
            | [] => Malformed
            end
        end
      else Malformed
  | [] => Malformed
  end.

(** [scan_once], [_parse_array] and [_parse_object], on a budget of
    nested calls. *)
Fixpoint scan_once (fuel : nat) (s : list ascii) : scanned json :=
  match fuel with
  | O => OutOfFuel
  | S fuel' => scan_step (parse_array fuel') (parse_object fuel') s
  end
with parse_array (fuel : nat) (s : list ascii) : scanned (list json) :=
  match fuel with
  | O => OutOfFuel
  | S fuel' => array_step (scan_once fuel') (parse_array fuel') s
  end
with parse_object (fuel : nat) (s : list ascii) : scanned (list (list N * json)) :=
  match fuel with
  | O => OutOfFuel
  | S fuel' => object_step (scan_once fuel') (parse_object fuel') s
  end.

(** [json.loads(s)]: leading whitespace, one value, trailing whitespace
    and nothing more; [None] is [ValueError].  The budget is enough for
    every document: see [scan_once_fuel]. *)
Definition json_loads (s : string) : option json :=
  let doc := skip_ws (chars s) in
  match scan_once (S (2 * length doc)) doc with
  | Scanned v r =>
      match skip_ws r with
      | [] => Some v
      | _ :: _ => None
      end
  | _ => None
  end.

(** ** The backend objects that [ui_root] reads *)

(** The attributes of rtslib's objects that [ui_command_sessions]
    reads. *)
Record StorageObject := { udev_path : string }.
Record LUN := { storage_object : StorageObject }.
Record MappedLUN := {
  mapped_lun : Z;
  tpg_lun : LUN;
  write_protect : bool }.
Record NodeACL := {
  node_wwn : string;
  authenticate_target : bool;
  mapped_luns : list MappedLUN }.
Record Connection := {
  address : string;
  transport : string;
  cid : Z;
  cstate : string }.
Record Session := {
  alias : string;
  session_id : Z;              (* [session.id] *)
  session_type : string;       (* [session.type] *)
  state : string;
  parent_nodeacl : NodeACL;
  connections : list Connection }.

(** ** Exceptions, results *)

Inductive exn : Type :=
| ExecutionError (msg : string)    (* configshell's command failure *)
| ValueError                       (* with its subclasses *)
| IOError
| OSError
| ShutilError                      (* [shutil.Error] *)
| OtherError (name : string).

Inductive result (A : Type) : Type :=
| Ok (a : A)
| Raise (e : exn).
Arguments Ok {A} a.
Arguments Raise {A} e.

(** The interface of [RTSRoot()] that [ui_root] consumes.  The backend
    lives outside this program; [restore] and [clear_existing] may raise,
    and leave the backend in the state they reached. *)
Class BackendHandle (B : Type) := {
  fabric_modules : B -> list string;
  sessions : B -> list Session;
  dump : B -> json;
  restore : json -> bool -> B -> result Z * B;
  clear_existing : bool -> B -> result unit * B }.

(** ** Files *)

Inductive node : Type :=
| File (mode : Z) (data : string)
| Dir.

Definition S_IRUSR : Z := 256.   (* 0o400 *)
Definition S_IWUSR : Z := 128.   (* 0o200 *)

Definition slash : ascii := "/"%char.

(** [s.split('/')[-1]] *)
Definition last_segment (s : string) : string :=
  string_of_list_ascii
    (fold_left (fun acc c => if Ascii.eqb c slash then [] else acc ++ [c]) (chars s) []).

Fixpoint rstrip_slash_rev (r : list ascii) : list ascii :=
  match r with
  | c :: r' => if Ascii.eqb c slash then rstrip_slash_rev r' else r
  | [] => []
  end.

(** [shutil._basename]: the last segment once trailing slashes are
    removed. *)
Definition shutil_basename (p : string) : string :=
  last_segment (string_of_list_ascii (rev (rstrip_slash_rev (rev (chars p))))).

(** [os.path.join(a, b)] for a relative [b]. *)
Definition path_join (a b : string) : string :=
  match rev (chars a) with
  | [] => b
  | c :: _ => if Ascii.eqb c slash then a ++ b else a ++ "/" ++ b
  end.

(** ** The node tree *)

Inductive ui_child : Type :=
| UIBackstores
| UIFabricModule (fabric_module : string).

(** ** What a command does, in order *)

Inductive level : Type := Info | Error.

Inductive event : Type :=
| EvMove (src dst : string)                 (* [shutil.move] succeeded *)
| EvOpen (path : string)                    (* [open(path, "w+")] *)
| EvFchmod (path : string) (mode : Z)
| EvWrite (path : string) (data : string)
| EvRead (path : string)
| EvDump
| EvRestore (snapshot : json) (clear : bool)
| EvClearExisting (confirm : bool)
| EvRefresh
| EvLog (l : level) (msg : string)          (* [self.shell.log] *)
| EvDisplay (margin : nat) (txt : string).  (* [console.display(console.indent(..))] *)

(** ** The state a command runs in, and the monad of commands *)

Section UIRoot.
Context {B : Type}.

Record world : Type := World {
  as_root : bool;                 (* [self.as_root] *)
  children : list ui_child;       (* [self._children] *)
  fs : gmap string node;          (* the files, by path *)
  backend : B;                    (* what [RTSRoot()] gives access to *)
  events : list event }.          (* all that was done, oldest first *)

Definition M (A : Type) : Type := world -> result A * world.

Definition ret {A} (a : A) : M A := fun w => (Ok a, w).
Definition raise {A} (e : exn) : M A := fun w => (Raise e, w).
Definition bind {A C} (m : M A) (k : A -> M C) : M C :=
  fun w =>
    match m w with
    | (Ok a, w') => k a w'
    | (Raise e, w') => (Raise e, w')
    end.

(** [try: m  except <class>: handler], the class given by [catches]. *)
Definition try_except {A} (m : M A) (catches : exn -> bool) (handler : M A) : M A :=
  fun w =>
    match m w with
    | (Ok a, w') => (Ok a, w')
    | (Raise e, w') => if catches e then handler w' else (Raise e, w')
    end.

Definition emit (e : event) : M unit :=
  fun w => (Ok tt, World (as_root w) (children w) (fs w) (backend w) (events w ++ [e])).

Definition set_fs (f : gmap string node) : M unit :=
  fun w => (Ok tt, World (as_root w) (children w) f (backend w) (events w)).

Definition set_backend (b : B) : M unit :=
  fun w => (Ok tt, World (as_root w) (children w) (fs w) b (events w)).

Definition set_children (c : list ui_child) : M unit :=
  fun w => (Ok tt, World (as_root w) c (fs w) (backend w) (events w)).

Definition gets {A} (f : world -> A) : M A := fun w => (Ok (f w), w).
End UIRoot.

Arguments world B : clear implicits.
Arguments M B A : clear implicits.

Declare Scope cmd_scope.
Delimit Scope cmd_scope with cmd.
Notation "x <- m ;; k" := (bind m (fun x => k))
  (at level 100, m at next level, right associativity) : cmd_scope.
Notation "m ;; k" := (bind m (fun _ => k))
  (at level 100, right associativity) : cmd_scope.
Open Scope cmd_scope.

Definition is_IOError (e : exn) : bool :=
  match e with IOError => true | _ => false end.

Definition is_ValueError (e : exn) : bool :=
  match e with ValueError => true | _ => false end.

Section Commands.
Context {B : Type} `{BackendHandle B}.

(** [os.path.expanduser], fixed by the process environment. *)
Variable expanduser : string -> string.
(** The process umask, which decides the mode of a file that [open]
    creates. *)
Variable umask : Z.

(** *** The shell's log and console *)

Definition log_info (msg : string) : M B unit := emit (EvLog Info msg).
Definition log_error (msg : string) : M B unit := emit (EvLog Error msg).

(** *** Files *)

Definition isfile (path : string) : M B bool :=
  gets (fun w => match fs w !! path with Some (File _ _) => true | _ => false end).

(** [shutil.move(src, dst)] of Python 2.7 on paths that differ.  A
    destination that is a directory receives the source under its base
    name, unless that name is taken.  Then [os.rename]; when it fails
    for a missing source the fallback [copy2] raises [IOError], when it
    fails for a directory over a file the fallback [copytree] raises
    [OSError]. *)
Definition shutil_move (src dst : string) : M B unit :=
  f <- gets fs ;;
  let real_dst :=
    match f !! dst with
    | Some Dir => path_join dst (shutil_basename src)
    | _ => dst
    end in
  match f !! dst, f !! real_dst with
  | Some Dir, Some _ => raise ShutilError
  | _, _ =>
      match f !! src, f !! real_dst with
      | None, _ => raise IOError
      | Some Dir, Some (File _ _) => raise OSError
      | Some n, _ =>
          set_fs (<[real_dst := n]> (delete src f)) ;;
          emit (EvMove src real_dst)
      end
  end.

(** [open(path, "w+")]: the file is created with the mode the umask
    leaves, or emptied if it is there; a directory cannot be opened. *)
Definition open_w (path : string) : M B unit :=
  f <- gets fs ;;
  match f !! path with
  | Some Dir => raise IOError
  | Some (File mode _) => set_fs (<[path := File mode ""]> f) ;; emit (EvOpen path)
  | None =>
      set_fs (<[path := File (Z.land 438 (Z.lnot umask)) ""]> f) ;;
      emit (EvOpen path)
  end.

(** [os.fchmod(f.fileno(), mode)] on the file opened at [path]. *)
Definition fchmod (path : string) (mode : Z) : M B unit :=
  f <- gets fs ;;
  match f !! path with
  | Some (File _ data) => set_fs (<[path := File mode data]> f) ;; emit (EvFchmod path mode)
  | _ => raise OSError
  end.

(** [f.write(s)] on the file opened at [path]. *)
Definition write (path : string) (s : string) : M B unit :=
  f <- gets fs ;;
  match f !! path with
  | Some (File mode data) =>
      set_fs (<[path := File mode (data ++ s)]> f) ;; emit (EvWrite path s)
  | _ => raise IOError
  end.

(** [open(path, "r")] and [f.read()]. *)
Definition read_file (path : string) : M B string :=
  f <- gets fs ;;
  match f !! path with
  | Some (File _ data) => emit (EvRead path) ;; ret data
  | _ => raise IOError
  end.

(** *** The backend *)

Definition rts_dump : M B json :=
  b <- gets backend ;; emit EvDump ;; ret (dump b).

Definition rts_restore (snapshot : json) (clear : bool) : M B Z :=
  b <- gets backend ;;
  emit (EvRestore snapshot clear) ;;
  let '(r, b') := restore snapshot clear b in
  set_backend b' ;;
  match r with Ok n => ret n | Raise e => raise e end.

Definition rts_clear_existing (confirm : bool) : M B unit :=
  b <- gets backend ;;
  emit (EvClearExisting confirm) ;;
  let '(r, b') := clear_existing confirm b in
  set_backend b' ;;
  match r with Ok _ => ret tt | Raise e => raise e end.

(** *** configshell *)

(** Modelled from the spec: [UINode.assert_root] (ui_node.py), which is
    not part of the sources: the caller must hold elevated privilege,
    or the command aborts with an authorization error before any side
    effect. *)
Definition assert_root : M B unit :=
  root <- gets as_root ;;
  if root : bool then ret tt
  else raise (ExecutionError "This privileged command is disabled: you are not root.").

Definition lower_char (c : ascii) : ascii :=
  let n := N_of_ascii c in
  if ((65 <=? n) && (n <=? 90))%N then ascii_of_N (n + 32) else c.

Definition lower (s : string) : string :=
  string_of_list_ascii (map lower_char (chars s)).

(** configshell's [ui_eval_param(value, 'bool', default)]: the default
    for [None]; [true] and [false] in any case; anything else is a
    syntax error. *)
Definition ui_eval_param_bool (ui_value : option string) (default : bool) : M B bool :=
  match ui_value with
  | None => ret default
  | Some v =>
      if String.eqb (lower v) "true" then ret true
      else if String.eqb (lower v) "false" then ret false
      else raise (ExecutionError ("Syntax error, '" ++ v ++ "' is not true|false."))
  end.

(** *** UIRoot *)

(** [refresh]: the children are dropped and built anew, the backstores
    first, then one node for each fabric module of the backend. *)
Definition refresh : M B unit :=
  emit EvRefresh ;;
  set_children [] ;;
  b <- gets backend ;;
  set_children (UIBackstores :: map UIFabricModule (fabric_modules b)).

Definition ui_command_saveconfig (savefile : string) : M B unit :=
  assert_root ;;
  let savefile := expanduser savefile in
  let backupfile := (savefile ++ ".backup")%string in
  try_except
    (shutil_move savefile backupfile ;;
     log_info ("Existing file " ++ savefile ++ " backed up to "
               ++ last_segment backupfile))
    is_IOError (ret tt) ;;
  open_w savefile ;;
  fchmod savefile (Z.lor S_IRUSR S_IWUSR) ;;
  snapshot <- rts_dump ;;
  write savefile (json_dumps snapshot) ;;
  write savefile (String newline "") ;;
  log_info ("Configuration saved to " ++ savefile).

(** [json.loads(f.read())] and [RTSRoot().restore(...)] sit in one
    [try], so a [ValueError] of either is answered alike. *)
Definition ui_command_restoreconfig (savefile : string) (clear_existing : bool) : M B unit :=
  assert_root ;;
  let savefile := expanduser savefile in
  present <- isfile savefile ;;
  if negb present then
    log_info ("Restore file " ++ savefile ++ " not found")
  else
    outcome <-
      try_except
        (contents <- read_file savefile ;;
         match json_loads contents with
         | None => raise ValueError
         | Some snapshot =>
             errors <- rts_restore snapshot clear_existing ;;
             ret (Some errors)
         end)
        is_ValueError
        (log_error ("Error parsing savefile: " ++ savefile) ;; ret None) ;;
    match outcome with
    | None => ret tt
    | Some errors =>
        (if (errors =? 0)%Z
         then log_info ("Configuration restored from " ++ savefile)
         else log_error ("Configuration restored, " ++ str_of_int errors
                         ++ " recoverable errors")) ;;
        refresh
    end.

Definition ui_command_clearconfig (confirm : option string) : M B unit :=
  assert_root ;;
  confirm <- ui_eval_param_bool confirm false ;;
  rts_clear_existing confirm ;;
  log_info "All configuration cleared" ;;
  refresh.
(** *** The session listing *)

Definition indent_step : nat := 4.
Definition base_steps : nat := 0.
Definition action_list : list string := ["list"; "details"]%string.

Definition indent_print (txt : string) (steps : nat) : M B unit :=
  emit (EvDisplay (indent_step * steps) txt).

Fixpoint for_each {A} (l : list A) (body : A -> M B unit) : M B unit :=
  match l with
  | [] => ret tt
  | x :: l' => body x ;; for_each l' body
  end.

Definition tab : string := String "009"%char "".

(** The line of a session: its alias, id, type and state. *)
Definition summary_line (session : Session) : string :=
  ("alias: " ++ alias session ++ tab ++ "sid: " ++ str_of_int (session_id session)
   ++ "  type: " ++ session_type session ++ "  state: " ++ state session)%string.

(** The line of the access-control entry, as root and otherwise. *)
Definition acl_line (root : bool) (acl : NodeACL) : string :=
  if root then
    let auth := if authenticate_target acl
                then "authenticated" else "NOT AUTHENTICATED" in
    (node_wwn acl ++ " (" ++ auth ++ ")")%string
  else node_wwn acl.

Definition mlun_line (mlun : MappedLUN) : string :=
  let number := str_of_int (mapped_lun mlun) in
  let dev := udev_path (storage_object (tpg_lun mlun)) in
  let mode := if write_protect mlun then " (r)" else " (rw)" in
  (number ++ " " ++ dev ++ mode)%string.

Definition connection_line (connection : Connection) : string :=
  ("address: " ++ address connection ++ " (" ++ transport connection
   ++ ")  cid: " ++ str_of_int (cid connection) ++ "  state: "
   ++ cstate connection)%string.

(** The body of the loop for a session that passes the filter. *)
Definition show_session (action : string) (session : Session) : M B unit :=
  let acl := parent_nodeacl session in
  indent_print (summary_line session) base_steps ;;
  if String.eqb action "details" then
    root <- gets as_root ;;
    indent_print (acl_line root acl) (base_steps + 1) ;;
    for_each (mapped_luns acl)
      (fun mlun => indent_print (mlun_line mlun) (base_steps + 1)) ;;
    for_each (connections session)
      (fun connection => indent_print (connection_line connection) (base_steps + 1))
  else ret tt.

(** The loop over the sessions; the result is [found]. *)
Fixpoint sessions_loop (action : string) (sid : option Z) (l : list Session)
    (found : bool) : M B bool :=
  match l with
  | [] => ret found
  | session :: l' =>
      if match sid with
         | None => true
         | Some n => (n =? session_id session)%Z
         end
      then show_session action session ;; sessions_loop action sid l' true
      else sessions_loop action sid l' found
  end.

Definition ui_command_sessions (action : string) (sid : option string) : M B unit :=
  (if existsb (String.eqb action) action_list then ret tt
   else raise (ExecutionError
                 ("action must be one of: " ++ String.concat ", " action_list))) ;;
  sid_int <-
    match sid with
    | None => ret None
    | Some s =>
        match py_int s with
        | Some n => ret (Some n)
        | None => raise (ExecutionError ("sid must be a number, '" ++ s ++ "' given"))
        end
    end ;;
  b <- gets backend ;;
  found <- sessions_loop action sid_int (sessions b) false ;;
  if negb found then
    match sid_int with
    | None => indent_print "(no open sessions)" base_steps
    | Some n => raise (ExecutionError ("no session found with sid " ++ str_of_int n))
    end
  else ret tt.
End Commands.

(** ** A backend held in memory

    A small [BackendHandle] on which the commands can be run: it keeps a
    configuration, lists its sessions and fabric modules, restores by
    taking the snapshot as its configuration, counts as recoverable
    errors the members of the snapshot's top level that are [null], and,
    when it is guarded, refuses as rtslib does to clear without
    confirmation. *)
Record mem_backend : Type := MemBackend {
  mem_config : json;
  mem_sessions : list Session;
  mem_modules : list string;
  mem_guarded : bool }.

Definition empty_config : json := JObj [].

Definition count_null (snapshot : json) : Z :=
  match snapshot with
  | JObj members =>
      Z.of_nat (length (List.filter (fun kv => match kv.2 with JNull => true | _ => false end)
                                    members))
  | _ => 0
  end.

Definition mem_restore (snapshot : json) (clear : bool) (b : mem_backend) :
    result Z * mem_backend :=
  match snapshot with
  | JObj _ =>
      (Ok (count_null snapshot),
       MemBackend snapshot (mem_sessions b) (mem_modules b) (mem_guarded b))
  | _ =>
      (Raise (OtherError "AttributeError"),
       if clear
       then MemBackend empty_config (mem_sessions b) (mem_modules b) (mem_guarded b)
       else b)
  end.

Definition mem_clear_existing (confirm : bool) (b : mem_backend) :
    result unit * mem_backend :=
  if confirm || negb (mem_guarded b)
  then (Ok tt, MemBackend empty_config (mem_sessions b) (mem_modules b) (mem_guarded b))
  else (Raise (OtherError "RTSLibError"), b).

#[export] Instance mem_backend_handle : BackendHandle mem_backend := {
  fabric_modules := mem_modules;
  sessions := mem_sessions;
  dump := mem_config;
  restore := mem_restore;
  clear_existing := mem_clear_existing }.

(** ** Comparing snapshots *)

Fixpoint dict_get (k : list N) (d : list (list N * json)) : option json :=
  match d with
  | [] => None
  | (k', v) :: d' => if bool_decide (k = k') then Some v else dict_get k d'
  end.

Section Forall2b.
Context {A C : Type} (f : A -> C -> bool).

(** Two lists of one length whose items are related in pairs. *)
Fixpoint forall2b (xs : list A) (ys : list C) : bool :=
  match xs, ys with
  | [], [] => true
  | x :: xs', y :: ys' => f x y && forall2b xs' ys'
  | _, _ => false
  end.
End Forall2b.

(** Equality of snapshots as Python's [==] decides it on values of one
    shape: lists item by item, dicts by key whatever the order of their
    items. *)
Fixpoint json_eqb (a b : json) : bool :=
  match a, b with
  | JNull, JNull => true
  | JBool x, JBool y => Bool.eqb x y
  | JInt x, JInt y => (x =? y)%Z
  | JFloat x, JFloat y => bool_decide (x = y)
  | JStr x, JStr y => bool_decide (x = y)
  | JArr xs, JArr ys => forall2b json_eqb xs ys
  | JObj ms, JObj ns =>
      (length ms =? length ns)%nat
      && forallb (fun kv => match dict_get kv.1 ns with
                            | Some w => json_eqb kv.2 w
                            | None => false
                            end) ms
  | _, _ => false
  end.

(** A code point that is not a surrogate. *)
Definition is_scalar (c : N) : bool :=
  ((c <? 55296) || ((57344 <=? c) && (c <=? 1114111)))%N.

(** The snapshots for which writing and reading back is studied: no two
    items of a dict share a key, text is made of Unicode scalar values,
    and no float occurs. *)
Fixpoint wf_json (v : json) : bool :=
  match v with
  | JNull | JBool _ | JInt _ => true
  | JFloat _ => false
  | JStr s => forallb is_scalar s
  | JArr items => forallb wf_json items
  | JObj members =>
      forallb (fun kv => forallb is_scalar kv.1 && wf_json kv.2) members
      && bool_decide (NoDup (map fst members))
  end.

(** The snapshot with the items of every dict in the order of their
    keys: what the written document lists. *)
Fixpoint canon (v : json) : json :=
  match v with
  | JArr items => JArr (map canon items)
  | JObj members => JObj (sort_items (map (fun kv => (kv.1, canon kv.2)) members))
  | _ => v
  end.

(** ** Running a command *)

Definition outcome {B A} (m : M B A) (w : world B) : result A := (m w).1.
Definition after {B A} (m : M B A) (w : world B) : world B := (m w).2.

Definition with_backend {B} (b : B) (w : world B) : world B :=
  World (as_root w) (children w) (fs w) b (events w).

Definition add_events {B} (w : world B) (evs : list event) : world B :=
  World (as_root w) (children w) (fs w) (backend w) (events w ++ evs).

Definition is_refresh (e : event) : bool :=
  match e with EvRefresh => true | _ => false end.

Definition is_write (e : event) : bool :=
  match e with EvWrite _ _ => true | _ => false end.

(** The owner may read and write; nobody else may do anything. *)
Definition owner_rw_only (mode : Z) : Prop :=
  Z.land mode 511 = 384.

(** ** The shape of a written document *)





(** ** The two steps of a save *)

Section SaveSteps.
Context {B : Type} `{BackendHandle B}.
Variable umask : Z.

(** The backup step of [ui_command_saveconfig]. *)
Definition backup_step (p : string) : M B unit :=
  try_except
    (shutil_move p (p ++ ".backup") ;;
     log_info ("Existing file " ++ p ++ " backed up to " ++ last_segment (p ++ ".backup")))
    is_IOError (ret tt).

(** What follows the backup step. *)
Definition write_step (p : string) : M B unit :=
  open_w umask p ;;
  fchmod p (Z.lor S_IRUSR S_IWUSR) ;;
  snapshot <- rts_dump ;;
  write p (json_dumps snapshot) ;;
  write p (String newline "") ;;
  log_info ("Configuration saved to " ++ p).

(** The contents of the configuration file after a save. *)
Definition saved_text (b : B) : string :=
  (json_dumps (dump b) ++ String newline "")%string.

(** The events of [write_step], in order. *)
Definition write_events (p : string) (b : B) : list event :=
  [EvOpen p; EvFchmod p (Z.lor S_IRUSR S_IWUSR); EvDump;
   EvWrite p (json_dumps (dump b)); EvWrite p (String newline "");
   EvLog Info ("Configuration saved to " ++ p)].
End SaveSteps.

(** ** What the session listing displays *)

Definition detail_margin : nat := indent_step * (base_steps + 1).

(** The lines of one session. *)
Definition session_lines (root : bool) (action : string) (session : Session) : list event :=
  EvDisplay (indent_step * base_steps) (summary_line session)
  :: if String.eqb action "details" then
       EvDisplay detail_margin (acl_line root (parent_nodeacl session))
       :: map (fun mlun => EvDisplay detail_margin (mlun_line mlun))
              (mapped_luns (parent_nodeacl session))
       ++ map (fun c => EvDisplay detail_margin (connection_line c)) (connections session)
     else [].

(** The test of the loop: no filter, or the filter is the session's
    id. *)
Definition passes (sid : option Z) (session : Session) : bool :=
  match sid with
  | None => true
  | Some n => (n =? session_id session)%Z
  end.

(** The filter as the command reads it: [None] when [int(sid)] fails. *)
Definition parse_sid (sid : option string) : option (option Z) :=
  match sid with
  | None => Some None
  | Some s =>
      match py_int s with
      | Some n => Some (Some n)
      | None => None
      end
  end.

(** A session with the authentication flag of its access-control entry
    blanked. *)
Definition hide_auth (session : Session) : Session :=
  let acl := parent_nodeacl session in
  {| alias := alias session; session_id := session_id session;
     session_type := session_type session; state := state session;
     parent_nodeacl := {| node_wwn := node_wwn acl; authenticate_target := false;
                          mapped_luns := mapped_luns acl |};
     connections := connections session |}.

(** A line at the base indentation: the summary of a session. *)
Definition is_summary (e : event) : bool :=
  match e with
  | EvDisplay O _ => true
  | _ => false
  end.

(** The value of the [confirm] parameter, when it has one. *)
Definition confirm_flag (confirm : option string) : option bool :=
  match confirm with
  | None => Some false
  | Some v =>
      if String.eqb (lower v) "true" then Some true
      else if String.eqb (lower v) "false" then Some false
      else None
  end.

(** ** Notions for the study of the decoder *)

(** What may follow a number without joining it. *)
Definition ends_number (rest : list ascii) : bool :=
  match rest with
  | [] => true
  | c :: _ =>
      negb (is_digit c) && negb (N_of_ascii c =? 46)%N
      && negb (N_of_ascii c =? 101)%N && negb (N_of_ascii c =? 69)%N
  end.

(** A scanner that leaves less than it was given. *)
Definition consumes {A} (scan : list ascii -> scanned A) : Prop :=
  forall s a r, scan s = Scanned a r -> (length r < length s)%nat.

(** A scanner with more budget agrees with one with less wherever the
    latter has enough. *)
Definition extends {A} (scan scan' : list ascii -> scanned A) : Prop :=
  forall s, scan s <> OutOfFuel -> scan' s = scan s.

(** The first character of a written value: not whitespace, not a closing
    bracket. *)
Definition opens_value (s : list ascii) : Prop :=
  exists c t, s = c :: t /\ is_ws c = false
              /\ N_of_ascii c <> 93%N /\ N_of_ascii c <> 125%N.

(** Scanning with any budget from some point on. *)
Definition scans {A} (scan : nat -> list ascii -> scanned A)
    (s : list ascii) (a : A) (r : list ascii) : Prop :=
  exists f0, forall f, (f0 <= f)%nat -> scan f s = Scanned a r.

(** A written value reads back as its canonical form, whatever follows
    that cannot be taken for more of a number. *)
Definition reads (v : json) : Prop :=
  forall level rest, ends_number rest = true ->
                     scans scan_once (encode level v ++ rest) (canon v) rest.

(** The text of a member of a dict at nesting depth [level]. *)
Definition member_text (level : nat) (kv : list N * json) : list ascii :=
  encode_string kv.1 ++ key_separator ++ encode (S level) kv.2.

Definition key_le {A} (x y : list N * A) : Prop := text_leb x.1 y.1 = true.


(** ** A world to run the commands in *)

Definition example_snapshot : json :=
  JObj [(text_of_string "targets",
         JArr [JObj [(text_of_string "wwn",
                      JStr (text_of_string "iqn.2003-01.org.linux-iscsi.host:sn.1"));
                     (text_of_string "fabric", JStr (text_of_string "iscsi"));
                     (text_of_string "tpgs", JArr [JInt 1; JInt (-2)])]]);
        (text_of_string "storage_objects", JArr []);
        (text_of_string "fabric_modules", JArr [])].

Definition example_acl (auth : bool) : NodeACL :=
  {| node_wwn := "iqn.1994-05.com.redhat:client";
     authenticate_target := auth;
     mapped_luns := [{| mapped_lun := 0;
                        tpg_lun := {| storage_object := {| udev_path := "/dev/sda" |} |};
                        write_protect := false |}] |}.

Definition example_session (n : Z) (auth : bool) : Session :=
  {| alias := "client"; session_id := n; session_type := "Normal";
     state := "LOGGED_IN"; parent_nodeacl := example_acl auth;
     connections := [{| address := "10.0.0.7"; transport := "TCP"; cid := 0;
                        cstate := "LOGGED_IN" |}] |}.

Definition example_sessions (auth : bool) : list Session :=
  [example_session 1 auth; example_session 2 auth; example_session 3 auth].

Definition example_backend (auth : bool) : mem_backend :=
  MemBackend example_snapshot (example_sessions auth) ["iscsi"; "loopback"]%string true.

Definition empty_backend : mem_backend :=
  MemBackend empty_config [] ["iscsi"; "loopback"]%string true.

(** A backend that clears without asking for confirmation. *)
Definition lenient_backend : mem_backend :=
  MemBackend example_snapshot [] ["iscsi"]%string false.

Definition default_save_file : string := "/etc/target/saveconfig.json".

Definition example_files : gmap string node :=
  <[default_save_file := File 420 "{}"]>
    (<["/tmp/broken.json"%string := File 420 "{"]> ∅).

(** [os.path.expanduser] where the home directory is [/root] and no
    other user is known. *)
Definition example_expanduser (path : string) : string :=
  match path with
  | String "~" EmptyString => "/root"
  | String "~" (String "/" rest) => "/root/" ++ rest
  | _ => path
  end.

Definition example_umask : Z := 18.   (* 0o022 *)

Definition example_world (root auth : bool) : world mem_backend :=
  World root [] example_files (example_backend auth) [].

(** A backend with no sessions. *)
Definition quiet_world : world mem_backend :=
  World false [] example_files empty_backend [].

Definition lenient_world : world mem_backend :=
  World true [] example_files lenient_backend [].

(** ** The version command *)

Section Version.
Context {B : Type}.

(** [targetcli.__version__], which the package sets outside this file. *)
Variable targetcli_version : string.

Definition ui_command_version : M B unit :=
  log_info ("targetcli version " ++ targetcli_version).
End Version.

(** ** Notions for the frame of the commands *)

Definition is_display (e : event) : bool :=
  match e with EvDisplay _ _ => true | _ => false end.

(** A report or a refresh: what a restore does once the backend has
    answered. *)
Definition is_report (e : event) : bool :=
  match e with EvLog _ _ | EvRefresh => true | _ => false end.

(** Printable ASCII, or the line feed. *)
Definition is_plain (c : ascii) : bool :=
  let n := N_of_ascii c in
  ((n =? 10) || ((32 <=? n) && (n <=? 126)))%N.

(** No slash in the text. *)
Definition no_slash (s : string) : bool :=
  forallb (fun c => negb (Ascii.eqb c slash)) (chars s).

(** The example files with a document that is a list. *)
Definition list_document_world : world mem_backend :=
  World true [] (<["/tmp/list.json"%string := File 420 "[]"]> example_files)
    (example_backend true) [].

(** The example files with a file of blanks. *)
Definition blank_file_world : world mem_backend :=
  World true []
    (<["/tmp/blank.json"%string := File 420 (String " " (String newline ""))]> example_files)
    (example_backend true) [].

(** * Text *)

(** ** Strings *)

Lemma append_cons (x : ascii) (a b : string) :
  (String x a ++ b)%string = String x (a ++ b).
Proof. reflexivity. Qed.

Lemma append_assoc (a b c : string) : ((a ++ b) ++ c = a ++ (b ++ c))%string.
Proof.
  induction a as [|x a IH]; [reflexivity|]. rewrite !append_cons. now rewrite IH.
Qed.

Lemma append_nil_r (a : string) : (a ++ "")%string = a.
Proof.
  induction a as [|x a IH]; [reflexivity|]. rewrite append_cons. now rewrite IH.
Qed.

Lemma append_eq_self (p s : string) : (p ++ s)%string = p -> s = ""%string.
Proof.
  induction p as [|x p IH]; intros E; [exact E|].
  rewrite append_cons in E. injection E as E. auto.
Qed.

Lemma chars_append (a b : string) : chars (a ++ b) = chars a ++ chars b.
Proof.
  induction a as [|x a IH]; [reflexivity|]. rewrite append_cons. simpl. now rewrite IH.
Qed.

Lemma chars_nil (a : string) : chars a = [] -> a = ""%string.
Proof. destruct a; simpl; [reflexivity | discriminate]. Qed.

Lemma backup_neq (p : string) : (p ++ ".backup")%string <> p.
Proof. intros E. apply append_eq_self in E. discriminate. Qed.

Lemma path_join_backup_neq (p b : string) : path_join (p ++ ".backup") b <> p.
Proof.
  unfold path_join. destruct (rev (chars (p ++ ".backup"))) as [|c r] eqn:E.
  - apply (f_equal (@rev ascii)) in E. rewrite rev_involutive in E. simpl in E.
    apply chars_nil in E. destruct p; discriminate.
  - destruct (Ascii.eqb c slash); rewrite append_assoc; intros E';
      apply append_eq_self in E'; discriminate.
Qed.

(** * Numbers as the encoder writes them *)

(** ** Decimal digits *)

Lemma N_of_digit_char (d : N) : (d < 10)%N -> N_of_ascii (digit_char d) = (48 + d)%N.
Proof. intros Hd. unfold digit_char. apply N_ascii_embedding. lia. Qed.

Lemma is_digit_digit_char (d : N) : (d < 10)%N -> is_digit (digit_char d) = true.
Proof.
  intros Hd. unfold is_digit. rewrite N_of_digit_char by assumption.
  apply andb_true_intro. split; apply N.leb_le; lia.
Qed.

Lemma digit_val_digit_char (d : N) : (d < 10)%N -> digit_val (digit_char d) = d.
Proof. intros Hd. unfold digit_val. rewrite N_of_digit_char by assumption. lia. Qed.

Lemma digits_value_snoc (ds : list ascii) (c : ascii) :
  digits_value (ds ++ [c]) = (10 * digits_value ds + digit_val c)%N.
Proof. unfold digits_value. now rewrite fold_left_app. Qed.

(** The digits of a positive number: a leading digit that is not zero,
    then digits, and their value is the number. *)
Lemma digits_aux_spec (fuel : nat) (n : N) :
  (0 < n < 2 ^ N.of_nat fuel)%N ->
  exists d ds,
    (forall acc, digits_aux fuel n acc = d :: ds ++ acc)
    /\ is_digit d = true /\ N_of_ascii d <> 48%N
    /\ forallb is_digit ds = true
    /\ digits_value (d :: ds) = n.
Proof.
  revert n. induction fuel as [|fuel IH]; intros n Hn.
  - simpl in Hn. lia.
  - cbn [digits_aux]. destruct (n <? 10)%N eqn:Hlt.
    + apply N.ltb_lt in Hlt. exists (digit_char n), [].
      rewrite N.mod_small by assumption.
      repeat split.
      * now apply is_digit_digit_char.
      * rewrite N_of_digit_char by assumption. lia.
      * unfold digits_value. simpl. rewrite digit_val_digit_char by assumption. lia.
    + apply N.ltb_ge in Hlt.
      assert (Hq : (0 < n / 10 < 2 ^ N.of_nat fuel)%N).
      { rewrite Nat2N.inj_succ, N.pow_succ_r' in Hn.
        split.
        - apply N.div_str_pos. lia.
        - apply N.Div0.div_lt_upper_bound. lia. }
      destruct (IH _ Hq) as (d & ds & Hrun & Hd & Hnz & Hds & Hval).
      assert (Hm : (n mod 10 < 10)%N) by (apply N.mod_lt; lia).
      exists d, (ds ++ [digit_char (n mod 10)]). repeat split; try assumption.
      * intros acc. rewrite Hrun, <- app_assoc. reflexivity.
      * rewrite forallb_app, Hds. simpl. now rewrite is_digit_digit_char.
      * rewrite app_comm_cons, digits_value_snoc, Hval, digit_val_digit_char by assumption.
        symmetry. apply N.div_mod'.
  Qed.

Lemma digits_of_N_pos (n : N) :
  (0 < n)%N ->
  exists d ds,
    digits_of_N n = d :: ds
    /\ is_digit d = true /\ N_of_ascii d <> 48%N
    /\ forallb is_digit ds = true
    /\ digits_value (d :: ds) = n.
Proof.
  intros Hn. unfold digits_of_N.
  destruct (digits_aux_spec (N.to_nat (N.succ (N.log2 n))) n) as (d & ds & Hrun & Hrest).
  - rewrite N2Nat.id. split; [assumption|]. now apply N.log2_spec.
  - exists d, ds. split; [|assumption]. rewrite Hrun. now rewrite app_nil_r.
Qed.

Lemma digits_of_N_zero : digits_of_N 0 = ["0"%char].
Proof. reflexivity. Qed.

(** ** Numbers *)

Lemma span_digits_app (ds rest : list ascii) :
  forallb is_digit ds = true ->
  match rest with [] => true | c :: _ => negb (is_digit c) end = true ->
  span_digits (ds ++ rest) = (ds, rest).
Proof.
  intros Hds Hrest. induction ds as [|d ds IH].
  - simpl. destruct rest as [|c r]; [reflexivity|]. simpl.
    apply negb_true_iff in Hrest. now rewrite Hrest.
  - simpl in Hds. apply andb_prop in Hds as [Hd Hds]. simpl.
    rewrite Hd, (IH Hds). reflexivity.
Qed.

Lemma ends_number_no_digit (rest : list ascii) :
  ends_number rest = true ->
  match rest with [] => true | c :: _ => negb (is_digit c) end = true.
Proof.
  destruct rest as [|c r]; [reflexivity|]. simpl.
  intros E. repeat (apply andb_prop in E as [E ?]). assumption.
Qed.

Lemma scan_frac_none (rest : list ascii) :
  ends_number rest = true -> scan_frac rest = ([], rest).
Proof.
  destruct rest as [|c r]; [reflexivity|]. simpl. intros E.
  repeat (apply andb_prop in E as [E ?]).
  repeat match goal with H : negb _ = true |- _ => apply negb_true_iff in H end.
  destruct r as [|d r']; [reflexivity|]. rewrite H1. reflexivity.
Qed.

Lemma scan_exp_none (rest : list ascii) :
  ends_number rest = true -> scan_exp rest = ([], rest).
Proof.
  destruct rest as [|c r]; [reflexivity|]. simpl. intros E.
  repeat (apply andb_prop in E as [E ?]).
  repeat match goal with H : negb _ = true |- _ => apply negb_true_iff in H end.
  rewrite H0, H. reflexivity.
Qed.

Lemma scan_int_part_digits (n : N) (rest : list ascii) :
  ends_number rest = true ->
  scan_int_part (digits_of_N n ++ rest) = Some (digits_of_N n, rest)
  /\ starts_with 45 (digits_of_N n ++ rest) = false
  /\ digits_value (digits_of_N n) = n.
Proof.
  intros Hrest. destruct (N.eq_dec n 0%N) as [->|Hn].
  - rewrite digits_of_N_zero. repeat split; reflexivity.
  - destruct (digits_of_N_pos n) as (d & ds & Hd & Hdig & Hnz & Hds & Hval); [lia|].
    rewrite Hd. cbn [app scan_int_part starts_with].
    apply N.eqb_neq in Hnz. rewrite Hnz, Hdig.
    rewrite (span_digits_app ds rest Hds (ends_number_no_digit _ Hrest)).
    repeat split; [|assumption].
    unfold is_digit in Hdig. apply andb_prop in Hdig as [Hlo _].
    apply N.leb_le in Hlo. apply N.eqb_neq. lia.
Qed.

Lemma scan_number_int (z : Z) (rest : list ascii) :
  ends_number rest = true ->
  scan_number (repr_int z ++ rest) = Some (JInt z, rest).
Proof.
  intros Hrest. unfold scan_number.
  destruct z as [|p|p]; cbn [repr_int].
  - destruct (scan_int_part_digits 0%N rest Hrest) as (Hint & Hs & Hval).
    rewrite Hs, Hint, (scan_frac_none _ Hrest), (scan_exp_none _ Hrest), Hval.
    reflexivity.
  - destruct (scan_int_part_digits (Npos p) rest Hrest) as (Hint & Hs & Hval).
    rewrite Hs, Hint, (scan_frac_none _ Hrest), (scan_exp_none _ Hrest), Hval.
    reflexivity.
  - destruct (scan_int_part_digits (Npos p) rest Hrest) as (Hint & Hs & Hval).
    cbn [app starts_with tl].
    change (N_of_ascii "-" =? 45)%N with true. cbn iota.
    rewrite Hint, (scan_frac_none _ Hrest), (scan_exp_none _ Hrest), Hval.
    reflexivity.
Qed.

(** * Strings as the encoder writes them *)

(** Quotients and remainders by constants, for [lia]. *)
Ltac Zify.zify_post_hook ::= Z.to_euclidean_division_equations.

(** ** Bits of code points *)

Lemma lor_shiftl_low (a b k : N) :
  (b < 2 ^ k)%N -> N.lor (N.shiftl a k) b = (a * 2 ^ k + b)%N.
Proof.
  intros Hb.
  assert (Hdisj : N.land (N.shiftl a k) b = 0%N).
  { apply N.bits_inj_0. intros i. rewrite N.land_spec.
    destruct (N.lt_ge_cases i k) as [Hi|Hi].
    - now rewrite N.shiftl_spec_low.
    - rewrite <- (N.mod_small b (2 ^ k)) by assumption.
      rewrite N.mod_pow2_bits_high by assumption. apply andb_false_r. }
  rewrite <- N.lxor_lor by assumption.
  rewrite <- N.add_nocarry_lxor by assumption.
  now rewrite N.shiftl_mul_pow2.
Qed.

Lemma land_high_mask (c : N) :
  (c < 65536)%N -> N.land c 64512 = (c / 1024 * 1024)%N.
Proof.
  intros Hc. apply N.bits_inj. intros i. rewrite N.land_spec.
  change 64512%N with (N.shiftl (N.ones 6) 10).
  change 1024%N with (2 ^ 10)%N.
  destruct (N.lt_ge_cases i 10) as [Hi|Hi].
  - rewrite N.shiftl_spec_low, N.mul_pow2_bits_low by assumption. apply andb_false_r.
  - rewrite N.shiftl_spec_high', N.mul_pow2_bits_high by assumption.
    rewrite N.div_pow2_bits. replace (i - 10 + 10)%N with i by lia.
    destruct (N.lt_ge_cases (i - 10) 6) as [Hj|Hj].
    + rewrite N.ones_spec_low by assumption. apply andb_true_r.
    + rewrite N.ones_spec_high by assumption. rewrite andb_false_r.
      rewrite <- (N.mod_small c (2 ^ 16)) by exact Hc.
      symmetry. apply N.mod_pow2_bits_high. lia.
Qed.

Lemma is_high_surrogate_spec (u : N) :
  (u < 65536)%N -> is_high_surrogate u = ((55296 <=? u) && (u <? 56320))%N.
Proof.
  intros Hu. unfold is_high_surrogate. rewrite land_high_mask by assumption.
  destruct (N.eqb_spec (u / 1024 * 1024) 55296) as [E|E];
    destruct (N.leb_spec 55296 u); destruct (N.ltb_spec u 56320); simpl; try reflexivity; lia.
Qed.

Lemma is_low_surrogate_spec (u : N) :
  (u < 65536)%N -> is_low_surrogate u = ((56320 <=? u) && (u <? 57344))%N.
Proof.
  intros Hu. unfold is_low_surrogate. rewrite land_high_mask by assumption.
  destruct (N.eqb_spec (u / 1024 * 1024) 56320) as [E|E];
    destruct (N.leb_spec 56320 u); destruct (N.ltb_spec u 57344); simpl; try reflexivity; lia.
Qed.

(** The two halves the encoder makes of a code point above the basic
    plane. *)
Lemma surrogate_halves (c : N) :
  (65536 <= c <= 1114111)%N ->
  let n := (c - 65536)%N in
  N.lor 55296 (N.land (N.shiftr n 10) 1023) = (55296 + n / 1024)%N
  /\ N.lor 56320 (N.land n 1023) = (56320 + n mod 1024)%N.
Proof.
  intros Hc n.
  change 1023%N with (N.ones 10). rewrite !N.land_ones, N.shiftr_div_pow2.
  change (2 ^ 10)%N with 1024%N.
  assert (Hn : (n < 1048576)%N) by (unfold n; lia).
  rewrite (N.mod_small (n / 1024)) by lia.
  change 55296%N with (N.shiftl 54 10). change 56320%N with (N.shiftl 55 10).
  rewrite !lor_shiftl_low by (change (2 ^ 10)%N with 1024%N; lia).
  split; reflexivity.
Qed.

Lemma join_surrogates_halves (c : N) :
  (65536 <= c <= 1114111)%N ->
  let n := (c - 65536)%N in
  join_surrogates (55296 + n / 1024) (56320 + n mod 1024) = c.
Proof.
  intros Hc n. unfold join_surrogates.
  replace (55296 + n / 1024 - 55296)%N with (n / 1024)%N by lia.
  replace (56320 + n mod 1024 - 56320)%N with (n mod 1024)%N by lia.
  rewrite lor_shiftl_low by (change (2 ^ 10)%N with 1024%N; lia).
  change (2 ^ 10)%N with 1024%N. unfold n. lia.
Qed.

(** ** Hexadecimal digits *)

Lemma hex_val_hex_char (d : N) : (d < 16)%N -> hex_val (hex_char d) = Some d.
Proof.
  intros Hd. unfold hex_char, hex_val.
  destruct (N.ltb_spec d 10).
  - rewrite N_ascii_embedding by lia.
    replace ((48 <=? 48 + d) && (48 + d <=? 57))%N with true
      by (symmetry; apply andb_true_intro; split; apply N.leb_le; lia).
    f_equal. lia.
  - rewrite N_ascii_embedding by lia.
    replace ((48 <=? 87 + d) && (87 + d <=? 57))%N with false
      by (symmetry; apply andb_false_intro2; apply N.leb_gt; lia).
    replace ((97 <=? 87 + d) && (87 + d <=? 102))%N with true
      by (symmetry; apply andb_true_intro; split; apply N.leb_le; lia).
    f_equal. lia.
Qed.

Lemma hex4_val_hex4 (u : N) :
  (u < 65536)%N ->
  exists a b c d, hex4 u = [a; b; c; d] /\ hex4_val a b c d = Some u.
Proof.
  intros Hu. unfold hex4. do 4 eexists. split; [reflexivity|].
  unfold hex4_val. rewrite !N.shiftr_div_pow2.
  change (2 ^ 12)%N with 4096%N. change (2 ^ 8)%N with 256%N. change (2 ^ 4)%N with 16%N.
  rewrite !hex_val_hex_char by (apply N.mod_lt; lia).
  f_equal. lia.
Qed.

(** ** Scanning one character *)

Lemma scanstring_quote (r : list ascii) : scanstring (dquote :: r) = Some ([], r).
Proof. reflexivity. Qed.

Lemma scanstring_raw (c : ascii) (r : list ascii) :
  N_of_ascii c <> 34%N -> N_of_ascii c <> 92%N -> (32 <= N_of_ascii c <= 127)%N ->
  scanstring (c :: r) = prepend (N_of_ascii c) (scanstring r).
Proof.
  intros H34 H92 Hrange. cbn [scanstring].
  apply N.eqb_neq in H34, H92. rewrite H34, H92.
  replace (N_of_ascii c <=? 31)%N with false by (symmetry; apply N.leb_gt; lia).
  replace (N_of_ascii c <=? 127)%N with true by (symmetry; apply N.leb_le; lia).
  reflexivity.
Qed.

Lemma scanstring_simple (e : ascii) (x : N) (r : list ascii) :
  N_of_ascii e <> 117%N -> simple_escape e = Some x ->
  scanstring ("\"%char :: e :: r) = prepend x (scanstring r).
Proof.
  intros Hu Hx. cbn [scanstring].
  change (N_of_ascii "\" =? 34)%N with false. change (N_of_ascii "\" =? 92)%N with true.
  cbn iota. apply N.eqb_neq in Hu. rewrite Hu, Hx. reflexivity.
Qed.

Lemma scanstring_u (h1 h2 h3 h4 : ascii) (u : N) (r : list ascii) :
  hex4_val h1 h2 h3 h4 = Some u -> is_high_surrogate u = false -> r <> [] ->
  scanstring ("\"%char :: "u"%char :: h1 :: h2 :: h3 :: h4 :: r)
  = prepend u (scanstring r).
Proof.
  intros Hhex Hhigh Hr. destruct r as [|x r]; [congruence|].
  cbn [scanstring].
  change (N_of_ascii "\" =? 34)%N with false. change (N_of_ascii "\" =? 92)%N with true.
  change (N_of_ascii "u" =? 117)%N with true.
  cbn iota. rewrite Hhex, Hhigh. reflexivity.
Qed.

Lemma scanstring_pair (h1 h2 h3 h4 l1 l2 l3 l4 : ascii) (hi lo : N) (r : list ascii) :
  hex4_val h1 h2 h3 h4 = Some hi -> is_high_surrogate hi = true ->
  hex4_val l1 l2 l3 l4 = Some lo -> is_low_surrogate lo = true -> r <> [] ->
  scanstring ("\"%char :: "u"%char :: h1 :: h2 :: h3 :: h4
              :: "\"%char :: "u"%char :: l1 :: l2 :: l3 :: l4 :: r)
  = prepend (join_surrogates hi lo) (scanstring r).
Proof.
  intros Hhi Hhigh Hlo Hlow Hr. destruct r as [|x r]; [congruence|].
  transitivity
    (match hex4_val h1 h2 h3 h4 with
     | Some u =>
         if is_high_surrogate u then
           match hex4_val l1 l2 l3 l4 with
           | Some lo' =>
               if is_low_surrogate lo'
               then prepend (join_surrogates u lo') (scanstring (x :: r))
               else prepend u (scanstring ("\"%char :: "u"%char :: l1 :: l2 :: l3 :: l4
                                           :: x :: r))
           | None => None
           end
         else prepend u (scanstring ("\"%char :: "u"%char :: l1 :: l2 :: l3 :: l4
                                     :: x :: r))
     | None => None
     end); [reflexivity|].
  rewrite Hhi, Hhigh, Hlo, Hlow. reflexivity.
Qed.

Lemma is_scalar_bound (c : N) :
  is_scalar c = true -> (c < 55296 \/ 57344 <= c <= 1114111)%N.
Proof.
  unfold is_scalar. intros E. apply orb_prop in E as [E|E].
  - left. now apply N.ltb_lt.
  - right. apply andb_prop in E as [E1 E2]. apply N.leb_le in E1, E2. lia.
Qed.

(** What the encoder writes for a character reads back as it. *)
Lemma scanstring_escape_char (c : N) (tail : list ascii) :
  is_scalar c = true -> tail <> [] ->
  scanstring (escape_char c ++ tail) = prepend c (scanstring tail).
Proof.
  intros Hc Htail. apply is_scalar_bound in Hc. unfold escape_char.
  destruct (N.eqb_spec c 34) as [->|H34];
    [apply (scanstring_simple dquote 34); [discriminate | reflexivity]|].
  destruct (N.eqb_spec c 92) as [->|H92];
    [apply (scanstring_simple "\"%char 92); [discriminate | reflexivity]|].
  destruct (N.eqb_spec c 8) as [->|H8];
    [apply (scanstring_simple "b"%char 8); [discriminate | reflexivity]|].
  destruct (N.eqb_spec c 12) as [->|H12];
    [apply (scanstring_simple "f"%char 12); [discriminate | reflexivity]|].
  destruct (N.eqb_spec c 10) as [->|H10];
    [apply (scanstring_simple "n"%char 10); [discriminate | reflexivity]|].
  destruct (N.eqb_spec c 13) as [->|H13];
    [apply (scanstring_simple "r"%char 13); [discriminate | reflexivity]|].
  destruct (N.eqb_spec c 9) as [->|H9];
    [apply (scanstring_simple "t"%char 9); [discriminate | reflexivity]|].
  destruct ((32 <=? c) && (c <=? 126))%N eqn:Hprint.
  - apply andb_prop in Hprint as [Hlo Hhi]. apply N.leb_le in Hlo, Hhi.
    cbn [app]. rewrite scanstring_raw; rewrite N_ascii_embedding by lia;
      try assumption; try reflexivity. lia.
  - destruct (N.ltb_spec c 65536) as [Hbmp|Hastral].
    + destruct (hex4_val_hex4 c Hbmp) as (h1 & h2 & h3 & h4 & Hhex & Hval).
      unfold u_escape. rewrite Hhex. cbn [app].
      apply scanstring_u; try assumption.
      rewrite is_high_surrogate_spec by assumption.
      destruct (N.leb_spec 55296 c); destruct (N.ltb_spec c 56320); simpl; try reflexivity; lia.
    + assert (Hr : (65536 <= c <= 1114111)%N) by lia.
      destruct (surrogate_halves c Hr) as [Hs1 Hs2]. cbv zeta in Hs1, Hs2.
      cbv zeta. rewrite Hs1, Hs2.
      set (n := (c - 65536)%N) in *.
      assert (Hn : (n < 1048576)%N) by (unfold n; lia).
      destruct (hex4_val_hex4 (55296 + n / 1024)) as (h1 & h2 & h3 & h4 & Hhex & Hval); [lia|].
      destruct (hex4_val_hex4 (56320 + n mod 1024)) as (l1 & l2 & l3 & l4 & Hhex' & Hval'); [lia|].
      unfold u_escape. rewrite Hhex, Hhex'. cbn [app].
      rewrite (scanstring_pair h1 h2 h3 h4 l1 l2 l3 l4 (55296 + n / 1024)
                 (56320 + n mod 1024) tail); try assumption.
      * unfold n. now rewrite join_surrogates_halves.
      * rewrite is_high_surrogate_spec by lia.
        apply andb_true_intro. split; [apply N.leb_le | apply N.ltb_lt]; lia.
      * rewrite is_low_surrogate_spec by lia.
        apply andb_true_intro. split; [apply N.leb_le | apply N.ltb_lt]; lia.
Qed.

(** A string written by the encoder reads back: from after the opening
    quote, the text and what follows the closing quote. *)
Lemma scanstring_encode (s : list N) (rest : list ascii) :
  forallb is_scalar s = true ->
  scanstring (flat_map escape_char s ++ dquote :: rest) = Some (s, rest).
Proof.
  induction s as [|c s IH]; intros Hs.
  - apply scanstring_quote.
  - cbn [forallb] in Hs. apply andb_prop in Hs as [Hc Hs].
    cbn [flat_map]. rewrite <- app_assoc.
    rewrite scanstring_escape_char; [| assumption |].
    + rewrite (IH Hs). reflexivity.
    + destruct (flat_map escape_char s); discriminate.
Qed.

Ltac Zify.zify_post_hook ::= idtac.

(** * The budget of the decoder *)

(** ** What the scanners consume *)

Lemma skip_ws_length (s : list ascii) : (length (skip_ws s) <= length s)%nat.
Proof.
  induction s as [|c s IH]; simpl; [lia|]. destruct (is_ws c); simpl; lia.
Qed.

Lemma span_digits_length (s ds r : list ascii) :
  span_digits s = (ds, r) -> (length r <= length s)%nat.
Proof.
  revert ds r. induction s as [|c s IH]; intros ds r E; simpl in E.
  - inversion E. simpl. lia.
  - destruct (is_digit c).
    + destruct (span_digits s) as [ds' r'] eqn:E'. inversion E; subst.
      specialize (IH _ _ eq_refl). simpl. lia.
    + inversion E. simpl. lia.
Qed.

Lemma match_literal_length (lit s r : list ascii) :
  match_literal lit s = Some r -> length s = (length lit + length r)%nat.
Proof.
  revert s. induction lit as [|a lit IH]; intros s E; simpl in E.
  - inversion E. reflexivity.
  - destruct s as [|b s]; [discriminate|]. destruct (Ascii.eqb a b); [|discriminate].
    simpl. rewrite (IH _ E). reflexivity.
Qed.

Ltac split_match H :=
  match type of H with
  | context [match ?x with _ => _ end] =>
      lazymatch x with
      | scanstring _ => fail
      | _ => destruct x eqn:?
      end
  end.

Lemma scanstring_length_aux (n : nat) :
  forall s t r, (length s <= n)%nat -> scanstring s = Some (t, r) ->
                (length r < length s)%nat.
Proof.
  induction n as [|n IH]; intros s t r Hlen E.
  - destruct s; [discriminate | simpl in Hlen; lia].
  - destruct s as [|c s]; [discriminate|].
    cbn [scanstring] in E.
    repeat split_match E; try discriminate;
      try (injection E as <- <-; simpl; lia);
      unfold prepend in E;
      match type of E with
      | context [scanstring ?x] =>
          destruct (scanstring x) as [[t' r']|] eqn:Hrec; [|discriminate];
          injection E as <- <-;
          apply IH in Hrec; simpl in *; lia
      end.
Qed.

Lemma scanstring_length (s : list ascii) (t : list N) (r : list ascii) :
  scanstring s = Some (t, r) -> (length r < length s)%nat.
Proof. apply (scanstring_length_aux (length s)). lia. Qed.

Lemma scan_int_part_length (s ids r : list ascii) :
  scan_int_part s = Some (ids, r) -> (length r < length s)%nat.
Proof.
  destruct s as [|c s]; [discriminate|]. simpl.
  destruct (N_of_ascii c =? 48)%N.
  - intros E; injection E as <- <-. lia.
  - destruct (is_digit c); [|discriminate].
    destruct (span_digits s) as [ds r'] eqn:E'. apply span_digits_length in E'.
    intros E; injection E as <- <-. lia.
Qed.

Lemma scan_frac_length (s fr r : list ascii) :
  scan_frac s = (fr, r) -> (length r <= length s)%nat.
Proof.
  destruct s as [|dot [|d s]]; simpl; try (intros E; injection E as <- <-; simpl; lia).
  destruct ((N_of_ascii dot =? 46)%N && is_digit d).
  - destruct (span_digits s) as [ds r'] eqn:E'. apply span_digits_length in E'.
    intros E; injection E as <- <-. lia.
  - intros E; injection E as <- <-. simpl. lia.
Qed.

Lemma scan_exp_length (s ex r : list ascii) :
  scan_exp s = (ex, r) -> (length r <= length s)%nat.
Proof.
  destruct s as [|e s]; simpl; [intros E; injection E as <- <-; simpl; lia|].
  destruct ((N_of_ascii e =? 101) || (N_of_ascii e =? 69))%N.
  - destruct (span_digits _) as [ds r'] eqn:E'. apply span_digits_length in E'.
    rewrite length_skipn in E'.
    destruct ds; intros E; injection E as <- <-; simpl; lia.
  - intros E; injection E as <- <-. simpl. lia.
Qed.

Lemma scan_number_length (s : list ascii) (v : json) (r : list ascii) :
  scan_number s = Some (v, r) -> (length r < length s)%nat.
Proof.
  unfold scan_number. intros E.
  assert (Htl : (length (if starts_with 45 s then tl s else s) <= length s)%nat).
  { destruct (starts_with 45 s); [destruct s; simpl; lia | lia]. }
  destruct (scan_int_part _) as [[ids r1]|] eqn:E1; [|discriminate].
  apply scan_int_part_length in E1.
  destruct (scan_frac r1) as [fr r2] eqn:E2. apply scan_frac_length in E2.
  destruct (scan_exp r2) as [ex r3] eqn:E3. apply scan_exp_length in E3.
  destruct fr, ex; injection E as <- <-; lia.
Qed.

(** ** The step budget *)

Lemma starts_with_tl (n : N) (s : list ascii) :
  starts_with n s = true -> (length (tl s) < length s)%nat.
Proof. destruct s; simpl; [discriminate | lia]. Qed.

(** Case analysis on the outermost test of a scanner's body. *)
Ltac head_case :=
  lazymatch goal with
  | |- match ?e with _ => _ end = _ -> _ => destruct e eqn:?
  end.

Ltac note_skip_ws :=
  repeat match goal with
         | H : context [skip_ws ?x] |- _ =>
             lazymatch goal with
             | _ : (length (skip_ws x) <= length x)%nat |- _ => fail
             | _ => pose proof (skip_ws_length x)
             end
         end.

Ltac note_lengths :=
  repeat match goal with
         | H : scanstring _ = Some _ |- _ => apply scanstring_length in H
         | H : scan_number _ = Some _ |- _ => apply scan_number_length in H
         | H : match_literal _ _ = Some _ |- _ => apply match_literal_length in H
         | H : starts_with _ _ = true |- _ => apply starts_with_tl in H
         | H : skip_ws ?x = _ :: _ |- _ => apply (f_equal (@length ascii)) in H
         end.

Section Steps.
Variable once : list ascii -> scanned json.
Variable array : list ascii -> scanned (list json).
Variable object : list ascii -> scanned (list (list N * json)).

Lemma scan_step_consumes :
  consumes array -> consumes object -> consumes (scan_step array object).
Proof.
  intros Ha Ho s v r. unfold scan_step. cbv zeta.
  repeat head_case; intros E; try discriminate; injection E as <- <-;
    repeat match goal with
           | H : object _ = Scanned _ _ |- _ => apply Ho in H
           | H : array _ = Scanned _ _ |- _ => apply Ha in H
           end;
    note_skip_ws; note_lengths; simpl in *; lia.
Qed.

Lemma array_step_consumes :
  consumes once -> consumes array -> consumes (array_step once array).
Proof.
  intros Hv Ha s v r. unfold array_step.
  repeat head_case; intros E; try discriminate; injection E as <- <-;
    repeat match goal with
           | H : once _ = Scanned _ _ |- _ => apply Hv in H
           | H : array _ = Scanned _ _ |- _ => apply Ha in H
           end;
    note_skip_ws; note_lengths; simpl in *; lia.
Qed.

Lemma object_step_consumes :
  consumes once -> consumes object -> consumes (object_step once object).
Proof.
  intros Hv Ho s v r. unfold object_step.
  repeat head_case; intros E; try discriminate; injection E as <- <-;
    repeat match goal with
           | H : once _ = Scanned _ _ |- _ => apply Hv in H
           | H : object _ = Scanned _ _ |- _ => apply Ho in H
           end;
    note_skip_ws; note_lengths; simpl in *; lia.
Qed.

(** A step runs out of budget only where a scanner it calls does. *)
Lemma scan_step_budget (s : list ascii) :
  (forall s', (length s' < length s)%nat -> array s' <> OutOfFuel) ->
  (forall s', (length s' < length s)%nat -> object s' <> OutOfFuel) ->
  scan_step array object s <> OutOfFuel.
Proof.
  intros Ha Ho. unfold scan_step. cbv zeta. unfold not.
  repeat head_case; intros E; try discriminate;
    match goal with
    | H : object ?x = OutOfFuel |- _ => apply (Ho x); [|exact H]
    | H : array ?x = OutOfFuel |- _ => apply (Ha x); [|exact H]
    end;
    note_skip_ws; note_lengths; simpl in *; lia.
Qed.

Lemma array_step_budget (s : list ascii) :
  consumes once ->
  (forall s', (length s' <= length s)%nat -> once s' <> OutOfFuel) ->
  (forall s', (length s' < length s)%nat -> array s' <> OutOfFuel) ->
  array_step once array s <> OutOfFuel.
Proof.
  intros Hc Hv Ha. unfold array_step. unfold not.
  repeat head_case; intros E; try discriminate;
    repeat match goal with
           | H : once _ = Scanned _ _ |- _ => apply Hc in H
           end;
    match goal with
    | H : once ?x = OutOfFuel |- _ => apply (Hv x); [|exact H]
    | H : array ?x = OutOfFuel |- _ => apply (Ha x); [|exact H]
    end;
    note_skip_ws; note_lengths; simpl in *; lia.
Qed.

Lemma object_step_budget (s : list ascii) :
  consumes once ->
  (forall s', (length s' < length s)%nat -> once s' <> OutOfFuel) ->
  (forall s', (length s' < length s)%nat -> object s' <> OutOfFuel) ->
  object_step once object s <> OutOfFuel.
Proof.
  intros Hc Hv Ho. unfold object_step. unfold not.
  repeat head_case; intros E; try discriminate;
    repeat match goal with
           | H : once _ = Scanned _ _ |- _ => apply Hc in H
           end;
    match goal with
    | H : once ?x = OutOfFuel |- _ => apply (Hv x); [|exact H]
    | H : object ?x = OutOfFuel |- _ => apply (Ho x); [|exact H]
    end;
    note_skip_ws; note_lengths; simpl in *; lia.
Qed.
End Steps.

Ltac use_extends :=
  repeat match goal with
         | H : extends ?f ?g |- context [?g ?x] =>
             let E := fresh "Hcall" in
             destruct (f x) eqn:E;
             [ rewrite (H x) by (rewrite E; discriminate); rewrite ?E
             | rewrite (H x) by (rewrite E; discriminate); rewrite ?E
             | ]
         end.

Section StepsExtend.
Variables once once' : list ascii -> scanned json.
Variables array array' : list ascii -> scanned (list json).
Variables object object' : list ascii -> scanned (list (list N * json)).
Hypothesis Hv : extends once once'.
Hypothesis Ha : extends array array'.
Hypothesis Ho : extends object object'.

Lemma scan_step_extends : extends (scan_step array object) (scan_step array' object').
Proof.
  intros s. unfold scan_step. cbv zeta.
  destruct s as [|c r]; [reflexivity|].
  repeat match goal with
         | |- context [if ?b then _ else _] =>
             lazymatch b with
             | context [array] => fail
             | context [object] => fail
             | _ => destruct b
             end
         end; try reflexivity; intros Hne.
  - destruct (object (skip_ws r)) eqn:E; [| |congruence];
      rewrite (Ho (skip_ws r)) by (rewrite E; discriminate); now rewrite E.
  - destruct (array (skip_ws r)) eqn:E; [| |congruence];
      rewrite (Ha (skip_ws r)) by (rewrite E; discriminate); now rewrite E.
Qed.

Lemma array_step_extends : extends (array_step once array) (array_step once' array').
Proof.
  intros s. unfold array_step. intros Hne.
  destruct (once s) as [v r| |] eqn:E; [| |congruence];
    rewrite (Hv s) by (rewrite E; discriminate); rewrite E; [|reflexivity].
  destruct (skip_ws r) as [|c r']; [reflexivity|].
  destruct (N_of_ascii c =? 93)%N; [reflexivity|].
  destruct (N_of_ascii c =? 44)%N; [|reflexivity].
  destruct (array (skip_ws r')) eqn:E'; [| |congruence];
    rewrite (Ha (skip_ws r')) by (rewrite E'; discriminate); now rewrite E'.
Qed.

Lemma object_step_extends : extends (object_step once object) (object_step once' object').
Proof.
  intros s. unfold object_step. intros Hne.
  destruct s as [|q r]; [reflexivity|].
  destruct (N_of_ascii q =? 34)%N; [|reflexivity].
  destruct (scanstring r) as [[k r1]|]; [|reflexivity].
  destruct (skip_ws r1) as [|colon r2]; [reflexivity|].
  destruct (N_of_ascii colon =? 58)%N; [|reflexivity].
  destruct (once (skip_ws r2)) as [v r3| |] eqn:E; [| |congruence];
    rewrite (Hv (skip_ws r2)) by (rewrite E; discriminate); rewrite E; [|reflexivity].
  destruct (skip_ws r3) as [|c r4]; [reflexivity|].
  destruct (N_of_ascii c =? 125)%N; [reflexivity|].
  destruct (N_of_ascii c =? 44)%N; [|reflexivity].
  destruct (object (skip_ws r4)) eqn:E'; [| |congruence];
    rewrite (Ho (skip_ws r4)) by (rewrite E'; discriminate); now rewrite E'.
Qed.
End StepsExtend.

Lemma scan_consumes (fuel : nat) :
  consumes (scan_once fuel) /\ consumes (parse_array fuel) /\ consumes (parse_object fuel).
Proof.
  induction fuel as [|fuel (IHv & IHa & IHo)].
  - repeat split; intros s a r E; discriminate.
  - repeat split; cbn [scan_once parse_array parse_object].
    + now apply scan_step_consumes.
    + now apply array_step_consumes.
    + now apply object_step_consumes.
Qed.

(** A budget above twice the length of the input is never used up. *)
Lemma scan_budget (fuel : nat) :
  (forall s, (2 * length s < fuel)%nat -> scan_once fuel s <> OutOfFuel)
  /\ (forall s, (2 * length s + 1 < fuel)%nat -> parse_array fuel s <> OutOfFuel)
  /\ (forall s, (2 * length s + 1 < fuel)%nat -> parse_object fuel s <> OutOfFuel).
Proof.
  induction fuel as [|fuel (IHv & IHa & IHo)].
  - repeat split; intros s Hs; lia.
  - destruct (scan_consumes fuel) as (Cv & _ & _).
    repeat split; intros s Hs; cbn [scan_once parse_array parse_object].
    + apply scan_step_budget; intros s' Hs'; [apply IHa | apply IHo]; lia.
    + apply array_step_budget; [assumption | |]; intros s' Hs'; [apply IHv | apply IHa]; lia.
    + apply object_step_budget; [assumption | |]; intros s' Hs'; [apply IHv | apply IHo]; lia.
Qed.

Lemma scan_extends_succ (fuel : nat) :
  extends (scan_once fuel) (scan_once (S fuel))
  /\ extends (parse_array fuel) (parse_array (S fuel))
  /\ extends (parse_object fuel) (parse_object (S fuel)).
Proof.
  induction fuel as [|fuel (IHv & IHa & IHo)].
  - repeat split; intros s Hs; exfalso; apply Hs; reflexivity.
  - repeat split.
    + apply (scan_step_extends _ _ _ _ IHa IHo).
    + apply (array_step_extends _ _ _ _ IHv IHa).
    + apply (object_step_extends _ _ _ _ IHv IHo).
Qed.

(** More budget does not change what a scanner with enough finds. *)
Lemma scan_once_more (fuel extra : nat) (s : list ascii) :
  scan_once fuel s <> OutOfFuel -> scan_once (extra + fuel) s = scan_once fuel s.
Proof.
  intros Hne. induction extra as [|extra IH]; [reflexivity|].
  cbn [Nat.add]. destruct (scan_extends_succ (extra + fuel)) as (Hv & _ & _).
  rewrite Hv; rewrite IH; auto.
Qed.

Lemma parse_array_more (fuel extra : nat) (s : list ascii) :
  parse_array fuel s <> OutOfFuel -> parse_array (extra + fuel) s = parse_array fuel s.
Proof.
  intros Hne. induction extra as [|extra IH]; [reflexivity|].
  cbn [Nat.add]. destruct (scan_extends_succ (extra + fuel)) as (_ & Ha & _).
  rewrite Ha; rewrite IH; auto.
Qed.

Lemma parse_object_more (fuel extra : nat) (s : list ascii) :
  parse_object fuel s <> OutOfFuel -> parse_object (extra + fuel) s = parse_object fuel s.
Proof.
  intros Hne. induction extra as [|extra IH]; [reflexivity|].
  cbn [Nat.add]. destruct (scan_extends_succ (extra + fuel)) as (_ & _ & Ho).
  rewrite Ho; rewrite IH; auto.
Qed.

(** [json_loads] is given enough budget: with any larger one the scan
    finds the same. *)
Lemma scan_once_fuel (s : list ascii) (fuel : nat) :
  (2 * length s < fuel)%nat ->
  scan_once fuel s = scan_once (S (2 * length s)) s
  /\ scan_once fuel s <> OutOfFuel.
Proof.
  intros Hf.
  assert (Hne : scan_once (S (2 * length s)) s <> OutOfFuel)
    by (apply scan_budget; lia).
  replace fuel with ((fuel - S (2 * length s)) + S (2 * length s))%nat by lia.
  rewrite scan_once_more by assumption. auto.
Qed.

(** * Reading back what the encoder wrote *)

(** ** Induction on snapshots *)

Lemma json_induction (P : json -> Prop) :
  P JNull ->
  (forall b, P (JBool b)) ->
  (forall n, P (JInt n)) ->
  (forall lit, P (JFloat lit)) ->
  (forall s, P (JStr s)) ->
  (forall items, Forall P items -> P (JArr items)) ->
  (forall members, Forall (fun kv => P kv.2) members -> P (JObj members)) ->
  forall v, P v.
Proof.
  intros Hnull Hbool Hint Hfloat Hstr Harr Hobj.
  fix IH 1. intros [| b | n | lit | s | items | members].
  - exact Hnull.
  - apply Hbool.
  - apply Hint.
  - apply Hfloat.
  - apply Hstr.
  - apply Harr. induction items as [|x items IHitems]; constructor; [apply IH | exact IHitems].
  - apply Hobj. induction members as [|[k x] members IHm]; constructor;
      [apply IH | exact IHm].
Qed.

(** ** Whitespace *)

Lemma skip_ws_stop (c : ascii) (s : list ascii) :
  is_ws c = false -> skip_ws (c :: s) = c :: s.
Proof. intros E. simpl. now rewrite E. Qed.

Lemma skip_ws_spaces (n : nat) (s : list ascii) :
  skip_ws (repeat " "%char n ++ s) = skip_ws s.
Proof. induction n as [|n IH]; [reflexivity | exact IH]. Qed.

Lemma skip_ws_newline_indent (level : nat) (s : list ascii) :
  skip_ws (newline_indent level ++ s) = skip_ws s.
Proof. unfold newline_indent. cbn [app skip_ws]. apply skip_ws_spaces. Qed.

(** ** How a written value starts *)

Lemma opens_value_app (s rest : list ascii) :
  opens_value s -> opens_value (s ++ rest).
Proof.
  intros (c & t & -> & H). exists c, (t ++ rest). split; [reflexivity | exact H].
Qed.

Lemma skip_ws_opens (s : list ascii) : opens_value s -> skip_ws s = s.
Proof. intros (c & t & -> & Hws & _). now apply skip_ws_stop. Qed.

Lemma starts_with_opens (s : list ascii) :
  opens_value s -> starts_with 93 s = false /\ starts_with 125 s = false.
Proof.
  intros (c & t & -> & _ & H93 & H125). simpl. split; now apply N.eqb_neq.
Qed.

Lemma is_digit_range (c : ascii) :
  is_digit c = true -> (48 <= N_of_ascii c <= 57)%N.
Proof.
  unfold is_digit. intros E. apply andb_prop in E as [E1 E2].
  apply N.leb_le in E1, E2. lia.
Qed.

Lemma is_ws_code (c : ascii) :
  N_of_ascii c <> 32%N -> N_of_ascii c <> 9%N -> N_of_ascii c <> 10%N ->
  N_of_ascii c <> 13%N -> is_ws c = false.
Proof.
  intros H1 H2 H3 H4. unfold is_ws.
  apply N.eqb_neq in H1, H2, H3, H4. now rewrite H1, H2, H3, H4.
Qed.

Lemma opens_digit (c : ascii) (t : list ascii) :
  is_digit c = true -> opens_value (c :: t).
Proof.
  intros Hd. apply is_digit_range in Hd. exists c, t.
  repeat split; try lia. apply is_ws_code; lia.
Qed.

Lemma opens_char (c : ascii) (t : list ascii) :
  is_ws c = false -> N_of_ascii c <> 93%N -> N_of_ascii c <> 125%N ->
  opens_value (c :: t).
Proof. intros. exists c, t. auto. Qed.

Lemma digits_of_N_head (n : N) :
  exists d ds, digits_of_N n = d :: ds /\ is_digit d = true.
Proof.
  destruct (N.eq_dec n 0%N) as [->|Hn].
  - exists "0"%char, []. split; reflexivity.
  - destruct (digits_of_N_pos n) as (d & ds & Hd & Hdig & _); [lia|]. eauto.
Qed.

Lemma opens_repr_int (z : Z) : opens_value (repr_int z).
Proof.
  destruct z as [|p|p]; cbn [repr_int].
  - destruct (digits_of_N_head 0) as (d & ds & -> & Hd). now apply opens_digit.
  - destruct (digits_of_N_head (Npos p)) as (d & ds & -> & Hd). now apply opens_digit.
  - apply opens_char; [reflexivity | discriminate | discriminate].
Qed.

Lemma opens_encode (level : nat) (v : json) :
  wf_json v = true -> opens_value (encode level v).
Proof.
  destruct v as [| [|] | n | lit | s | [|x items] | [|kv members]]; cbn [wf_json encode];
    intros Hwf; try discriminate;
    try (apply opens_char; [reflexivity | discriminate | discriminate]).
  apply opens_repr_int.
Qed.

(** ** Scanning what was written: the values without items *)

Lemma ascii_eqb_code (a b : ascii) :
  N_of_ascii a <> N_of_ascii b -> Ascii.eqb a b = false.
Proof. intros Hne. apply Ascii.eqb_neq. intros ->. now apply Hne. Qed.

Section Leaves.
Variable array : list ascii -> scanned (list json).
Variable object : list ascii -> scanned (list (list N * json)).

Lemma scan_step_digit (c : ascii) (t : list ascii) :
  is_digit c = true ->
  scan_step array object (c :: t)
  = match scan_number (c :: t) with
    | Some (v, r) => Scanned v r
    | None => Malformed
    end.
Proof.
  intros Hd. apply is_digit_range in Hd. unfold scan_step. cbv zeta.
  replace (N_of_ascii c =? 34)%N with false by (symmetry; apply N.eqb_neq; lia).
  replace (N_of_ascii c =? 123)%N with false by (symmetry; apply N.eqb_neq; lia).
  replace (N_of_ascii c =? 91)%N with false by (symmetry; apply N.eqb_neq; lia).
  cbn [match_literal chars list_ascii_of_string].
  rewrite !ascii_eqb_code by (cbn; lia). reflexivity.
Qed.

Lemma scan_step_minus (d : ascii) (t : list ascii) :
  is_digit d = true ->
  scan_step array object ("-"%char :: d :: t)
  = match scan_number ("-"%char :: d :: t) with
    | Some (v, r) => Scanned v r
    | None => Malformed
    end.
Proof.
  intros Hd. apply is_digit_range in Hd. unfold scan_step. cbv zeta.
  change (N_of_ascii "-" =? 34)%N with false.
  change (N_of_ascii "-" =? 123)%N with false.
  change (N_of_ascii "-" =? 91)%N with false.
  cbn [match_literal chars list_ascii_of_string].
  change (Ascii.eqb "n" "-") with false. change (Ascii.eqb "t" "-") with false.
  change (Ascii.eqb "f" "-") with false. change (Ascii.eqb "N" "-") with false.
  change (Ascii.eqb "I" "-") with false. change (Ascii.eqb "-" "-") with true.
  cbv iota.
  rewrite !ascii_eqb_code by (cbn; lia). reflexivity.
Qed.

Lemma scan_step_int (z : Z) (rest : list ascii) :
  ends_number rest = true ->
  scan_step array object (repr_int z ++ rest) = Scanned (JInt z) rest.
Proof.
  intros Hrest. pose proof (scan_number_int z rest Hrest) as Hnum.
  destruct z as [|p|p]; cbn [repr_int] in *.
  - destruct (digits_of_N_head 0) as (d & ds & Hds & Hd). rewrite Hds in *.
    cbn [app] in *. rewrite scan_step_digit by assumption. now rewrite Hnum.
  - destruct (digits_of_N_head (Npos p)) as (d & ds & Hds & Hd). rewrite Hds in *.
    cbn [app] in *. rewrite scan_step_digit by assumption. now rewrite Hnum.
  - destruct (digits_of_N_head (Npos p)) as (d & ds & Hds & Hd). rewrite Hds in *.
    cbn [app] in *. rewrite scan_step_minus by assumption. now rewrite Hnum.
Qed.

Lemma scan_step_string (s : list N) (rest : list ascii) :
  forallb is_scalar s = true ->
  scan_step array object (encode_string s ++ rest) = Scanned (JStr s) rest.
Proof.
  intros Hs. unfold encode_string, scan_step. cbn [app]. cbv zeta.
  change (N_of_ascii dquote =? 34)%N with true. cbv iota.
  rewrite <- app_assoc. cbn [app]. now rewrite scanstring_encode.
Qed.

Lemma scan_step_leaf (level : nat) (v : json) (rest : list ascii) :
  match v with
  | JArr (_ :: _) | JObj (_ :: _) => false
  | _ => wf_json v
  end = true ->
  ends_number rest = true ->
  scan_step array object (encode level v ++ rest) = Scanned v rest.
Proof.
  intros Hv Hrest.
  destruct v as [| [|] | n | lit | s | [|x items] | [|kv members]]; try discriminate;
    cbn [encode wf_json] in *; try reflexivity.
  - now apply scan_step_int.
  - now apply scan_step_string.
Qed.
End Leaves.

(** ** Scanning with any budget from some point on *)

Lemma scans_once_leaf (level : nat) (v : json) (rest : list ascii) :
  match v with
  | JArr (_ :: _) | JObj (_ :: _) => false
  | _ => wf_json v
  end = true ->
  ends_number rest = true ->
  scans scan_once (encode level v ++ rest) v rest.
Proof.
  intros Hv Hrest. exists 1%nat. intros [|f] Hf; [lia|].
  cbn [scan_once]. now apply scan_step_leaf.
Qed.

(** ** Scanning what was written: arrays and objects *)

Lemma ends_number_newline_indent (level : nat) (s : list ascii) :
  ends_number (newline_indent level ++ s) = true.
Proof. reflexivity. Qed.

Lemma skip_ws_separator (level : nat) (s : list ascii) :
  opens_value s ->
  skip_ws (" "%char :: newline_indent level ++ s) = s.
Proof.
  intros Hs. cbn [skip_ws]. change (is_ws " ") with true. cbv iota.
  rewrite skip_ws_newline_indent. now apply skip_ws_opens.
Qed.

Lemma skip_ws_close (level : nat) (c : ascii) (s : list ascii) :
  is_ws c = false -> skip_ws (newline_indent level ++ c :: s) = c :: s.
Proof. intros Hc. rewrite skip_ws_newline_indent. now apply skip_ws_stop. Qed.

Lemma opens_join (sep : list ascii) (parts : list (list ascii)) (rest : list ascii) :
  parts <> [] -> Forall opens_value parts -> opens_value (join sep parts ++ rest).
Proof.
  intros Hne Hall. destruct parts as [|p ps]; [congruence|].
  inversion Hall as [|? ? Hp _]; subst.
  destruct ps as [|q qs]; cbn [join].
  - now apply opens_value_app.
  - rewrite <- app_assoc. now apply opens_value_app.
Qed.

Lemma parse_array_items (items : list json) (level : nat) (rest : list ascii) :
  items <> [] ->
  Forall (fun x => wf_json x = true /\ reads x) items ->
  scans parse_array
    (join (item_separator ++ newline_indent (S level)) (map (encode (S level)) items)
     ++ newline_indent level ++ "]"%char :: rest)
    (map canon items) rest.
Proof.
  intros Hne Hall. induction items as [|x items IH]; [congruence|].
  inversion Hall as [|? ? [Hwf Hx] Hrest]; subst. clear Hall Hne.
  destruct items as [|y ys].
  - cbn [map join].
    destruct (Hx (S level) (newline_indent level ++ "]"%char :: rest)
                 (ends_number_newline_indent _ _)) as (f1 & H1).
    exists (S f1). intros [|f] Hf; [lia|].
    cbn [parse_array]. unfold array_step. rewrite H1 by lia.
    rewrite skip_ws_close by reflexivity. reflexivity.
  - destruct (IH ltac:(discriminate) Hrest) as (f2 & H2).
    set (tail := join (item_separator ++ newline_indent (S level))
                      (map (encode (S level)) (y :: ys))
                 ++ newline_indent level ++ "]"%char :: rest) in *.
    assert (Htail : opens_value tail).
    { apply opens_join; [discriminate|].
      apply Forall_map. eapply Forall_impl; [exact Hrest|].
      intros z [Hz _]. now apply opens_encode. }
    destruct (Hx (S level) (","%char :: " "%char :: newline_indent (S level) ++ tail)
                 eq_refl) as (f1 & H1).
    exists (S (Nat.max f1 f2)). intros [|f] Hf; [lia|].
    cbn [parse_array]. unfold array_step.
    replace (join (item_separator ++ newline_indent (S level))
               (map (encode (S level)) (x :: y :: ys))
             ++ newline_indent level ++ "]"%char :: rest)
      with (encode (S level) x
            ++ ","%char :: " "%char :: newline_indent (S level) ++ tail).
    2:{ unfold tail. cbn [map join]. unfold item_separator.
        cbn [chars list_ascii_of_string]. rewrite <- !app_assoc. reflexivity. }
    rewrite H1 by lia. rewrite skip_ws_stop by reflexivity.
    change (N_of_ascii "," =? 93)%N with false. change (N_of_ascii "," =? 44)%N with true.
    cbv iota. rewrite skip_ws_separator by assumption.
    rewrite H2 by lia. reflexivity.
Qed.

Lemma opens_member_text (level : nat) (kv : list N * json) :
  opens_value (member_text level kv).
Proof.
  unfold member_text, encode_string. cbn [app].
  apply opens_char; [reflexivity | discriminate | discriminate].
Qed.

Lemma parse_object_members (members : list (list N * json)) (level : nat)
    (rest : list ascii) :
  members <> [] ->
  Forall (fun kv => forallb is_scalar kv.1 = true /\ wf_json kv.2 = true /\ reads kv.2)
         members ->
  scans parse_object
    (join (item_separator ++ newline_indent (S level)) (map (member_text level) members)
     ++ newline_indent level ++ "}"%char :: rest)
    (map (fun kv => (kv.1, canon kv.2)) members) rest.
Proof.
  intros Hne Hall. induction members as [|[k x] members IH]; [congruence|].
  inversion Hall as [|? ? (Hk & Hwf & Hx) Hrest]; subst. clear Hall Hne.
  cbn [fst snd] in *.
  assert (Hkey : forall f a tail,
             object_step (scan_once f) a (member_text level (k, x) ++ tail)
             = match scan_once f (encode (S level) x ++ tail) with
               | Scanned v r3 =>
                   match skip_ws r3 with
                   | c :: r4 =>
                       if (N_of_ascii c =? 125)%N then Scanned [(k, v)] r4
                       else if (N_of_ascii c =? 44)%N then
                              match a (skip_ws r4) with
                              | Scanned ms r5 => Scanned ((k, v) :: ms) r5
                              | Malformed => Malformed
                              | OutOfFuel => OutOfFuel
                              end
                            else Malformed
                   | [] => Malformed
                   end
               | Malformed => Malformed
               | OutOfFuel => OutOfFuel
               end).
  { intros f a tail. unfold member_text, encode_string, object_step, key_separator.
    cbn [fst snd app chars list_ascii_of_string].
    change (N_of_ascii dquote =? 34)%N with true. cbv iota.
    rewrite <- !app_assoc. cbn [app]. rewrite scanstring_encode by assumption.
    rewrite skip_ws_stop by reflexivity.
    change (N_of_ascii ":" =? 58)%N with true. cbv iota.
    cbn [skip_ws]. change (is_ws " ") with true. cbv iota.
    rewrite skip_ws_opens; [reflexivity|].
    apply opens_value_app. now apply opens_encode. }
  destruct members as [|kv' ms].
  - cbn [map join].
    destruct (Hx (S level) (newline_indent level ++ "}"%char :: rest)
                 (ends_number_newline_indent _ _)) as (f1 & H1).
    exists (S f1). intros [|f] Hf; [lia|].
    cbn [parse_object]. rewrite Hkey, H1 by lia.
    rewrite skip_ws_close by reflexivity. reflexivity.
  - destruct (IH ltac:(discriminate) Hrest) as (f2 & H2).
    set (tail := join (item_separator ++ newline_indent (S level))
                      (map (member_text level) (kv' :: ms))
                 ++ newline_indent level ++ "}"%char :: rest) in *.
    assert (Htail : opens_value tail).
    { apply opens_join; [discriminate|].
      apply Forall_map. apply Forall_forall. intros z _. apply opens_member_text. }
    destruct (Hx (S level) (","%char :: " "%char :: newline_indent (S level) ++ tail)
                 eq_refl) as (f1 & H1).
    exists (S (Nat.max f1 f2)). intros [|f] Hf; [lia|].
    cbn [parse_object].
    replace (join (item_separator ++ newline_indent (S level))
               (map (member_text level) ((k, x) :: kv' :: ms))
             ++ newline_indent level ++ "}"%char :: rest)
      with (member_text level (k, x)
            ++ ","%char :: " "%char :: newline_indent (S level) ++ tail).
    2:{ unfold tail. cbn [map join]. unfold item_separator.
        cbn [chars list_ascii_of_string]. rewrite <- !app_assoc. reflexivity. }
    rewrite Hkey, H1 by lia. rewrite skip_ws_stop by reflexivity.
    change (N_of_ascii "," =? 125)%N with false. change (N_of_ascii "," =? 44)%N with true.
    cbv iota. rewrite skip_ws_separator by assumption.
    rewrite H2 by lia. reflexivity.
Qed.

(** ** Sorting the items of a dict *)

Section Sorting.
Context {A : Type}.
Implicit Types (x : list N * A) (l : list (list N * A)).

Lemma insert_item_perm x l : Permutation (insert_item x l) (x :: l).
Proof.
  induction l as [|y l IH]; cbn [insert_item]; [reflexivity|].
  destruct (text_leb x.1 y.1); [reflexivity|].
  rewrite IH. apply perm_swap.
Qed.

Lemma sort_items_perm l : Permutation (sort_items l) l.
Proof.
  induction l as [|x l IH]; [reflexivity|].
  cbn [sort_items foldr]. fold (sort_items l).
  rewrite insert_item_perm. now constructor.
Qed.

Lemma sort_items_nil l : sort_items l = [] -> l = [].
Proof.
  intros E. apply Permutation_nil. rewrite <- E at 1. apply sort_items_perm.
Qed.
End Sorting.

Lemma insert_item_map {A C} (f : A -> C) (x : list N * A) (l : list (list N * A)) :
  insert_item (x.1, f x.2) (map (fun kv => (kv.1, f kv.2)) l)
  = map (fun kv => (kv.1, f kv.2)) (insert_item x l).
Proof.
  induction l as [|y l IH]; [reflexivity|].
  cbn [map insert_item fst]. destruct (text_leb x.1 y.1); [reflexivity|].
  cbn [map]. now rewrite IH.
Qed.

Lemma sort_items_map {A C} (f : A -> C) (l : list (list N * A)) :
  sort_items (map (fun kv => (kv.1, f kv.2)) l)
  = map (fun kv => (kv.1, f kv.2)) (sort_items l).
Proof.
  induction l as [|x l IH]; [reflexivity|].
  cbn [map sort_items foldr]. fold (sort_items l).
  fold (sort_items (map (fun kv => (kv.1, f kv.2)) l)).
  rewrite IH. apply insert_item_map.
Qed.

(** ** The dict built from pairs with distinct keys *)

Lemma dict_set_fresh (k : list N) (v : json) (d : list (list N * json)) :
  k ∉ map fst d -> dict_set k v d = d ++ [(k, v)].
Proof.
  induction d as [|[k' v'] d IH]; intros Hk; [reflexivity|].
  cbn [dict_set map fst] in *. apply not_elem_of_cons in Hk as [Hne Hk].
  rewrite bool_decide_eq_false_2 by assumption. cbn [app]. now rewrite IH.
Qed.

Lemma dict_of_pairs_app (acc pairs : list (list N * json)) :
  NoDup (map fst (acc ++ pairs)) ->
  fold_left (fun d kv => dict_set kv.1 kv.2 d) pairs acc = acc ++ pairs.
Proof.
  revert acc. induction pairs as [|[k v] pairs IH]; intros acc Hnd.
  - now rewrite app_nil_r.
  - cbn [fold_left fst snd].
    assert (Hk : k ∉ map fst acc).
    { rewrite map_app in Hnd. cbn [map fst] in Hnd.
      apply NoDup_app in Hnd as (_ & Hdisj & _).
      intros Hin. apply (Hdisj k Hin). constructor. }
    rewrite dict_set_fresh by assumption.
    rewrite IH; rewrite <- app_assoc; [reflexivity | exact Hnd].
Qed.

Lemma dict_of_pairs_nodup (pairs : list (list N * json)) :
  NoDup (map fst pairs) -> dict_of_pairs pairs = pairs.
Proof. intros Hnd. unfold dict_of_pairs. now rewrite dict_of_pairs_app. Qed.

(** ** A written snapshot reads back *)

Lemma scan_step_array (array : list ascii -> scanned (list json))
    (object : list ascii -> scanned (list (list N * json)))
    (level : nat) (r : list ascii) :
  opens_value r ->
  scan_step array object ("["%char :: newline_indent level ++ r)
  = match array r with
    | Scanned vs r' => Scanned (JArr vs) r'
    | Malformed => Malformed
    | OutOfFuel => OutOfFuel
    end.
Proof.
  intros Hr. unfold scan_step. cbv zeta.
  change (N_of_ascii "[" =? 34)%N with false. change (N_of_ascii "[" =? 123)%N with false.
  change (N_of_ascii "[" =? 91)%N with true. cbv iota.
  rewrite skip_ws_newline_indent, skip_ws_opens by assumption.
  destruct (starts_with_opens r Hr) as [-> _]. reflexivity.
Qed.

Lemma scan_step_object (array : list ascii -> scanned (list json))
    (object : list ascii -> scanned (list (list N * json)))
    (level : nat) (r : list ascii) :
  opens_value r ->
  scan_step array object ("{"%char :: newline_indent level ++ r)
  = match object r with
    | Scanned ms r' => Scanned (JObj (dict_of_pairs ms)) r'
    | Malformed => Malformed
    | OutOfFuel => OutOfFuel
    end.
Proof.
  intros Hr. unfold scan_step. cbv zeta.
  change (N_of_ascii "{" =? 34)%N with false. change (N_of_ascii "{" =? 123)%N with true.
  cbv iota. rewrite skip_ws_newline_indent, skip_ws_opens by assumption.
  destruct (starts_with_opens r Hr) as [_ ->]. reflexivity.
Qed.

Lemma forallb_Forall {A} (f : A -> bool) (l : list A) :
  forallb f l = true -> Forall (fun x => f x = true) l.
Proof.
  induction l as [|x l IH]; cbn [forallb]; intros E; constructor;
    apply andb_prop in E as [E1 E2]; auto.
Qed.

Lemma Forall_and {A} (P Q : A -> Prop) (l : list A) :
  Forall P l -> Forall (fun x => P x -> Q x) l -> Forall (fun x => P x /\ Q x) l.
Proof.
  induction 1 as [|x l HP HPl IH]; intros HQ; constructor;
    inversion HQ; subst; auto.
Qed.

Lemma wf_json_array (items : list json) :
  wf_json (JArr items) = true -> Forall (fun x => wf_json x = true) items.
Proof. cbn [wf_json]. apply forallb_Forall. Qed.

Lemma wf_json_object (members : list (list N * json)) :
  wf_json (JObj members) = true ->
  Forall (fun kv => forallb is_scalar kv.1 = true /\ wf_json kv.2 = true) members
  /\ NoDup (map fst members).
Proof.
  cbn [wf_json]. intros E. apply andb_prop in E as [E1 E2]. split.
  - apply forallb_Forall in E1. eapply Forall_impl; [exact E1|].
    intros kv Hkv. now apply andb_prop in Hkv.
  - now apply bool_decide_eq_true in E2.
Qed.

Lemma encode_array_app (level : nat) (x : json) (items : list json) (rest : list ascii) :
  encode level (JArr (x :: items)) ++ rest
  = "["%char :: newline_indent (S level)
      ++ (join (item_separator ++ newline_indent (S level))
               (map (encode (S level)) (x :: items))
          ++ newline_indent level ++ "]"%char :: rest).
Proof.
  cbn [encode]. rewrite <- app_comm_cons. f_equal.
  rewrite <- !app_assoc. reflexivity.
Qed.

Lemma encode_object_app (level : nat) (kv : list N * json)
    (members : list (list N * json)) (rest : list ascii) :
  encode level (JObj (kv :: members)) ++ rest
  = "{"%char :: newline_indent (S level)
      ++ (join (item_separator ++ newline_indent (S level))
               (map (member_text level) (sort_items (kv :: members)))
          ++ newline_indent level ++ "}"%char :: rest).
Proof.
  cbn [encode]. rewrite <- app_comm_cons. f_equal.
  rewrite <- !app_assoc. f_equal. f_equal.
  rewrite (sort_items_map (encode (S level))), map_map. reflexivity.
Qed.

Theorem reads_wf (v : json) : wf_json v = true -> reads v.
Proof.
  induction v as [| b | n | lit | s | items IH | members IH] using json_induction;
    intros Hwf level rest Hrest;
    try (apply scans_once_leaf; assumption).
  - destruct items as [|x items]; [now apply scans_once_leaf|].
    apply wf_json_array in Hwf.
    pose proof (Forall_and _ _ _ Hwf IH) as Hall.
    destruct (parse_array_items (x :: items) level rest ltac:(discriminate) Hall)
      as (f1 & H1).
    exists (S f1). intros [|f] Hf; [lia|].
    cbn [scan_once]. rewrite encode_array_app, scan_step_array.
    + rewrite H1 by lia. reflexivity.
    + apply opens_join; [discriminate|].
      apply Forall_map. eapply Forall_impl; [exact Hwf|].
      intros y Hy. now apply opens_encode.
  - destruct members as [|kv members]; [now apply scans_once_leaf|].
    apply wf_json_object in Hwf as [Hwf Hnd].
    set (sorted := sort_items (kv :: members)).
    assert (Hperm : Permutation sorted (kv :: members)) by apply sort_items_perm.
    assert (Hall : Forall (fun kv => forallb is_scalar kv.1 = true
                                     /\ wf_json kv.2 = true /\ reads kv.2) sorted).
    { rewrite Hperm. apply Forall_forall. intros y Hy.
      destruct (proj1 (Forall_forall _ _) Hwf y Hy) as [Hk Hv].
      repeat split; try assumption.
      now apply (proj1 (Forall_forall _ _) IH y Hy). }
    assert (Hne : sorted <> []).
    { intros E. apply sort_items_nil in E. discriminate. }
    destruct (parse_object_members sorted level rest Hne Hall) as (f1 & H1).
    exists (S f1). intros [|f] Hf; [lia|].
    cbn [scan_once]. rewrite encode_object_app, scan_step_object.
    + fold sorted. rewrite H1 by lia.
      rewrite dict_of_pairs_nodup.
      * cbn [canon]. rewrite (sort_items_map canon). reflexivity.
      * rewrite map_map. cbn [fst]. change (fun x => x.1) with (@fst (list N) json).
        rewrite Hperm. exact Hnd.
    + apply opens_join.
      * fold sorted. destruct sorted; [congruence | discriminate].
      * apply Forall_map. apply Forall_forall. intros z _. apply opens_member_text.
Qed.

(** ** json.loads of json.dumps *)

Lemma chars_of_list (l : list ascii) : chars (string_of_list_ascii l) = l.
Proof. apply list_ascii_of_string_of_list_ascii. Qed.

Lemma json_loads_scanned (s : string) (v : json) (fuel : nat) (trail : list ascii) :
  opens_value (chars s) ->
  scan_once fuel (chars s) = Scanned v trail ->
  skip_ws trail = [] ->
  json_loads s = Some v.
Proof.
  intros Hopen Hscan Htrail. unfold json_loads.
  rewrite skip_ws_opens by assumption.
  set (doc := chars s) in *.
  destruct (Nat.le_gt_cases fuel (S (2 * length doc))) as [Hle|Hgt].
  - replace (S (2 * length doc)) with ((S (2 * length doc) - fuel) + fuel)%nat by lia.
    rewrite scan_once_more by (rewrite Hscan; discriminate).
    now rewrite Hscan, Htrail.
  - destruct (scan_once_fuel doc fuel) as [<- _]; [lia|].
    now rewrite Hscan, Htrail.
Qed.

(** Reading back what [json.dumps] wrote, with or without the newline
    that the save appends, gives the snapshot in canonical form. *)
Theorem json_loads_dumps (v : json) :
  wf_json v = true ->
  json_loads (json_dumps v ++ String "010"%char "") = Some (canon v)
  /\ json_loads (json_dumps v) = Some (canon v).
Proof.
  intros Hwf. unfold json_dumps. split.
  - destruct (reads_wf v Hwf 0%nat ["010"%char] eq_refl) as (f & Hf).
    apply (json_loads_scanned _ _ f ["010"%char]).
    + rewrite chars_append, chars_of_list. apply opens_value_app. now apply opens_encode.
    + rewrite chars_append, chars_of_list. apply Hf. lia.
    + reflexivity.
  - destruct (reads_wf v Hwf 0%nat [] eq_refl) as (f & Hf).
    apply (json_loads_scanned _ _ f []).
    + rewrite chars_of_list. now apply opens_encode.
    + rewrite chars_of_list. specialize (Hf f (le_n _)). now rewrite app_nil_r in Hf.
    + reflexivity.
Qed.

(** * Sorted keys *)

(** ** The order of keys *)

Lemma text_compare_eq (a b : list N) : text_compare a b = Eq -> a = b.
Proof.
  revert b. induction a as [|x a IH]; intros [|y b]; cbn [text_compare]; try discriminate.
  - reflexivity.
  - destruct (N.compare_spec x y) as [->| |]; try discriminate.
    intros E. f_equal. now apply IH.
Qed.

Lemma text_compare_refl (a : list N) : text_compare a a = Eq.
Proof.
  induction a as [|x a IH]; [reflexivity|]. cbn [text_compare].
  now rewrite N.compare_refl.
Qed.

Lemma text_compare_antisym (a b : list N) :
  text_compare b a = CompOpp (text_compare a b).
Proof.
  revert b. induction a as [|x a IH]; intros [|y b]; cbn [text_compare]; try reflexivity.
  rewrite (N.compare_antisym x y).
  destruct (x ?= y)%N; cbn [CompOpp]; auto.
Qed.

Lemma text_compare_lt_trans (a b c : list N) :
  text_compare a b = Lt -> text_compare b c = Lt -> text_compare a c = Lt.
Proof.
  revert b c. induction a as [|x a IH]; intros [|y b] [|z c]; cbn [text_compare];
    try discriminate; try reflexivity.
  destruct (N.compare_spec x y) as [->|Hxy|Hxy]; try discriminate.
  - destruct (y ?= z)%N; try discriminate; eauto.
  - intros _. destruct (N.compare_spec y z) as [->|Hyz|Hyz]; try discriminate.
    + intros _. now rewrite (proj2 (N.compare_lt_iff _ _) Hxy).
    + intros _. rewrite (proj2 (N.compare_lt_iff x z)) by lia. reflexivity.
Qed.

Lemma text_leb_total (a b : list N) : text_leb a b = false -> text_leb b a = true.
Proof.
  unfold text_leb. rewrite (text_compare_antisym a b).
  destruct (text_compare a b); cbn; congruence.
Qed.

Lemma text_leb_antisym (a b : list N) :
  text_leb a b = true -> text_leb b a = true -> a = b.
Proof.
  unfold text_leb. rewrite (text_compare_antisym a b).
  destruct (text_compare a b) eqn:E; cbn; try discriminate.
  intros _ _. now apply text_compare_eq.
Qed.

Lemma text_leb_trans (a b c : list N) :
  text_leb a b = true -> text_leb b c = true -> text_leb a c = true.
Proof.
  unfold text_leb.
  destruct (text_compare a b) eqn:E1; try discriminate;
    destruct (text_compare b c) eqn:E2; try discriminate; intros _ _.
  - apply text_compare_eq in E1, E2. subst. now rewrite text_compare_refl.
  - apply text_compare_eq in E1. subst. now rewrite E2.
  - apply text_compare_eq in E2. subst. now rewrite E1.
  - now rewrite (text_compare_lt_trans a b c).
Qed.

Lemma key_le_trans {A} : Transitive (@key_le A).
Proof. intros x y z. unfold key_le. apply text_leb_trans. Qed.

(** ** A sorted list of items *)

Section Sorted.
Context {A : Type}.
Implicit Types (x : list N * A) (l : list (list N * A)).

Lemma insert_item_hd x y l :
  key_le y x -> HdRel key_le y l -> HdRel key_le y (insert_item x l).
Proof.
  intros Hyx Hl. destruct l as [|z l]; cbn [insert_item]; [now constructor|].
  destruct (text_leb x.1 z.1); constructor; [assumption|].
  now inversion Hl.
Qed.

Lemma insert_item_sorted x l : Sorted key_le l -> Sorted key_le (insert_item x l).
Proof.
  induction 1 as [|y l Hl IH Hhd]; cbn [insert_item]; [repeat constructor|].
  destruct (text_leb x.1 y.1) eqn:E.
  - constructor; [now constructor | constructor; exact E].
  - constructor; [exact IH|]. apply insert_item_hd; [|exact Hhd].
    now apply text_leb_total.
Qed.

Lemma sort_items_sorted l : Sorted key_le (sort_items l).
Proof.
  induction l as [|x l IH]; [constructor|].
  cbn [sort_items foldr]. now apply insert_item_sorted.
Qed.

(** Two lists with the same items, no key twice, sort to one list. *)
Lemma sort_items_unique l1 l2 :
  Permutation l1 l2 -> NoDup (map fst l1) -> sort_items l1 = sort_items l2.
Proof.
  intros Hperm Hnd.
  assert (Hp : Permutation (sort_items l1) (sort_items l2)).
  { now rewrite !sort_items_perm. }
  apply (@Sorted_unique_strong _ key_le key_le_trans); try apply sort_items_sorted; [|exact Hp].
  intros x1 x2 H1 H2 H12 H21.
  assert (Hk : x1.1 = x2.1) by now apply text_leb_antisym.
  rewrite sort_items_perm in H1. rewrite sort_items_perm, <- Hperm in H2.
  destruct x1 as [k v1], x2 as [k' v2]. cbn [fst] in Hk. subst k'.
  f_equal. clear -H1 H2 Hnd.
  induction l1 as [|[k0 v0] l1 IH]; [inversion H1|].
  cbn [map fst] in Hnd. apply NoDup_cons in Hnd as [Hk0 Hnd].
  apply elem_of_cons in H1 as [E1|H1], H2 as [E2|H2].
  - congruence.
  - inversion E1; subst. exfalso. apply Hk0.
    apply list_elem_of_fmap. exists (k0, v2). split; [reflexivity | exact H2].
  - inversion E2; subst. exfalso. apply Hk0.
    apply list_elem_of_fmap. exists (k0, v1). split; [reflexivity | exact H1].
  - now apply IH.
Qed.
End Sorted.

(** ** Looking a key up *)

Lemma dict_get_elem (k : list N) (v : json) (d : list (list N * json)) :
  NoDup (map fst d) -> (k, v) ∈ d -> dict_get k d = Some v.
Proof.
  induction d as [|[k' v'] d IH]; intros Hnd Hin; [inversion Hin|].
  cbn [map fst] in Hnd. apply NoDup_cons in Hnd as [Hk' Hnd].
  cbn [dict_get]. apply elem_of_cons in Hin as [E|Hin].
  - inversion E; subst. now rewrite bool_decide_eq_true_2.
  - rewrite bool_decide_eq_false_2; [now apply IH|].
    intros ->. apply Hk'. apply list_elem_of_fmap. now exists (k', v).
Qed.

Lemma dict_get_Some (k : list N) (v : json) (d : list (list N * json)) :
  dict_get k d = Some v -> (k, v) ∈ d.
Proof.
  induction d as [|[k' v'] d IH]; cbn [dict_get]; [discriminate|].
  destruct (bool_decide_reflect (k = k')) as [->|Hne].
  - intros E; inversion E; subst. constructor.
  - intros E. apply elem_of_cons. right. now apply IH.
Qed.

(** ** The canonical form is the same snapshot, keys in order *)

Lemma forall2b_map_l {A} (f : A -> A -> bool) (g : A -> A) (l : list A) :
  Forall (fun x => f (g x) x = true) l -> forall2b f (map g l) l = true.
Proof.
  induction 1 as [|x l Hx Hl IH]; [reflexivity|].
  cbn [map forall2b]. now rewrite Hx, IH.
Qed.

Lemma Forall_forallb {A} (f : A -> bool) (l : list A) :
  Forall (fun x => f x = true) l -> forallb f l = true.
Proof.
  induction 1 as [|x l Hx Hl IH]; [reflexivity|]. cbn [forallb]. now rewrite Hx, IH.
Qed.

Theorem json_eqb_canon (v : json) : wf_json v = true -> json_eqb (canon v) v = true.
Proof.
  induction v as [| b | n | lit | s | items IH | members IH] using json_induction;
    intros Hwf; cbn [canon json_eqb]; try reflexivity.
  - now destruct b.
  - apply Z.eqb_refl.
  - discriminate.
  - now apply bool_decide_eq_true_2.
  - apply wf_json_array in Hwf. apply forall2b_map_l.
    eapply Forall_impl; [exact (Forall_and _ _ _ Hwf IH)|]. intros x [Hx Hr]. auto.
  - apply wf_json_object in Hwf as [Hwf Hnd].
    set (canon_item := fun kv : list N * json => (kv.1, canon kv.2)).
    assert (Hperm : Permutation (sort_items (map canon_item members))
                                (map canon_item members)) by apply sort_items_perm.
    apply andb_true_intro. split.
    + apply Nat.eqb_eq. rewrite (Permutation_length Hperm). apply length_map.
    + apply Forall_forallb. rewrite Hperm. apply Forall_map.
      apply Forall_forall. intros [k x] Hin. cbn [canon_item fst snd].
      rewrite (dict_get_elem k x members Hnd Hin).
      apply (proj1 (Forall_forall _ _) IH (k, x) Hin).
      exact (proj2 (proj1 (Forall_forall _ _) Hwf (k, x) Hin)).
Qed.



(** * The shape of the written text *)

(** ** The written text does not depend on the order of a dict's items *)

Lemma forall2b_map_eq {A C} (f : A -> A -> bool) (g : A -> C) (xs ys : list A) :
  Forall (fun x => forall y, In y ys -> f x y = true -> g x = g y) xs ->
  forall2b f xs ys = true -> map g xs = map g ys.
Proof.
  revert ys. induction xs as [|x xs IH]; intros [|y ys] Hall E; try discriminate.
  - reflexivity.
  - cbn [forall2b] in E. apply andb_prop in E as [Exy E].
    inversion Hall as [|? ? Hx Hxs]; subst. cbn [map]. f_equal.
    + apply Hx; [now left | exact Exy].
    + apply IH; [|exact E]. eapply Forall_impl; [exact Hxs|].
      intros z Hz y' Hy'. apply Hz. now right.
Qed.

Lemma wf_json_item (items : list json) (x : json) :
  wf_json (JArr items) = true -> In x items -> wf_json x = true.
Proof.
  intros Hwf Hin. apply wf_json_array in Hwf.
  exact (proj1 (List.Forall_forall _ _) Hwf x Hin).
Qed.

Lemma wf_json_member (members : list (list N * json)) (k : list N) (x : json) :
  wf_json (JObj members) = true -> (k, x) ∈ members -> wf_json x = true.
Proof.
  intros Hwf Hin. apply wf_json_object in Hwf as [Hwf _].
  exact (proj2 (proj1 (Forall_forall _ _) Hwf (k, x) Hin)).
Qed.

Lemma encode_items_eq (level : nat) (xs ys : list json) :
  map (encode (S level)) xs = map (encode (S level)) ys ->
  encode level (JArr xs) = encode level (JArr ys).
Proof.
  intros E. destruct xs as [|x xs], ys as [|y ys]; try discriminate; [reflexivity|].
  cbn [encode]. now rewrite E.
Qed.

Lemma encode_members_eq (level : nat) (ms ns : list (list N * json)) :
  sort_items (map (fun kv => (kv.1, encode (S level) kv.2)) ms)
  = sort_items (map (fun kv => (kv.1, encode (S level) kv.2)) ns) ->
  length ms = length ns ->
  encode level (JObj ms) = encode level (JObj ns).
Proof.
  intros E Hlen. destruct ms as [|m ms], ns as [|n ns]; try discriminate; [reflexivity|].
  cbn [encode]. now rewrite E.
Qed.

Theorem encode_deterministic (a : json) :
  forall b level,
    wf_json a = true -> wf_json b = true -> json_eqb a b = true ->
    encode level a = encode level b.
Proof.
  induction a as [| x | x | x | x | xs IH | ms IH] using json_induction;
    intros [| y | y | y | y | ys | ns] level Ha Hb E; cbn [json_eqb] in E;
    try discriminate; try reflexivity.
  - apply Bool.eqb_prop in E. now subst.
  - apply Z.eqb_eq in E. now subst.
  - apply bool_decide_eq_true in E. now subst.
  - apply encode_items_eq. apply (forall2b_map_eq json_eqb); [|exact E].
    apply List.Forall_forall. intros x Hx y Hy Exy.
    apply (proj1 (Forall_forall _ _) IH x (proj2 (list_elem_of_In _ _) Hx)); try assumption.
    + now apply (wf_json_item xs).
    + now apply (wf_json_item ys).
  - apply andb_prop in E as [Hlen E]. apply Nat.eqb_eq in Hlen.
    apply encode_members_eq; [|exact Hlen].
    pose proof (wf_json_object _ Ha) as [_ Hnd_ms].
    pose proof (wf_json_object _ Hb) as [_ Hnd_ns].
    set (f := fun kv : list N * json => (kv.1, encode (S level) kv.2)).
    assert (Hkeys : forall l : list (list N * json), map fst (map f l) = map fst l).
    { intros l. rewrite map_map. reflexivity. }
    apply sort_items_unique; [|now rewrite Hkeys].
    apply submseteq_length_Permutation; [|rewrite !length_map; lia].
    apply NoDup_submseteq.
    + apply (NoDup_fmap_1 fst). change (NoDup (map fst (map f ms))). now rewrite Hkeys.
    + intros kv Hin. apply list_elem_of_fmap in Hin as ([k x] & -> & Hin).
      pose proof (proj1 (forallb_forall _ _) E (k, x)
                    (proj1 (list_elem_of_In _ _) Hin)) as Hget.
      cbn [fst snd] in Hget.
      destruct (dict_get k ns) as [w|] eqn:Hk; [|discriminate].
      apply dict_get_Some in Hk.
      apply list_elem_of_fmap. exists (k, w). split; [|exact Hk].
      unfold f. cbn [fst snd]. f_equal.
      apply (proj1 (Forall_forall _ _) IH (k, x) Hin); try assumption.
      * now apply (wf_json_member ms k).
      * now apply (wf_json_member ns k).
Qed.

(** The document of a snapshot is the document of its canonical form. *)
Corollary encode_canon (v : json) (level : nat) :
  wf_json v = true -> wf_json (canon v) = true ->
  encode level (canon v) = encode level v.
Proof.
  intros Hwf Hwfc. apply encode_deterministic; try assumption.
  now apply json_eqb_canon.
Qed.

Lemma wf_json_canon (v : json) : wf_json v = true -> wf_json (canon v) = true.
Proof.
  induction v as [| b | n | lit | s | items IH | members IH] using json_induction;
    intros Hwf; cbn [canon]; try exact Hwf.
  - cbn [wf_json]. apply wf_json_array in Hwf. apply Forall_forallb, Forall_map.
    eapply Forall_impl; [exact (Forall_and _ _ _ Hwf IH)|]. intros x [Hx Hr]. auto.
  - apply wf_json_object in Hwf as [Hwf Hnd]. cbn [wf_json].
    set (canon_item := fun kv : list N * json => (kv.1, canon kv.2)).
    assert (Hperm : Permutation (sort_items (map canon_item members))
                                (map canon_item members)) by apply sort_items_perm.
    apply andb_true_intro. split.
    + apply Forall_forallb. rewrite Hperm. apply Forall_map.
      apply Forall_forall. intros [k x] Hin. cbn [canon_item fst snd].
      destruct (proj1 (Forall_forall _ _) Hwf (k, x) Hin) as [Hk Hx]. cbn [fst snd] in *.
      rewrite Hk. apply (proj1 (Forall_forall _ _) IH (k, x) Hin). exact Hx.
    + apply bool_decide_eq_true_2. rewrite Hperm, map_map. exact Hnd.
Qed.

(** ** Lines and indentation *)






Lemma digits_of_N_digits (n : N) : forallb is_digit (digits_of_N n) = true.
Proof.
  destruct (N.eq_dec n 0%N) as [->|Hn]; [reflexivity|].
  destruct (digits_of_N_pos n) as (d & ds & -> & Hd & _ & Hds & _); [lia|].
  cbn [forallb]. now rewrite Hd, Hds.
Qed.











(** ** The end of the document *)




(** * Running the commands *)

(** Unfolding a command down to the stores of the world. *)
Ltac unfold_cmd :=
  cbv [ui_command_saveconfig ui_command_restoreconfig ui_command_clearconfig
       ui_command_sessions show_session indent_print
       bind ret raise try_except gets emit set_fs set_backend set_children
       log_info log_error assert_root isfile shutil_move open_w fchmod write
       read_file rts_dump rts_restore rts_clear_existing ui_eval_param_bool
       refresh add_events with_backend outcome after];
  cbn [as_root children fs backend events fst snd].

Ltac step := cbn [as_root children fs backend events fst snd negb is_IOError is_ValueError].

Ltac open_world w :=
  destruct w as [root kids files b evs];
  cbn [as_root children fs backend events] in *; subst.

Section RestoreClear.
Context {B : Type} `{BackendHandle B}.
Variable expanduser : string -> string.
Variable umask : Z.

Lemma restoreconfig_not_found (w : world B) (savefile : string) (clear : bool) :
  as_root w = true ->
  (forall mode data, fs w !! expanduser savefile <> Some (File mode data)) ->
  ui_command_restoreconfig expanduser savefile clear w
  = (Ok tt, add_events w [EvLog Info ("Restore file " ++ expanduser savefile ++ " not found")]).
Proof.
  intros Hroot Hfile. open_world w. unfold_cmd.
  destruct (files !! expanduser savefile) as [[m d|]|] eqn:E; step; try reflexivity.
  exfalso. eapply Hfile. reflexivity.
Qed.

Lemma restoreconfig_malformed (w : world B) (savefile : string) (clear : bool) mode data :
  as_root w = true ->
  fs w !! expanduser savefile = Some (File mode data) ->
  json_loads data = None ->
  ui_command_restoreconfig expanduser savefile clear w
  = (Ok tt, add_events w [EvRead (expanduser savefile);
                          EvLog Error ("Error parsing savefile: " ++ expanduser savefile)]).
Proof.
  intros Hroot Hfile Hparse. open_world w. unfold_cmd. repeat (rewrite Hfile; step).
  rewrite Hparse. step. rewrite <- app_assoc. reflexivity.
Qed.

Lemma restoreconfig_applied (w : world B) (savefile : string) (clear : bool)
    mode data snapshot n b' :
  as_root w = true ->
  fs w !! expanduser savefile = Some (File mode data) ->
  json_loads data = Some snapshot ->
  restore snapshot clear (backend w) = (Ok n, b') ->
  ui_command_restoreconfig expanduser savefile clear w
  = (Ok tt,
     World true (UIBackstores :: map UIFabricModule (fabric_modules b')) (fs w) b'
       (events w ++
        [EvRead (expanduser savefile); EvRestore snapshot clear;
         if (n =? 0)%Z
         then EvLog Info ("Configuration restored from " ++ expanduser savefile)
         else EvLog Error ("Configuration restored, " ++ str_of_int n
                           ++ " recoverable errors");
         EvRefresh])).
Proof.
  intros Hroot Hfile Hparse Hres. open_world w. unfold_cmd. repeat (rewrite Hfile; step).
  rewrite Hparse. step. rewrite Hres. step.
  destruct (n =? 0)%Z; step; rewrite <- !app_assoc; reflexivity.
Qed.

(** A [ValueError] of the backend's [restore] is answered as a parse
    error, after the backend was reached. *)
Lemma restoreconfig_restore_raises (w : world B) (savefile : string) (clear : bool)
    mode data snapshot e b' :
  as_root w = true ->
  fs w !! expanduser savefile = Some (File mode data) ->
  json_loads data = Some snapshot ->
  restore snapshot clear (backend w) = (Raise e, b') ->
  ui_command_restoreconfig expanduser savefile clear w
  = if is_ValueError e
    then (Ok tt,
          World true (children w) (fs w) b'
            (events w ++
             [EvRead (expanduser savefile); EvRestore snapshot clear;
              EvLog Error ("Error parsing savefile: " ++ expanduser savefile)]))
    else (Raise e,
          World true (children w) (fs w) b'
            (events w ++ [EvRead (expanduser savefile); EvRestore snapshot clear])).
Proof.
  intros Hroot Hfile Hparse Hres. open_world w. unfold_cmd. repeat (rewrite Hfile; step).
  rewrite Hparse. step. rewrite Hres. step.
  destruct (is_ValueError e); step; rewrite <- !app_assoc; reflexivity.
Qed.

Lemma command_not_root_restore (w : world B) savefile clear :
  as_root w = false ->
  exists e, ui_command_restoreconfig expanduser savefile clear w = (Raise e, w).
Proof.
  intros Hroot. open_world w. unfold_cmd. eauto.
Qed.

Lemma clearconfig_run (w : world B) (confirm : option string) (flag : bool) :
  as_root w = true ->
  ui_eval_param_bool confirm false w = (Ok flag, w) ->
  ui_command_clearconfig confirm w
  = match clear_existing flag (backend w) with
    | (Ok _, b') =>
        (Ok tt,
         World true (UIBackstores :: map UIFabricModule (fabric_modules b')) (fs w) b'
           (events w ++ [EvClearExisting flag; EvLog Info "All configuration cleared";
                         EvRefresh]))
    | (Raise e, b') =>
        (Raise e, World true (children w) (fs w) b' (events w ++ [EvClearExisting flag]))
    end.
Proof.
  intros Hroot Hflag. open_world w.
  unfold ui_command_clearconfig. unfold bind at 1. unfold assert_root, bind, gets, ret. step.
  rewrite Hflag. unfold_cmd.
  destruct (clear_existing flag b) as [[[]|e] b']; step; rewrite <- ?app_assoc; reflexivity.
Qed.
End RestoreClear.

Section Save.
Context {B : Type} `{BackendHandle B}.
Variable expanduser : string -> string.
Variable umask : Z.

Lemma saveconfig_steps (w : world B) (savefile : string) :
  as_root w = true ->
  ui_command_saveconfig expanduser umask savefile w
  = (backup_step (expanduser savefile) ;; write_step umask (expanduser savefile)) w.
Proof.
  intros Hroot. open_world w. reflexivity.
Qed.

Lemma saveconfig_not_root (w : world B) (savefile : string) :
  as_root w = false ->
  exists e, ui_command_saveconfig expanduser umask savefile w = (Raise e, w).
Proof. intros Hroot. open_world w. unfold_cmd. eauto. Qed.

Lemma write_step_run (w : world B) (p : string) :
  fs w !! p <> Some Dir ->
  write_step umask p w
  = (Ok tt,
     World (as_root w) (children w)
       (<[p := File 384 (saved_text (backend w))]> (fs w)) (backend w)
       (events w ++
        [EvOpen p; EvFchmod p 384; EvDump; EvWrite p (json_dumps (dump (backend w)));
         EvWrite p (String "010"%char ""); EvLog Info ("Configuration saved to " ++ p)])).
Proof.
  intros Hp. open_world w. unfold write_step. unfold_cmd.
  destruct (files !! p) as [[m d|]|] eqn:E; [| congruence |]; step;
    repeat (rewrite ?lookup_insert_eq, ?insert_insert_eq; step);
    rewrite <- !app_assoc; reflexivity.
Qed.

Lemma backup_step_no_file (w : world B) (p : string) :
  fs w !! p = None ->
  fs w !! (p ++ ".backup")%string <> Some Dir ->
  backup_step p w = (Ok tt, w).
Proof.
  intros Hp Hbk. open_world w. unfold backup_step. unfold_cmd.
  destruct (files !! (p ++ ".backup")%string) as [[m d|]|] eqn:E; [| congruence |];
    rewrite ?E, Hp; reflexivity.
Qed.

Lemma backup_step_file (w : world B) (p : string) (mode : Z) (data : string) :
  fs w !! p = Some (File mode data) ->
  fs w !! (p ++ ".backup")%string <> Some Dir ->
  backup_step p w
  = (Ok tt,
     World (as_root w) (children w)
       (<[(p ++ ".backup")%string := File mode data]> (delete p (fs w))) (backend w)
       (events w ++
        [EvMove p (p ++ ".backup");
         EvLog Info ("Existing file " ++ p ++ " backed up to "
                     ++ last_segment (p ++ ".backup"))])).
Proof.
  intros Hp Hbk. open_world w. unfold backup_step. unfold_cmd.
  destruct (files !! (p ++ ".backup")%string) as [[m d|]|] eqn:E; [| congruence |];
    rewrite ?E, Hp; step; rewrite <- !app_assoc; reflexivity.
Qed.

(** Whatever the files are, a backup step that returns leaves no node
    at the path, writes nothing and touches nothing but the files. *)
Lemma backup_step_ok (w w1 : world B) (p : string) :
  backup_step p w = (Ok tt, w1) ->
  fs w1 !! p = None
  /\ as_root w1 = as_root w /\ children w1 = children w /\ backend w1 = backend w
  /\ exists pre, events w1 = events w ++ pre
                 /\ forallb (fun e => negb (is_write e) && negb (is_refresh e)) pre = true.
Proof.
  open_world w. unfold backup_step. unfold_cmd.
  set (bk := (p ++ ".backup")%string).
  assert (Hne1 : bk <> p) by apply backup_neq.
  assert (Hne2 : path_join bk (shutil_basename p) <> p) by apply path_join_backup_neq.
  destruct (files !! bk) as [[m d|]|] eqn:Ebk;
    rewrite ?Ebk;
    try destruct (files !! path_join bk (shutil_basename p)) as [n'|] eqn:Ein;
    destruct (files !! p) as [[m' d'|]|] eqn:Ep; step;
    intros E; inversion E; subst; clear E; step;
    rewrite ?lookup_insert_ne, ?lookup_delete_eq by congruence;
    (repeat split; try reflexivity; try assumption);
    try (eexists; split; [rewrite <- ?app_assoc; reflexivity | reflexivity]);
    try (exists []; split; [now rewrite app_nil_r | reflexivity]).
Qed.

Lemma backup_step_raise (w w1 : world B) (p : string) (e : exn) :
  backup_step p w = (Raise e, w1) -> w1 = w /\ is_IOError e = false.
Proof.
  open_world w. unfold backup_step. unfold_cmd.
  set (bk := (p ++ ".backup")%string).
  destruct (files !! bk) as [[m d|]|] eqn:Ebk;
    rewrite ?Ebk;
    try destruct (files !! path_join bk (shutil_basename p)) as [n'|] eqn:Ein;
    destruct (files !! p) as [[m' d'|]|] eqn:Ep; step;
    intros E; inversion E; subst; clear E; split; reflexivity.
Qed.
End Save.

Lemma add_events_nil {B} (w : world B) : add_events w [] = w.
Proof. destruct w. unfold add_events. simpl. now rewrite app_nil_r. Qed.

Lemma add_events_app {B} (w : world B) (a b : list event) :
  add_events (add_events w a) b = add_events w (a ++ b).
Proof. destruct w. unfold add_events. simpl. now rewrite app_assoc. Qed.

Section Sessions.
Context {B : Type} `{BackendHandle B}.

Lemma bind_ok {A C} (m : M B A) (k : A -> M B C) (w w' : world B) (a : A) :
  m w = (Ok a, w') -> (x <- m ;; k x) w = k a w'.
Proof. intros E. unfold bind. now rewrite E. Qed.

Lemma bind_raise {A C} (m : M B A) (k : A -> M B C) (w w' : world B) (e : exn) :
  m w = (Raise e, w') -> (x <- m ;; k x) w = (Raise e, w').
Proof. intros E. unfold bind. now rewrite E. Qed.

Lemma indent_print_run (w : world B) (txt : string) (steps : nat) :
  indent_print txt steps w = (Ok tt, add_events w [EvDisplay (indent_step * steps) txt]).
Proof. reflexivity. Qed.

Lemma for_each_display {A} (l : list A) (line : A -> string) (steps : nat) (w : world B) :
  for_each l (fun x => indent_print (line x) steps) w
  = (Ok tt, add_events w (map (fun x => EvDisplay (indent_step * steps) (line x)) l)).
Proof.
  revert w. induction l as [|x l IH]; intros w.
  - simpl. now rewrite add_events_nil.
  - simpl. erewrite bind_ok by apply indent_print_run.
    rewrite IH, add_events_app. reflexivity.
Qed.

Lemma show_session_run (action : string) (session : Session) (w : world B) :
  show_session action session w
  = (Ok tt, add_events w (session_lines (as_root w) action session)).
Proof.
  unfold show_session, session_lines.
  erewrite bind_ok by apply indent_print_run.
  destruct (String.eqb action "details").
  - erewrite bind_ok by reflexivity.
    erewrite bind_ok by apply indent_print_run.
    erewrite bind_ok by apply for_each_display.
    rewrite for_each_display, !add_events_app. destruct w; reflexivity.
  - reflexivity.
Qed.

Lemma sessions_loop_run (action : string) (sid : option Z) (l : list Session)
    (found : bool) (w : world B) :
  sessions_loop action sid l found w
  = (Ok (found || existsb (passes sid) l),
     add_events w (flat_map (session_lines (as_root w) action)
                            (List.filter (passes sid) l))).
Proof.
  revert found w. induction l as [|s l IH]; intros found w.
  - simpl. now rewrite add_events_nil, orb_false_r.
  - cbn [sessions_loop existsb List.filter]. fold (passes sid s).
    destruct (passes sid s).
    + erewrite bind_ok by apply show_session_run.
      rewrite IH, add_events_app. destruct w; simpl. now rewrite orb_true_r.
    + rewrite IH. reflexivity.
Qed.

Lemma existsb_filter_nil {A} (f : A -> bool) (l : list A) :
  existsb f l = match List.filter f l with [] => false | _ :: _ => true end.
Proof.
  induction l as [|x l IH]; [reflexivity|]. simpl. destruct (f x); simpl; auto.
Qed.

(** The whole command, once its arguments are accepted. *)
Lemma sessions_run (action : string) (sid : option string) (sid_int : option Z)
    (w : world B) :
  existsb (String.eqb action) action_list = true ->
  parse_sid sid = Some sid_int ->
  ui_command_sessions action sid w
  = match List.filter (passes sid_int) (sessions (backend w)), sid_int with
    | [], None => (Ok tt, add_events w [EvDisplay 0 "(no open sessions)"])
    | [], Some n =>
        (Raise (ExecutionError ("no session found with sid " ++ str_of_int n)), w)
    | shown, _ =>
        (Ok tt, add_events w (flat_map (session_lines (as_root w) action) shown))
    end.
Proof.
  intros Haction Hsid. unfold ui_command_sessions. rewrite Haction.
  erewrite bind_ok by reflexivity.
  assert (Hs : match sid with
               | Some s =>
                   match py_int s with
                   | Some n => ret (Some n)
                   | None => raise (ExecutionError ("sid must be a number, '" ++ s ++ "' given"))
                   end
               | None => ret None
               end w = (Ok sid_int, w)).
  { unfold parse_sid in Hsid. destruct sid as [s|].
    - destruct (py_int s); inversion Hsid; reflexivity.
    - inversion Hsid; reflexivity. }
  erewrite bind_ok by exact Hs.
  erewrite bind_ok by reflexivity.
  erewrite bind_ok by apply sessions_loop_run.
  rewrite existsb_filter_nil. simpl.
  destruct (List.filter (passes sid_int) (sessions (backend w))) as [|s shown].
  - simpl. rewrite add_events_nil. destruct sid_int; reflexivity.
  - simpl. destruct sid_int; reflexivity.
Qed.

Lemma sessions_bad_action (action : string) (sid : option string) (w : world B) :
  existsb (String.eqb action) action_list = false ->
  ui_command_sessions action sid w
  = (Raise (ExecutionError "action must be one of: list, details"), w).
Proof.
  intros Haction. unfold ui_command_sessions. rewrite Haction. reflexivity.
Qed.

Lemma sessions_bad_sid (action : string) (s : string) (w : world B) :
  existsb (String.eqb action) action_list = true ->
  py_int s = None ->
  ui_command_sessions action (Some s) w
  = (Raise (ExecutionError ("sid must be a number, '" ++ s ++ "' given")), w).
Proof.
  intros Haction Hs. unfold ui_command_sessions. rewrite Haction, Hs. reflexivity.
Qed.
End Sessions.

(** ** What the session listing depends on *)

Lemma passes_hide_auth (sid : option Z) (session : Session) :
  passes sid (hide_auth session) = passes sid session.
Proof. destruct sid; reflexivity. Qed.

Lemma session_lines_hide_auth (action : string) (session : Session) :
  session_lines false action (hide_auth session) = session_lines false action session.
Proof. reflexivity. Qed.

Lemma filter_hide_auth (sid : option Z) (l : list Session) :
  List.filter (passes sid) (map hide_auth l) = map hide_auth (List.filter (passes sid) l).
Proof.
  induction l as [|s l IH]; [reflexivity|].
  cbn [map List.filter]. rewrite passes_hide_auth.
  destruct (passes sid s); cbn [map]; now rewrite IH.
Qed.

Lemma lines_hide_auth (action : string) (l : list Session) :
  flat_map (session_lines false action) (map hide_auth l)
  = flat_map (session_lines false action) l.
Proof.
  induction l as [|s l IH]; [reflexivity|].
  cbn [map flat_map]. now rewrite IH, session_lines_hide_auth.
Qed.

(** Without privilege the lines shown are a function of the sessions
    with their authentication flags blanked. *)
Lemma shown_hide_auth (action : string) (sid : option Z) (l1 l2 : list Session) :
  map hide_auth l1 = map hide_auth l2 ->
  flat_map (session_lines false action) (List.filter (passes sid) l1)
  = flat_map (session_lines false action) (List.filter (passes sid) l2)
  /\ (List.filter (passes sid) l1 = [] <-> List.filter (passes sid) l2 = []).
Proof.
  intros E.
  assert (F : map hide_auth (List.filter (passes sid) l1)
              = map hide_auth (List.filter (passes sid) l2))
    by now rewrite <- !filter_hide_auth, E.
  split.
  - rewrite <- (lines_hide_auth action (List.filter (passes sid) l1)), F.
    apply lines_hide_auth.
  - destruct (List.filter (passes sid) l1), (List.filter (passes sid) l2);
      try discriminate; split; auto; discriminate.
Qed.

Lemma forallb_app_true {A} (f : A -> bool) (a b : list A) :
  forallb f a = true -> forallb f b = true -> forallb f (a ++ b) = true.
Proof. intros Ha Hb. rewrite forallb_app, Ha, Hb. reflexivity. Qed.

Lemma session_lines_no_refresh (root : bool) (action : string) (l : list Session) :
  forallb (fun e => negb (is_refresh e)) (flat_map (session_lines root action) l) = true.
Proof.
  induction l as [|s l IH]; [reflexivity|].
  cbn [flat_map]. apply forallb_app_true; [|exact IH].
  unfold session_lines. cbn [forallb is_refresh negb andb].
  destruct (String.eqb action "details"); [|reflexivity].
  cbn [forallb is_refresh negb andb]. apply forallb_app_true;
    apply forallb_forall; intros e He; apply in_map_iff in He as (x & <- & _); reflexivity.
Qed.

Section Quiet.
Context {B : Type} `{BackendHandle B}.
Variable expanduser : string -> string.
Variable umask : Z.

(** Whatever its arguments and its outcome, the session listing only
    displays lines. *)
Lemma sessions_quiet (action : string) (sid : option string) (w : world B) :
  exists r out,
    ui_command_sessions action sid w = (r, add_events w out)
    /\ forallb (fun e => negb (is_refresh e)) out = true.
Proof.
  destruct (existsb (String.eqb action) action_list) eqn:Hact.
  2:{ eexists _, []. rewrite add_events_nil. split; [|reflexivity].
      now apply sessions_bad_action. }
  destruct (parse_sid sid) as [sid_int|] eqn:Hsid.
  - rewrite (sessions_run action sid sid_int w Hact Hsid).
    destruct (List.filter (passes sid_int) (sessions (backend w))) as [|s l] eqn:E.
    + destruct sid_int as [n|].
      * eexists _, []. rewrite add_events_nil. split; reflexivity.
      * eexists _, _. split; reflexivity.
    + eexists _, _. split; [reflexivity|]. apply session_lines_no_refresh.
  - destruct sid as [s|]; [|discriminate]. unfold parse_sid in Hsid.
    destruct (py_int s) eqn:Hs; [discriminate|].
    eexists _, []. rewrite add_events_nil. split; [|reflexivity].
    now apply sessions_bad_sid.
Qed.

(** A save that returns went through both steps. *)
Lemma saveconfig_ok (w w' : world B) (savefile : string) :
  ui_command_saveconfig expanduser umask savefile w = (Ok tt, w') ->
  as_root w = true
  /\ exists w1, backup_step (expanduser savefile) w = (Ok tt, w1)
                /\ write_step umask (expanduser savefile) w1 = (Ok tt, w').
Proof.
  intros Hrun. destruct (as_root w) eqn:Hroot.
  - split; [reflexivity|]. rewrite saveconfig_steps in Hrun by exact Hroot.
    unfold bind in Hrun at 1.
    destruct (backup_step (expanduser savefile) w) as [[[]|e] w1] eqn:E; [|discriminate].
    exists w1. split; [reflexivity | exact Hrun].
  - destruct (saveconfig_not_root expanduser umask w savefile Hroot) as (e & E).
    rewrite E in Hrun. discriminate.
Qed.

(** Whatever its outcome, a save runs no refresh and leaves the
    children and the backend as they were. *)
Lemma saveconfig_quiet (w : world B) (savefile : string) :
  let w' := after (ui_command_saveconfig expanduser umask savefile) w in
  children w' = children w /\ backend w' = backend w
  /\ exists out, events w' = events w ++ out
                 /\ forallb (fun e => negb (is_refresh e)) out = true.
Proof.
  unfold after. destruct (as_root w) eqn:Hroot.
  2:{ destruct (saveconfig_not_root expanduser umask w savefile Hroot) as (e & ->).
      cbn [snd]. repeat split. exists []. now rewrite app_nil_r. }
  rewrite saveconfig_steps by exact Hroot.
  destruct (backup_step (expanduser savefile) w) as [[[]|e] w1] eqn:E.
  - rewrite (bind_ok _ _ _ _ _ E).
    destruct (backup_step_ok _ _ _ E) as (Hp & _ & Hkids & Hb & pre & Hev & Hpre).
    rewrite write_step_run by (rewrite Hp; discriminate).
    cbn [snd children backend events]. repeat split; try assumption.
    exists (pre ++ write_events (expanduser savefile) (backend w1)).
    rewrite Hev, <- app_assoc. split; [reflexivity|].
    apply forallb_app_true; [|reflexivity].
    eapply forallb_forall. intros x Hx.
    apply (proj1 (forallb_forall _ _) Hpre) in Hx.
    now apply andb_prop in Hx as [_ ?].
  - rewrite (bind_raise _ _ _ _ _ E).
    destruct (backup_step_raise _ _ _ _ E) as [-> _]. cbn [snd].
    repeat split. exists []. now rewrite app_nil_r.
Qed.
End Quiet.

(** ** One session for each id *)

Lemma filter_none {A} (f : A -> bool) (l : list A) :
  (forall x, In x l -> f x = false) -> List.filter f l = [].
Proof.
  induction l as [|x l IH]; intros Hf; [reflexivity|].
  cbn [List.filter]. rewrite (Hf x) by now left. apply IH. intros y Hy. apply Hf. now right.
Qed.

Lemma filter_unique_id (l : list Session) (session : Session) :
  List.NoDup (map session_id l) ->
  In session l ->
  List.filter (passes (Some (session_id session))) l = [session].
Proof.
  induction l as [|x l IH]; intros Hnd Hin; [destruct Hin|].
  cbn [map] in Hnd. inversion Hnd as [|? ? Hx Hl]; subst.
  cbn [List.filter passes].
  destruct Hin as [->|Hin].
  - rewrite Z.eqb_refl. f_equal. apply filter_none. intros y Hy.
    cbn [passes]. apply Z.eqb_neq. intros E. apply Hx. rewrite E. now apply in_map.
  - destruct (session_id session =? session_id x) eqn:E.
    + apply Z.eqb_eq in E. exfalso. apply Hx. rewrite <- E. now apply in_map.
    + now apply IH.
Qed.

Lemma summary_once (root : bool) (action : string) (session : Session) :
  List.filter is_summary (session_lines root action session)
  = [EvDisplay 0 (summary_line session)].
Proof.
  unfold session_lines. cbn [List.filter is_summary Nat.mul indent_step base_steps].
  f_equal. destruct (String.eqb action "details"); [|reflexivity].
  cbn [List.filter is_summary detail_margin]. rewrite List.filter_app.
  rewrite !filter_none; [reflexivity| |];
    intros e He; apply in_map_iff in He as (x & <- & _); reflexivity.
Qed.

(** ** A save that returns *)

Section SaveReturns.
Context {B : Type} `{BackendHandle B}.
Variable expanduser : string -> string.
Variable umask : Z.

(** The file and the events of a save that returned. *)
Lemma saveconfig_returns (w w' : world B) (savefile : string) :
  ui_command_saveconfig expanduser umask savefile w = (Ok tt, w') ->
  as_root w = true /\ as_root w' = true
  /\ children w' = children w /\ backend w' = backend w
  /\ fs w' !! expanduser savefile
     = Some (File (Z.lor S_IRUSR S_IWUSR) (saved_text (backend w)))
  /\ exists pre,
       events w' = events w ++ pre ++ write_events (expanduser savefile) (backend w)
       /\ forallb (fun e => negb (is_write e)) pre = true.
Proof.
  intros Hrun. apply saveconfig_ok in Hrun as (Hroot & w1 & Hbk & Hwr).
  destruct (backup_step_ok _ _ _ Hbk) as (Hp & Hroot1 & Hkids & Hb & pre & Hev & Hpre).
  rewrite write_step_run in Hwr by (rewrite Hp; discriminate).
  injection Hwr as <-. cbn [as_root children fs backend events].
  rewrite lookup_insert_eq, Hb, Hev, <- app_assoc.
  repeat split; try congruence.
  exists pre. split; [reflexivity|].
  eapply forallb_forall. intros x Hx.
  apply (proj1 (forallb_forall _ _) Hpre) in Hx.
  now apply andb_prop in Hx as [? _].
Qed.

(** A save with nothing in the way of the backup. *)
Lemma saveconfig_run (w : world B) (savefile : string) :
  as_root w = true ->
  fs w !! (expanduser savefile ++ ".backup")%string <> Some Dir ->
  (forall mode data,
     fs w !! expanduser savefile = Some (File mode data) ->
     ui_command_saveconfig expanduser umask savefile w
     = (Ok tt,
        World true (children w)
          (<[expanduser savefile := File (Z.lor S_IRUSR S_IWUSR) (saved_text (backend w))]>
             (<[(expanduser savefile ++ ".backup")%string := File mode data]>
                (delete (expanduser savefile) (fs w))))
          (backend w)
          (events w
           ++ [EvMove (expanduser savefile) (expanduser savefile ++ ".backup");
               EvLog Info ("Existing file " ++ expanduser savefile ++ " backed up to "
                           ++ last_segment (expanduser savefile ++ ".backup"))]
           ++ write_events (expanduser savefile) (backend w))))
  /\ (fs w !! expanduser savefile = None ->
      ui_command_saveconfig expanduser umask savefile w
      = (Ok tt,
         World true (children w)
           (<[expanduser savefile := File (Z.lor S_IRUSR S_IWUSR) (saved_text (backend w))]>
              (fs w))
           (backend w)
           (events w ++ write_events (expanduser savefile) (backend w)))).
Proof.
  intros Hroot Hbk. split.
  - intros mode data Hfile. rewrite saveconfig_steps by exact Hroot.
    rewrite (bind_ok _ _ _ _ _ (backup_step_file w _ mode data Hfile Hbk)).
    rewrite write_step_run.
    + cbn [as_root children fs backend events]. rewrite Hroot, <- app_assoc. reflexivity.
    + cbn [fs]. rewrite lookup_insert_ne by (apply backup_neq).
      rewrite lookup_delete_eq. discriminate.
  - intros Hnone. rewrite saveconfig_steps by exact Hroot.
    rewrite (bind_ok _ _ _ _ _ (backup_step_no_file w _ Hnone Hbk)).
    rewrite write_step_run by (rewrite Hnone; discriminate).
    rewrite Hroot. reflexivity.
Qed.
End SaveReturns.

(** ** The summary lines of a listing *)

Lemma summaries_of_lines (root : bool) (action : string) (l : list Session) :
  List.filter is_summary (flat_map (session_lines root action) l)
  = map (fun session => EvDisplay 0 (summary_line session)) l.
Proof.
  induction l as [|s l IH]; [reflexivity|].
  cbn [flat_map map]. rewrite List.filter_app, summary_once, IH. reflexivity.
Qed.

Lemma passes_absent (n : Z) (l : list Session) :
  ~ In n (map session_id l) -> List.filter (passes (Some n)) l = [].
Proof.
  intros Hn. apply filter_none. intros s Hs. cbn [passes].
  apply Z.eqb_neq. intros ->. apply Hn. now apply in_map.
Qed.

(** ** The decoder never runs out of budget *)

Lemma json_loads_budget (s : string) :
  scan_once (S (2 * length (skip_ws (chars s)))) (skip_ws (chars s)) <> OutOfFuel.
Proof. apply scan_once_fuel. lia. Qed.

(** ** Two runs of the encoder and of a restore *)

Example json_dumps_nested :
  json_dumps (JArr [JInt 1; JArr [JInt (-2)]; JObj []])
  = "[
  1, 
  [
    -2
  ], 
  {}
]"%string.
Proof. vm_compute. reflexivity. Qed.

(** A document that parses reaches the backend whatever it holds: a
    list is handed to [restore] as it is. *)
Lemma restoreconfig_list_document {B : Type} `{BackendHandle B}
    (expanduser : string -> string) (w : world B) (savefile : string) (clear : bool)
    (mode : Z) :
  as_root w = true ->
  fs w !! expanduser savefile = Some (File mode "[]") ->
  exists rest,
    events (after (ui_command_restoreconfig expanduser savefile clear) w)
    = events w ++ [EvRead (expanduser savefile); EvRestore (JArr []) clear] ++ rest.
Proof.
  intros Hroot Hfile. unfold after.
  assert (Hparse : json_loads "[]" = Some (JArr [])) by (vm_compute; reflexivity).
  destruct (restore (JArr []) clear (backend w)) as [[n|e] b'] eqn:Hres.
  - rewrite (restoreconfig_applied expanduser w savefile clear _ _ _ n b'
               Hroot Hfile Hparse Hres).
    cbn [snd events]. eexists [_; _]. reflexivity.
  - rewrite (restoreconfig_restore_raises expanduser w savefile clear _ _ _ e b'
               Hroot Hfile Hparse Hres).
    destruct (is_ValueError e); cbn [snd events]; [eexists [_] | exists []]; reflexivity.
Qed.

(** * The properties of the specification *)

(** Claim C1 (round trip of save and restore).  Let a save return on a
    backend whose dump is a snapshot of null, booleans, integers, strings,
    lists and dicts with distinct keys.  The text it wrote loads as a
    snapshot equal to the dump, dict for dict and item for item:
    [json.loads (json.dumps (snapshot, sort_keys=True, indent=2))]
    reproduces the snapshot.  A later restore with [clear_existing = true]
    of the file, in any world that still holds it, hands exactly this
    snapshot to the backend; and where the backend answers a snapshot equal
    to the dump of a state with a state equivalent to it, the restore
    returns, refreshes, and leaves a backend equivalent to the one
    saved. *)
Theorem save_restore_round_trip {B : Type} `{BackendHandle B}
    (expanduser : string -> string) (umask : Z) (equiv : B -> B -> Prop)
    (w w1 w2 : world B) (savefile : string) :
  wf_json (dump (backend w)) = true ->
  ui_command_saveconfig expanduser umask savefile w = (Ok tt, w1) ->
  as_root w2 = true ->
  fs w2 !! expanduser savefile = fs w1 !! expanduser savefile ->
  (forall snapshot,
     json_eqb snapshot (dump (backend w)) = true ->
     exists n b', restore snapshot true (backend w2) = (Ok n, b')
                  /\ equiv b' (backend w)) ->
  exists snapshot log,
    json_loads (json_dumps (dump (backend w))) = Some snapshot
    /\ json_loads (saved_text (backend w)) = Some snapshot
    /\ json_eqb snapshot (dump (backend w)) = true
    /\ outcome (ui_command_restoreconfig expanduser savefile true) w2 = Ok tt
    /\ events (after (ui_command_restoreconfig expanduser savefile true) w2)
       = events w2 ++ [EvRead (expanduser savefile); EvRestore snapshot true; log; EvRefresh]
    /\ equiv (backend (after (ui_command_restoreconfig expanduser savefile true) w2))
             (backend w).
Proof.
  intros Hwf Hsave Hroot Hfile Hback.
  apply saveconfig_returns in Hsave as (_ & _ & _ & _ & Hp & _).
  rewrite Hp in Hfile.
  destruct (json_loads_dumps _ Hwf) as [Hnl Hplain].
  pose proof (json_eqb_canon _ Hwf) as Heq.
  destruct (Hback _ Heq) as (n & b' & Hres & Hequiv).
  eexists (canon (dump (backend w))), _. unfold outcome, after.
  rewrite (restoreconfig_applied expanduser w2 savefile true _ _ _ n b' Hroot Hfile Hnl Hres).
  cbn [fst snd events backend]. repeat split; assumption.
Qed.

Lemma save_restore_round_trip_witness :
  let w := example_world true true in
  let save := ui_command_saveconfig example_expanduser example_umask "~/cfg.json" in
  let w2 := with_backend empty_backend (after save w) in
  exists snapshot log,
    json_loads (json_dumps (dump (backend w))) = Some snapshot
    /\ json_loads (saved_text (backend w)) = Some snapshot
    /\ json_eqb snapshot (dump (backend w)) = true
    /\ outcome (ui_command_restoreconfig example_expanduser "~/cfg.json" true) w2 = Ok tt
    /\ events (after (ui_command_restoreconfig example_expanduser "~/cfg.json" true) w2)
       = events w2 ++ [EvRead "/root/cfg.json"; EvRestore snapshot true; log; EvRefresh]
    /\ json_eqb
         (mem_config (backend (after (ui_command_restoreconfig example_expanduser
                                        "~/cfg.json" true) w2)))
         (mem_config (backend w)) = true.
Proof.
  intros w save w2.
  apply (save_restore_round_trip example_expanduser example_umask
           (fun b1 b2 => json_eqb (mem_config b1) (mem_config b2) = true)
           w (after save w) w2 "~/cfg.json").
  - vm_compute. reflexivity.
  - vm_compute. reflexivity.
  - reflexivity.
  - reflexivity.
  - intros snapshot Heq. destruct snapshot; try (vm_compute in Heq; discriminate).
    eexists _, _. split; [reflexivity | exact Heq].
Defined.



(** Claim C3 (what a detailed listing discloses).  A detailed listing
    that shows sessions displays, for each of them, its summary line
    at the margin and then, one step in, the line of its access-control
    entry, its mapped LUNs and its connections.  Without privilege the
    line of the entry is the node identity and nothing more; with
    privilege it is the identity followed by [(authenticated)] or
    [(NOT AUTHENTICATED)].  And without privilege the answer and the
    display are the same for any two backends whose sessions differ in
    their authentication flags only. *)
Theorem sessions_details_disclosure {B : Type} `{BackendHandle B} :
  (forall (w : world B) (sid : option string) (sid_int : option Z),
     parse_sid sid = Some sid_int ->
     List.filter (passes sid_int) (sessions (backend w)) <> [] ->
     ui_command_sessions "details" sid w
     = (Ok tt,
        add_events w
          (flat_map
             (fun session =>
                let acl := parent_nodeacl session in
                EvDisplay 0 (summary_line session)
                :: EvDisplay 4 (acl_line (as_root w) acl)
                :: map (fun mlun => EvDisplay 4 (mlun_line mlun)) (mapped_luns acl)
                ++ map (fun c => EvDisplay 4 (connection_line c)) (connections session))
             (List.filter (passes sid_int) (sessions (backend w))))))
  /\ (forall acl, acl_line false acl = node_wwn acl)
  /\ (forall acl,
        acl_line true acl
        = (node_wwn acl
           ++ (if authenticate_target acl then " (authenticated)" else " (NOT AUTHENTICATED)"))%string)
  /\ (forall (w1 w2 : world B) (action : string) (sid : option string),
        as_root w1 = false -> as_root w2 = false ->
        map hide_auth (sessions (backend w1)) = map hide_auth (sessions (backend w2)) ->
        exists answer out,
          ui_command_sessions action sid w1 = (answer, add_events w1 out)
          /\ ui_command_sessions action sid w2 = (answer, add_events w2 out)).
Proof.
  split; [|split; [|split]].
  - intros w sid sid_int Hsid Hshown.
    rewrite (sessions_run "details" sid sid_int w eq_refl Hsid).
    destruct (List.filter (passes sid_int) (sessions (backend w))) as [|s l];
      [congruence | reflexivity].
  - reflexivity.
  - intros acl. unfold acl_line. destruct (authenticate_target acl); reflexivity.
  - intros w1 w2 action sid Hroot1 Hroot2 Hsame.
    destruct (existsb (String.eqb action) action_list) eqn:Hact.
    2:{ eexists _, []. rewrite !add_events_nil. split; now apply sessions_bad_action. }
    destruct (parse_sid sid) as [sid_int|] eqn:Hsid.
    + rewrite (sessions_run action sid sid_int w1 Hact Hsid).
      rewrite (sessions_run action sid sid_int w2 Hact Hsid).
      rewrite Hroot1, Hroot2.
      destruct (shown_hide_auth action sid_int _ _ Hsame) as [Hlines Hnone].
      destruct (List.filter (passes sid_int) (sessions (backend w1))) as [|s1 l1] eqn:E1;
        destruct (List.filter (passes sid_int) (sessions (backend w2))) as [|s2 l2] eqn:E2.
      * destruct sid_int; [eexists _, []; rewrite !add_events_nil|eexists _, _];
          split; reflexivity.
      * destruct Hnone as [Hnone _]. discriminate Hnone. reflexivity.
      * destruct Hnone as [_ Hnone]. discriminate Hnone. reflexivity.
      * eexists _, _. split; [reflexivity|]. now rewrite Hlines.
    + destruct sid as [s|]; [|discriminate]. unfold parse_sid in Hsid.
      destruct (py_int s) eqn:Hs; [discriminate|].
      eexists _, []. rewrite !add_events_nil. split; now apply sessions_bad_sid.
Qed.

Lemma sessions_details_disclosure_witness :
  (ui_command_sessions "details" (Some "2"%string) (example_world false true)).1 = Ok tt
  /\ events (ui_command_sessions "details" (Some "2"%string) (example_world false true)).2
     = events (ui_command_sessions "details" (Some "2"%string) (example_world false false)).2.
Proof.
  destruct (@sessions_details_disclosure mem_backend _) as (Hshow & _ & _ & Hsame).
  split.
  - rewrite (Hshow (example_world false true) (Some "2"%string) (Some 2)).
    + reflexivity.
    + reflexivity.
    + vm_compute. discriminate.
  - destruct (Hsame (example_world false true) (example_world false false)
                "details"%string (Some "2"%string)) as (answer & out & -> & ->).
    + reflexivity.
    + reflexivity.
    + reflexivity.
    + reflexivity.
Defined.

(** Claim C4 (when the tree is refreshed).  As root, a restore that
    applies a snapshot reports it, with the count of recoverable errors
    when there are some, then runs a refresh as its last step and leaves
    the children rebuilt from the backend it left; a clear that the
    backend carried out ends with a refresh in the same way.  A save and a session listing, whatever
    their arguments, their outcome and the privilege, run no refresh
    and leave the children alone; and so does a restore whose file is
    missing or does not parse. *)
Theorem refresh_discipline {B : Type} `{BackendHandle B}
    (expanduser : string -> string) (umask : Z) (w : world B) :
  (forall savefile clear mode data snapshot n b',
     as_root w = true ->
     fs w !! expanduser savefile = Some (File mode data) ->
     json_loads data = Some snapshot ->
     restore snapshot clear (backend w) = (Ok n, b') ->
     let w' := after (ui_command_restoreconfig expanduser savefile clear) w in
     children w' = UIBackstores :: map UIFabricModule (fabric_modules b')
     /\ events w'
        = events w
          ++ [EvRead (expanduser savefile); EvRestore snapshot clear;
              if (n =? 0)%Z
              then EvLog Info ("Configuration restored from " ++ expanduser savefile)
              else EvLog Error ("Configuration restored, " ++ str_of_int n
                                ++ " recoverable errors");
              EvRefresh])
  /\ (forall confirm flag b',
        as_root w = true ->
        confirm_flag confirm = Some flag ->
        clear_existing flag (backend w) = (Ok tt, b') ->
        let w' := after (ui_command_clearconfig confirm) w in
        children w' = UIBackstores :: map UIFabricModule (fabric_modules b')
        /\ events w' = events w ++ [EvClearExisting flag;
                                    EvLog Info "All configuration cleared"; EvRefresh])
  /\ (forall savefile,
        let w' := after (ui_command_saveconfig expanduser umask savefile) w in
        children w' = children w
        /\ exists out, events w' = events w ++ out
                       /\ forallb (fun e => negb (is_refresh e)) out = true)
  /\ (forall action sid,
        let w' := after (ui_command_sessions action sid) w in
        children w' = children w
        /\ exists out, events w' = events w ++ out
                       /\ forallb (fun e => negb (is_refresh e)) out = true)
  /\ (forall savefile clear,
        as_root w = true ->
        (forall mode data, fs w !! expanduser savefile = Some (File mode data) ->
                           json_loads data = None) ->
        let w' := after (ui_command_restoreconfig expanduser savefile clear) w in
        children w' = children w
        /\ exists out, events w' = events w ++ out
                       /\ forallb (fun e => negb (is_refresh e)) out = true).
Proof.
  split; [|split; [|split; [|split]]].
  - intros savefile clear mode data snapshot n b' Hroot Hfile Hparse Hres. unfold after.
    rewrite (restoreconfig_applied expanduser w savefile clear _ _ _ n b'
               Hroot Hfile Hparse Hres).
    cbn [snd children events]. split; reflexivity.
  - intros confirm flag b' Hroot Hflag Hclear. unfold after.
    rewrite (clearconfig_run w confirm flag Hroot).
    + rewrite Hclear. cbn [snd children events]. split; reflexivity.
    + unfold confirm_flag in Hflag. unfold ui_eval_param_bool.
      destruct confirm as [v|]; [|now injection Hflag as <-].
      destruct (String.eqb (lower v) "true"); [now injection Hflag as <-|].
      destruct (String.eqb (lower v) "false"); [now injection Hflag as <-|discriminate].
  - intros savefile. destruct (saveconfig_quiet expanduser umask w savefile) as (? & _ & ?).
    split; assumption.
  - intros action sid. unfold after.
    destruct (sessions_quiet action sid w) as (r & out & -> & Hout).
    cbn [snd add_events children events]. split; [reflexivity|]. now exists out.
  - intros savefile clear Hroot Hfile. unfold after.
    destruct (fs w !! expanduser savefile) as [[mode data|]|] eqn:E.
    + rewrite (restoreconfig_malformed expanduser w savefile clear mode data
                 Hroot E (Hfile _ _ eq_refl)).
      cbn [snd add_events children events]. split; [reflexivity|].
      eexists. split; reflexivity.
    + rewrite restoreconfig_not_found; [|exact Hroot|intros ? ?; rewrite E; discriminate].
      cbn [snd add_events children events]. split; [reflexivity|].
      eexists. split; reflexivity.
    + rewrite restoreconfig_not_found; [|exact Hroot|intros ? ?; rewrite E; discriminate].
      cbn [snd add_events children events]. split; [reflexivity|].
      eexists. split; reflexivity.
Qed.

Lemma refresh_discipline_witness :
  children (after (ui_command_restoreconfig example_expanduser default_save_file true)
              (example_world true true))
  = [UIBackstores; UIFabricModule "iscsi"; UIFabricModule "loopback"]
  /\ events (after (ui_command_clearconfig (Some "True"%string)) (example_world true true))
     = [EvClearExisting true; EvLog Info "All configuration cleared"; EvRefresh]
  /\ children (after (ui_command_restoreconfig example_expanduser "/tmp/broken.json" true)
                 (example_world true true))
     = [].
Proof.
  destruct (refresh_discipline example_expanduser example_umask (example_world true true))
    as (Hrestore & Hclear & _ & _ & Hfailed).
  split; [|split].
  - refine (proj1 (Hrestore default_save_file true 420 "{}"%string (JObj []) 0
                     (MemBackend (JObj []) (example_sessions true)
                        ["iscsi"; "loopback"]%string true) _ _ _ _)).
    + reflexivity.
    + vm_compute. reflexivity.
    + vm_compute. reflexivity.
    + reflexivity.
  - refine (proj2 (Hclear (Some "True"%string) true
                     (MemBackend empty_config (example_sessions true)
                        ["iscsi"; "loopback"]%string true) _ _ _)).
    + reflexivity.
    + vm_compute. reflexivity.
    + reflexivity.
  - refine (proj1 (Hfailed "/tmp/broken.json"%string true _ _)).
    + reflexivity.
    + intros mode data Hfile. vm_compute in Hfile. injection Hfile as _ <-.
      vm_compute. reflexivity.
Defined.

(** Claim C5 (the file of a save is for its owner only).  After every
    save that returns, the file at the expanded path holds the written
    text with mode [S_IRUSR | S_IWUSR]: the owner may read and write,
    nobody else may do anything.  The mode was set on the open file
    before anything was written: of the events of the save, the last
    are the opening of the file, the change of its mode, the dump, the
    two writes and the report, in this order, and nothing was written
    before them. *)
Theorem saveconfig_owner_only {B : Type} `{BackendHandle B}
    (expanduser : string -> string) (umask : Z) (w w' : world B) (savefile : string) :
  ui_command_saveconfig expanduser umask savefile w = (Ok tt, w') ->
  fs w' !! expanduser savefile
  = Some (File (Z.lor S_IRUSR S_IWUSR) (saved_text (backend w)))
  /\ owner_rw_only (Z.lor S_IRUSR S_IWUSR)
  /\ exists pre,
       events w'
       = events w ++ pre
         ++ [EvOpen (expanduser savefile);
             EvFchmod (expanduser savefile) (Z.lor S_IRUSR S_IWUSR);
             EvDump;
             EvWrite (expanduser savefile) (json_dumps (dump (backend w)));
             EvWrite (expanduser savefile) (String newline "");
             EvLog Info ("Configuration saved to " ++ expanduser savefile)]
       /\ forallb (fun e => negb (is_write e)) pre = true.
Proof.
  intros Hrun.
  apply saveconfig_returns in Hrun as (_ & _ & _ & _ & Hfile & pre & Hev & Hpre).
  split; [exact Hfile|]. split; [reflexivity|]. now exists pre.
Qed.

Lemma saveconfig_owner_only_witness :
  let w := example_world true true in
  let w' := after (ui_command_saveconfig example_expanduser example_umask
                     default_save_file) w in
  fs w' !! default_save_file = Some (File 384 (saved_text (backend w)))
  /\ Z.land 384 511 = 384.
Proof.
  intros w w'.
  destruct (saveconfig_owner_only example_expanduser example_umask w w' default_save_file)
    as (Hfile & Hmode & _).
  - vm_compute. reflexivity.
  - split; [exact Hfile | exact Hmode].
Defined.



(** Claim C7 (a restore of a missing file is a soft no-op).  As root,
    when no regular file is at the expanded path,
    [ui_command_restoreconfig] returns normally having logged, at info
    level, that the restore file was not found, and nothing else: the
    backend was not touched and no refresh ran. *)
Theorem restoreconfig_missing_file {B : Type} `{BackendHandle B}
    (expanduser : string -> string) (w : world B) (savefile : string) (clear : bool) :
  as_root w = true ->
  (forall mode data, fs w !! expanduser savefile <> Some (File mode data)) ->
  ui_command_restoreconfig expanduser savefile clear w
  = (Ok tt,
     World (as_root w) (children w) (fs w) (backend w)
       (events w ++ [EvLog Info ("Restore file " ++ expanduser savefile ++ " not found")])).
Proof. apply restoreconfig_not_found. Qed.

Lemma restoreconfig_missing_file_witness :
  ui_command_restoreconfig example_expanduser "~/missing.json" true (example_world true true)
  = (Ok tt,
     World true [] example_files (example_backend true)
       [EvLog Info "Restore file /root/missing.json not found"]).
Proof.
  apply (restoreconfig_missing_file example_expanduser (example_world true true)
           "~/missing.json" true).
  - reflexivity.
  - intros mode data. vm_compute. discriminate.
Defined.

(** Claim C8 (a listing finds the session or says it did not).  For
    an accepted action: with a numeric [sid], the command displays the
    lines of the sessions with that id, in the order of the backend,
    one summary line for each of them, so exactly one for a session
    whose id no other shares; when no session has the id it fails,
    having displayed nothing, with the error that names the id; and
    with no [sid] and no sessions it displays [(no open sessions)] and
    returns. *)
Theorem sessions_postcondition {B : Type} `{BackendHandle B}
    (w : world B) (action : string) :
  existsb (String.eqb action) action_list = true ->
  (forall s session,
     py_int s = Some (session_id session) ->
     In session (sessions (backend w)) ->
     exists out,
       ui_command_sessions action (Some s) w = (Ok tt, add_events w out)
       /\ List.filter is_summary out
          = map (fun x => EvDisplay 0 (summary_line x))
                (List.filter (passes (Some (session_id session))) (sessions (backend w)))
       /\ (List.NoDup (map session_id (sessions (backend w))) ->
           out = session_lines (as_root w) action session
           /\ List.filter is_summary out = [EvDisplay 0 (summary_line session)]))
  /\ (forall s n,
        py_int s = Some n ->
        ~ In n (map session_id (sessions (backend w))) ->
        ui_command_sessions action (Some s) w
        = (Raise (ExecutionError ("no session found with sid " ++ str_of_int n)), w))
  /\ (sessions (backend w) = [] ->
      ui_command_sessions action None w
      = (Ok tt, add_events w [EvDisplay 0 "(no open sessions)"])).
Proof.
  intros Hact. split; [|split].
  - intros s session Hs Hin.
    assert (Hsid : parse_sid (Some s) = Some (Some (session_id session)))
      by (unfold parse_sid; now rewrite Hs).
    rewrite (sessions_run action (Some s) _ w Hact Hsid).
    destruct (List.filter (passes (Some (session_id session))) (sessions (backend w)))
      as [|x l] eqn:E.
    { exfalso. assert (Hx : In session []); [|destruct Hx].
      rewrite <- E. apply filter_In. split; [exact Hin|]. apply Z.eqb_refl. }
    eexists. split; [reflexivity|]. split; [apply summaries_of_lines|].
    intros Hnd. rewrite (filter_unique_id _ _ Hnd Hin) in E. injection E as <- <-.
    cbn [flat_map]. rewrite app_nil_r. split; [reflexivity | apply summary_once].
  - intros s n Hs Hn.
    assert (Hsid : parse_sid (Some s) = Some (Some n))
      by (unfold parse_sid; now rewrite Hs).
    rewrite (sessions_run action (Some s) _ w Hact Hsid), (passes_absent _ _ Hn).
    reflexivity.
  - intros Hnone. rewrite (sessions_run action None None w Hact eq_refl), Hnone.
    reflexivity.
Qed.

Lemma sessions_postcondition_witness :
  (exists out,
     ui_command_sessions "list" (Some " 2 "%string) (example_world false true)
     = (Ok tt, add_events (example_world false true) out)
     /\ List.filter is_summary out = [EvDisplay 0 (summary_line (example_session 2 true))])
  /\ ui_command_sessions "list" (Some "7"%string) (example_world false true)
     = (Raise (ExecutionError "no session found with sid 7"), example_world false true)
  /\ ui_command_sessions "list" None quiet_world
     = (Ok tt, add_events quiet_world [EvDisplay 0 "(no open sessions)"]).
Proof.
  split; [|split].
  - destruct (sessions_postcondition (example_world false true) "list") as (Hfound & _).
    + reflexivity.
    + destruct (Hfound " 2 "%string (example_session 2 true)) as (out & Hrun & _ & Hone).
      * reflexivity.
      * vm_compute. tauto.
      * exists out. split; [exact Hrun|]. apply Hone.
        vm_compute. repeat constructor; cbn; lia.
  - destruct (sessions_postcondition (example_world false true) "list") as (_ & Habsent & _).
    + reflexivity.
    + apply (Habsent "7"%string 7).
      * reflexivity.
      * vm_compute. lia.
  - destruct (sessions_postcondition quiet_world "list") as (_ & _ & Hnone).
    + reflexivity.
    + apply Hnone. reflexivity.
Defined.



(** Claim C10 (clearing reports and refreshes once the backend has
    returned).  As root, for every value of [confirm] that reads as a
    boolean (none reads as false): the flag is handed to the backend's
    [clear_existing], and when that returns the command returns too,
    having logged [All configuration cleared] and refreshed the tree
    from the backend as the call left it.  The command has no test of
    its own on the flag. *)
Theorem clearconfig_reports_after_backend {B : Type} `{BackendHandle B}
    (w : world B) (confirm : option string) (flag : bool) (b' : B) :
  as_root w = true ->
  confirm_flag confirm = Some flag ->
  clear_existing flag (backend w) = (Ok tt, b') ->
  ui_command_clearconfig confirm w
  = (Ok tt,
     World true (UIBackstores :: map UIFabricModule (fabric_modules b')) (fs w) b'
       (events w ++ [EvClearExisting flag; EvLog Info "All configuration cleared";
                     EvRefresh])).
Proof.
  intros Hroot Hflag Hclear.
  rewrite (clearconfig_run w confirm flag Hroot).
  - now rewrite Hclear.
  - unfold confirm_flag in Hflag. unfold ui_eval_param_bool.
    destruct confirm as [v|]; [|now injection Hflag as <-].
    destruct (String.eqb (lower v) "true"); [now injection Hflag as <-|].
    destruct (String.eqb (lower v) "false"); [now injection Hflag as <-|discriminate].
Qed.

Lemma clearconfig_reports_after_backend_witness :
  ui_command_clearconfig None lenient_world
  = (Ok tt,
     World true [UIBackstores; UIFabricModule "iscsi"] example_files
       (MemBackend empty_config [] ["iscsi"%string] false)
       [EvClearExisting false; EvLog Info "All configuration cleared"; EvRefresh]).
Proof.
  exact (clearconfig_reports_after_backend lenient_world None false
           (MemBackend empty_config [] ["iscsi"%string] false)
           eq_refl eq_refl eq_refl).
Defined.

(** Claim C10, where it fails: on a backend that refuses to clear
    without confirmation, as rtslib does, the command called without
    [confirm] raises the backend's error, logs nothing and runs no
    refresh. *)
Lemma clearconfig_unconfirmed_refused :
  ui_command_clearconfig None (example_world true true)
  = (Raise (OtherError "RTSLibError"),
     World true [] example_files (example_backend true) [EvClearExisting false]).
Proof. vm_compute. reflexivity. Qed.

(** * Further properties of the commands *)

(** ** [int] of [str] *)

Lemma lstrip_head (c : ascii) (s : list ascii) :
  is_space c = false -> lstrip (c :: s) = c :: s.
Proof. intros Hc. cbn [lstrip]. now rewrite Hc. Qed.

Lemma is_digit_not_space (c : ascii) : is_digit c = true -> is_space c = false.
Proof.
  intros Hc. apply is_digit_range in Hc. unfold is_space. cbv zeta.
  destruct (N.eqb_spec (N_of_ascii c) 32); [lia|].
  destruct (N.leb_spec 9 (N_of_ascii c)); destruct (N.leb_spec (N_of_ascii c) 13);
    try reflexivity; lia.
Qed.

(** Text that neither starts nor ends with whitespace is not stripped. *)
Lemma strip_tight (s : list ascii) (first last : ascii) (mid : list ascii) :
  s = first :: mid ++ [last] \/ (s = [first] /\ last = first) ->
  is_space first = false -> is_space last = false ->
  strip s = s.
Proof.
  intros Hs Hf Hl. unfold strip. destruct Hs as [->|[-> ->]].
  - rewrite (lstrip_head _ _ Hf).
    change (first :: mid ++ [last]) with ((first :: mid) ++ [last]).
    rewrite rev_app_distr. cbn [rev app]. rewrite (lstrip_head _ _ Hl).
    change (last :: rev mid ++ [first]) with ([last] ++ rev (first :: mid)).
    rewrite rev_app_distr, rev_involutive. reflexivity.
  - rewrite (lstrip_head _ _ Hf). cbn [rev app]. now rewrite (lstrip_head _ _ Hf).
Qed.

Lemma forallb_last_digit (ds : list ascii) :
  ds <> [] -> forallb is_digit ds = true ->
  exists first last mid,
    (ds = first :: mid ++ [last] \/ (ds = [first] /\ last = first))
    /\ is_digit first = true /\ is_digit last = true.
Proof.
  intros Hne Hds. destruct ds as [|d ds]; [congruence|].
  cbn [forallb] in Hds. apply andb_prop in Hds as [Hd Hrest].
  destruct ds as [|x ds'].
  - exists d, d, []. auto.
  - destruct (@exists_last _ (x :: ds')) as (mid & last & E); [discriminate|].
    rewrite E in *. exists d, last, mid. split; [now left|]. split; [exact Hd|].
    rewrite forallb_app in Hrest. apply andb_prop in Hrest as [_ Hlast].
    cbn [forallb] in Hlast. now rewrite andb_true_r in Hlast.
Qed.

(** [int(str(n))] is [n]. *)
Lemma py_int_str_of_int (n : Z) : py_int (str_of_int n) = Some n.
Proof.
  unfold py_int, str_of_int. rewrite chars_of_list.
  assert (Hdigits : forall m, exists d ds,
             digits_of_N m = d :: ds /\ forallb is_digit (d :: ds) = true
             /\ digits_value (d :: ds) = m).
  { intros m. destruct (N.eq_dec m 0%N) as [->|Hm].
    - exists "0"%char, []. rewrite digits_of_N_zero. repeat split.
    - destruct (digits_of_N_pos m) as (d & ds & E & Hd & _ & Hds & Hv); [lia|].
      exists d, ds. cbn [forallb]. rewrite Hd, Hds. auto. }
  assert (Htight : forall m, strip (digits_of_N m) = digits_of_N m).
  { intros m. destruct (Hdigits m) as (d & ds & E & Hall & _).
    destruct (forallb_last_digit (digits_of_N m)) as (f & l & mid & Hshape & Hf & Hl).
    - rewrite E. discriminate.
    - now rewrite E.
    - eapply strip_tight; eauto using is_digit_not_space. }
  assert (Hhead : forall d, is_digit d = true
                            -> Ascii.eqb d "-" = false /\ Ascii.eqb d "+" = false).
  { intros d Hd. apply is_digit_range in Hd.
    split; apply Ascii.eqb_neq; intros ->; cbn in Hd; lia. }
  destruct n as [|p|p]; cbn [repr_int].
  - rewrite Htight, digits_of_N_zero. reflexivity.
  - rewrite Htight. destruct (Hdigits (Npos p)) as (d & ds & E & Hall & Hv).
    rewrite E. cbn [forallb] in Hall. pose proof Hall as Hall'.
    apply andb_prop in Hall' as [Hd _]. destruct (Hhead d Hd) as [-> ->].
    cbn [orb]. cbn [forallb]. rewrite Hall, Hv. reflexivity.
  - destruct (Hdigits (Npos p)) as (d & ds & E & Hall & Hv).
    destruct (forallb_last_digit (digits_of_N (Npos p))) as (f & l & mid & Hshape & Hf & Hl).
    { rewrite E. discriminate. }
    { now rewrite E. }
    assert (Hstrip : strip ("-"%char :: digits_of_N (Npos p))
                     = "-"%char :: digits_of_N (Npos p)).
    { destruct Hshape as [Hs|[Hs ->]]; rewrite Hs.
      - apply (strip_tight _ "-"%char l (f :: mid));
          [now left | reflexivity | now apply is_digit_not_space].
      - apply (strip_tight _ "-"%char f []);
          [now left | reflexivity | now apply is_digit_not_space]. }
    rewrite Hstrip. cbv zeta. change (Ascii.eqb "-" "-") with true. cbn [orb tl].
    rewrite E, Hall, Hv. reflexivity.
Qed.

(** ** The session listing *)

Lemma action_refused (action : string) :
  action <> "list"%string -> action <> "details"%string ->
  existsb (String.eqb action) action_list = false.
Proof.
  intros Hl Hd. cbn [existsb action_list].
  apply String.eqb_neq in Hl, Hd. now rewrite Hl, Hd.
Qed.

Lemma session_lines_list (root : bool) (session : Session) :
  session_lines root "list" session = [EvDisplay 0 (summary_line session)].
Proof. reflexivity. Qed.

Lemma lines_list (root : bool) (l : list Session) :
  flat_map (session_lines root "list") l
  = map (fun session => EvDisplay 0 (summary_line session)) l.
Proof. induction l as [|s l IH]; [reflexivity|]. cbn [flat_map map]. now rewrite <- IH. Qed.

Lemma session_lines_display (root : bool) (action : string) (l : list Session) :
  forallb is_display (flat_map (session_lines root action) l) = true.
Proof.
  induction l as [|s l IH]; [reflexivity|].
  cbn [flat_map]. apply forallb_app_true; [|exact IH].
  unfold session_lines. cbn [forallb is_display andb].
  destruct (String.eqb action "details"); [|reflexivity].
  cbn [forallb is_display andb]. apply forallb_app_true;
    apply forallb_forall; intros e He; apply in_map_iff in He as (x & <- & _); reflexivity.
Qed.

(** Property X1 (an unknown action is refused first).  An action other
    than [list] and [details] makes the listing fail with the error that
    names the two, whatever the [sid] is, a number or not, and with
    nothing displayed. *)
Theorem sessions_unknown_action {B : Type} `{BackendHandle B}
    (w : world B) (action : string) (sid : option string) :
  action <> "list"%string -> action <> "details"%string ->
  ui_command_sessions action sid w
  = (Raise (ExecutionError "action must be one of: list, details"), w).
Proof. intros Hl Hd. apply sessions_bad_action. now apply action_refused. Qed.

Lemma sessions_unknown_action_witness :
  ui_command_sessions "bogus" (Some "not a number"%string) (example_world false true)
  = (Raise (ExecutionError "action must be one of: list, details"),
     example_world false true).
Proof.
  apply (sessions_unknown_action (example_world false true) "bogus"
           (Some "not a number"%string)); discriminate.
Defined.

(** Property X2 (a [sid] that is not a number is refused).  For an
    accepted action, a [sid] that [int] does not read makes the listing
    fail with the error that quotes it, with nothing displayed; the
    empty text and text of blanks are such. *)
Theorem sessions_sid_not_a_number {B : Type} `{BackendHandle B}
    (w : world B) (action : string) (s : string) :
  action = "list"%string \/ action = "details"%string ->
  py_int s = None \/ forallb is_space (chars s) = true ->
  ui_command_sessions action (Some s) w
  = (Raise (ExecutionError ("sid must be a number, '" ++ s ++ "' given")), w).
Proof.
  intros Hact Hs. apply sessions_bad_sid.
  - destruct Hact as [->| ->]; reflexivity.
  - destruct Hs as [Hs|Hs]; [exact Hs|]. unfold py_int.
    assert (Hstrip : forall l, forallb is_space l = true -> lstrip l = []).
    { induction l as [|c l IH]; [reflexivity|]. cbn [forallb lstrip].
      intros Hc. apply andb_prop in Hc as [-> Hl]. auto. }
    unfold strip. rewrite (Hstrip _ Hs). reflexivity.
Qed.

Lemma sessions_sid_not_a_number_witness :
  ui_command_sessions "details" (Some "2a"%string) (example_world true true)
  = (Raise (ExecutionError "sid must be a number, '2a' given"), example_world true true)
  /\ ui_command_sessions "list" (Some ""%string) (example_world true true)
     = (Raise (ExecutionError "sid must be a number, '' given"), example_world true true).
Proof.
  split.
  - apply (sessions_sid_not_a_number (example_world true true) "details" "2a").
    + now right.
    + left. reflexivity.
  - apply (sessions_sid_not_a_number (example_world true true) "list" "").
    + now left.
    + right. reflexivity.
Defined.

(** Property X3 (a session is found by the decimal of its id).  For an
    accepted action and a session the backend lists, the listing called
    with [str] of the session's id returns and displays the summary
    line of the session: what [int] reads back from [str(n)] is [n]. *)
Theorem sessions_found_by_decimal {B : Type} `{BackendHandle B}
    (w : world B) (action : string) (session : Session) :
  action = "list"%string \/ action = "details"%string ->
  In session (sessions (backend w)) ->
  py_int (str_of_int (session_id session)) = Some (session_id session)
  /\ exists out,
       ui_command_sessions action (Some (str_of_int (session_id session))) w
       = (Ok tt, add_events w out)
       /\ In (EvDisplay 0 (summary_line session)) out.
Proof.
  intros Hact Hin. split; [apply py_int_str_of_int|].
  assert (Hok : existsb (String.eqb action) action_list = true)
    by (destruct Hact as [->| ->]; reflexivity).
  assert (Hsid : parse_sid (Some (str_of_int (session_id session)))
                 = Some (Some (session_id session)))
    by (unfold parse_sid; now rewrite py_int_str_of_int).
  rewrite (sessions_run action _ _ w Hok Hsid).
  assert (Hshown : In session (List.filter (passes (Some (session_id session)))
                                 (sessions (backend w)))).
  { apply filter_In. split; [exact Hin | apply Z.eqb_refl]. }
  destruct (List.filter (passes (Some (session_id session))) (sessions (backend w)))
    as [|x l] eqn:E; [destruct Hshown|].
  eexists. split; [reflexivity|].
  apply in_flat_map. exists session. split; [exact Hshown|]. now left.
Qed.

Lemma sessions_found_by_decimal_witness :
  exists out,
    ui_command_sessions "list" (Some "3"%string) (example_world false true)
    = (Ok tt, add_events (example_world false true) out)
    /\ In (EvDisplay 0 (summary_line (example_session 3 true))) out.
Proof.
  refine (proj2 (sessions_found_by_decimal (example_world false true) "list"
                   (example_session 3 true) _ _)).
  - now left.
  - vm_compute. tauto.
Defined.

(** Property X4 (what the listing depends on).  The answer and the
    display of the listing are a function of the caller's privilege
    and of the sessions of the backend; and in [list] mode of the
    sessions alone: the files, the node tree, what happened before
    and, for [list], the privilege do not show. *)
Theorem sessions_depends_on {B : Type} `{BackendHandle B}
    (w1 w2 : world B) (action : string) (sid : option string) :
  sessions (backend w1) = sessions (backend w2) ->
  as_root w1 = as_root w2 \/ action = "list"%string ->
  exists answer out,
    ui_command_sessions action sid w1 = (answer, add_events w1 out)
    /\ ui_command_sessions action sid w2 = (answer, add_events w2 out).
Proof.
  intros Hsame Hroot.
  destruct (existsb (String.eqb action) action_list) eqn:Hact.
  2:{ eexists _, []. rewrite !add_events_nil. split; now apply sessions_bad_action. }
  destruct (parse_sid sid) as [sid_int|] eqn:Hsid.
  - rewrite (sessions_run action sid sid_int w1 Hact Hsid).
    rewrite (sessions_run action sid sid_int w2 Hact Hsid).
    rewrite Hsame.
    assert (Hlines : forall l,
               flat_map (session_lines (as_root w1) action) l
               = flat_map (session_lines (as_root w2) action) l).
    { intros l. destruct Hroot as [->| ->]; [reflexivity|]. now rewrite !lines_list. }
    destruct (List.filter (passes sid_int) (sessions (backend w2))) as [|s l].
    + destruct sid_int; [eexists _, []; rewrite !add_events_nil|eexists _, _];
        split; reflexivity.
    + eexists _, _. split; [reflexivity|]. now rewrite Hlines.
  - destruct sid as [s|]; [|discriminate]. unfold parse_sid in Hsid.
    destruct (py_int s) eqn:Hs; [discriminate|].
    eexists _, []. rewrite !add_events_nil. split; now apply sessions_bad_sid.
Qed.

Lemma sessions_depends_on_witness :
  events (after (ui_command_sessions "list" None) (example_world true true))
  = events (after (ui_command_sessions "list" None) (example_world false true)).
Proof.
  destruct (sessions_depends_on (example_world true true) (example_world false true)
              "list" None) as (answer & out & E1 & E2).
  - reflexivity.
  - now right.
  - unfold after. rewrite E1, E2. reflexivity.
Defined.

(** Property X5 (the listing only displays).  Whatever its arguments,
    the listing leaves the backend, the files and the node tree as they
    were and does nothing but display lines; and when it fails it has
    displayed nothing. *)
Theorem sessions_only_displays {B : Type} `{BackendHandle B}
    (w : world B) (action : string) (sid : option string) :
  exists answer out,
    ui_command_sessions action sid w
    = (answer, World (as_root w) (children w) (fs w) (backend w) (events w ++ out))
    /\ forallb is_display out = true
    /\ (answer <> Ok tt -> out = []).
Proof.
  destruct (existsb (String.eqb action) action_list) eqn:Hact.
  2:{ eexists _, []. rewrite app_nil_r. split; [|split; [reflexivity|reflexivity]].
      rewrite (sessions_bad_action action sid w Hact). now destruct w. }
  destruct (parse_sid sid) as [sid_int|] eqn:Hsid.
  - rewrite (sessions_run action sid sid_int w Hact Hsid).
    destruct (List.filter (passes sid_int) (sessions (backend w))) as [|s l] eqn:E.
    + destruct sid_int as [n|].
      * eexists _, []. rewrite app_nil_r. split; [now destruct w|]. split; reflexivity.
      * eexists _, _. split; [reflexivity|]. split; [reflexivity|congruence].
    + eexists _, _. split; [reflexivity|].
      split; [apply session_lines_display | congruence].
  - destruct sid as [s|]; [|discriminate]. unfold parse_sid in Hsid.
    destruct (py_int s) eqn:Hs; [discriminate|].
    eexists _, []. rewrite app_nil_r. split; [|split; reflexivity].
    rewrite (sessions_bad_sid action s w Hact Hs). now destruct w.
Qed.

(** Property X6 (the plain listing).  In [list] mode with no [sid],
    when the backend lists sessions, the command displays one summary
    line for each of them, in the backend's order, and nothing else. *)
Theorem sessions_list_all {B : Type} `{BackendHandle B} (w : world B) :
  sessions (backend w) <> [] ->
  ui_command_sessions "list" None w
  = (Ok tt,
     add_events w (map (fun session => EvDisplay 0 (summary_line session))
                       (sessions (backend w)))).
Proof.
  intros Hsome. rewrite (sessions_run "list" None None w eq_refl eq_refl).
  assert (Hall : List.filter (passes None) (sessions (backend w)) = sessions (backend w)).
  { induction (sessions (backend w)) as [|s l IH]; [reflexivity|].
    cbn [List.filter passes]. f_equal. destruct l; [reflexivity|]. apply IH. discriminate. }
  rewrite Hall. destruct (sessions (backend w)) as [|s l]; [congruence|].
  now rewrite lines_list.
Qed.

Lemma sessions_list_all_witness :
  ui_command_sessions "list" None (example_world false true)
  = (Ok tt,
     add_events (example_world false true)
       [EvDisplay 0 (summary_line (example_session 1 true));
        EvDisplay 0 (summary_line (example_session 2 true));
        EvDisplay 0 (summary_line (example_session 3 true))]).
Proof.
  assert (Hsome : sessions (backend (example_world false true)) <> [])
    by (vm_compute; discriminate).
  exact (sessions_list_all (example_world false true) Hsome).
Defined.

(** ** Privilege *)

Lemma clearconfig_not_root {B : Type} `{BackendHandle B}
    (w : world B) (confirm : option string) :
  as_root w = false ->
  ui_command_clearconfig confirm w
  = (Raise (ExecutionError "This privileged command is disabled: you are not root."), w).
Proof. intros Hroot. open_world w. reflexivity. Qed.

(** Property X7 (the privileged commands refuse first).  For a caller
    without privilege, save, restore and clear fail with the same
    error and leave the world as it is: no file is moved, opened or
    read, the backend is not reached, nothing is logged and no refresh
    runs.  The version command answers every caller, and only logs. *)
Theorem privileged_commands_refuse {B : Type} `{BackendHandle B}
    (expanduser : string -> string) (umask : Z) (version : string) (w : world B)
    (savefile : string) (clear : bool) (confirm : option string) :
  as_root w = false ->
  (exists e,
     ui_command_saveconfig expanduser umask savefile w = (Raise e, w)
     /\ ui_command_restoreconfig expanduser savefile clear w = (Raise e, w)
     /\ ui_command_clearconfig confirm w = (Raise e, w))
  /\ ui_command_version version w
     = (Ok tt, add_events w [EvLog Info ("targetcli version " ++ version)]).
Proof.
  intros Hroot. split; [|reflexivity].
  exists (ExecutionError "This privileged command is disabled: you are not root.").
  split; [|split].
  - open_world w. reflexivity.
  - open_world w. reflexivity.
  - now apply clearconfig_not_root.
Qed.

Lemma privileged_commands_refuse_witness :
  (exists e,
     ui_command_saveconfig example_expanduser example_umask default_save_file
       (example_world false true) = (Raise e, example_world false true)
     /\ ui_command_restoreconfig example_expanduser default_save_file true
          (example_world false true) = (Raise e, example_world false true)
     /\ ui_command_clearconfig (Some "true"%string) (example_world false true)
        = (Raise e, example_world false true))
  /\ ui_command_version "2.1.fb27" (example_world false true)
     = (Ok tt, add_events (example_world false true)
                 [EvLog Info "targetcli version 2.1.fb27"]).
Proof.
  exact (privileged_commands_refuse example_expanduser example_umask "2.1.fb27"
           (example_world false true) default_save_file true (Some "true"%string)
           eq_refl).
Defined.

(** ** Restore, once the file parses *)

Lemma restoreconfig_hands_over_frame {B : Type} `{BackendHandle B}
    (expanduser : string -> string) (w : world B) (savefile : string) (clear : bool)
    (mode : Z) (data : string) (snapshot : json) :
  as_root w = true ->
  fs w !! expanduser savefile = Some (File mode data) ->
  json_loads data = Some snapshot ->
  let w' := after (ui_command_restoreconfig expanduser savefile clear) w in
  backend w' = (restore snapshot clear (backend w)).2
  /\ fs w' = fs w
  /\ exists rest,
       events w'
       = events w ++ [EvRead (expanduser savefile); EvRestore snapshot clear] ++ rest
       /\ forallb is_report rest = true.
Proof.
  intros Hroot Hfile Hparse. unfold after.
  destruct (restore snapshot clear (backend w)) as [[n|e] b'] eqn:Hres.
  - rewrite (restoreconfig_applied expanduser w savefile clear _ _ _ n b'
               Hroot Hfile Hparse Hres).
    cbn [snd backend fs events]. repeat split.
    eexists [_; _]. split; [reflexivity|]. now destruct (n =? 0).
  - rewrite (restoreconfig_restore_raises expanduser w savefile clear _ _ _ e b'
               Hroot Hfile Hparse Hres).
    destruct (is_ValueError e); cbn [snd backend fs events]; repeat split;
      [eexists [_] | exists []]; split; reflexivity.
Qed.

(** Property X8 (a document that parses is handed over as it is).  As
    root, when the file is there and its text parses, the backend's
    [restore] is invoked once, right after the read, with the parsed
    document, whatever it holds, and with the [clear_existing] flag as
    given; the backend is left as that call left it, and after it the
    command only reports and refreshes.  The files are as they were. *)
Theorem restoreconfig_hands_over {B : Type} `{BackendHandle B}
    (expanduser : string -> string) (w : world B) (savefile : string) (clear : bool)
    (mode : Z) (data : string) (snapshot : json) :
  as_root w = true ->
  fs w !! expanduser savefile = Some (File mode data) ->
  json_loads data = Some snapshot ->
  let w' := after (ui_command_restoreconfig expanduser savefile clear) w in
  backend w' = (restore snapshot clear (backend w)).2
  /\ fs w' = fs w
  /\ exists rest,
       events w'
       = events w ++ [EvRead (expanduser savefile); EvRestore snapshot clear] ++ rest
       /\ forallb is_report rest = true.
Proof. apply restoreconfig_hands_over_frame. Qed.

Lemma restoreconfig_hands_over_witness :
  let w' := after (ui_command_restoreconfig example_expanduser default_save_file false)
              (example_world true true) in
  backend w' = (restore (JObj []) false (example_backend true)).2
  /\ fs w' = example_files.
Proof.
  destruct (restoreconfig_hands_over example_expanduser (example_world true true)
              default_save_file false 420 "{}" (JObj [])) as (Hb & Hfs & _).
  - reflexivity.
  - vm_compute. reflexivity.
  - vm_compute. reflexivity.
  - split; [exact Hb | exact Hfs].
Defined.

(** Property X9 (a failure of the backend's restore).  As root, when
    the file parses and the backend's [restore] raises: a [ValueError]
    is answered like a parse error, the command logs [Error parsing
    savefile] and returns; any other exception leaves the command
    unreported.  Either way no refresh runs, the node tree is as it
    was, and the backend is left in the state the failed call
    reached. *)
Theorem restoreconfig_backend_raises {B : Type} `{BackendHandle B}
    (expanduser : string -> string) (w : world B) (savefile : string) (clear : bool)
    (mode : Z) (data : string) (snapshot : json) (e : exn) (b' : B) :
  as_root w = true ->
  fs w !! expanduser savefile = Some (File mode data) ->
  json_loads data = Some snapshot ->
  restore snapshot clear (backend w) = (Raise e, b') ->
  ui_command_restoreconfig expanduser savefile clear w
  = if is_ValueError e
    then (Ok tt,
          World true (children w) (fs w) b'
            (events w ++
             [EvRead (expanduser savefile); EvRestore snapshot clear;
              EvLog Error ("Error parsing savefile: " ++ expanduser savefile)]))
    else (Raise e,
          World true (children w) (fs w) b'
            (events w ++ [EvRead (expanduser savefile); EvRestore snapshot clear])).
Proof. apply restoreconfig_restore_raises. Qed.

Lemma restoreconfig_backend_raises_witness :
  ui_command_restoreconfig example_expanduser "/tmp/list.json" false list_document_world
  = (Raise (OtherError "AttributeError"),
     World true [] (fs list_document_world) (example_backend true)
       [EvRead "/tmp/list.json"; EvRestore (JArr []) false]).
Proof.
  apply (restoreconfig_backend_raises example_expanduser list_document_world
           "/tmp/list.json" false 420 "[]" (JArr []) (OtherError "AttributeError")
           (example_backend true)).
  - reflexivity.
  - vm_compute. reflexivity.
  - vm_compute. reflexivity.
  - reflexivity.
Defined.

(** ** A file with no document *)

Lemma skip_ws_blank (s : list ascii) : forallb is_ws s = true -> skip_ws s = [].
Proof.
  induction s as [|c s IH]; [reflexivity|]. cbn [forallb skip_ws].
  intros Hc. apply andb_prop in Hc as [-> Hs]. auto.
Qed.

Lemma json_loads_blank (data : string) :
  forallb is_ws (chars data) = true -> json_loads data = None.
Proof. intros Hblank. unfold json_loads. now rewrite (skip_ws_blank _ Hblank). Qed.

(** Property X10 (an empty file is a parse error).  As root, a
    restore file that is empty or holds nothing but blanks, tabs and
    line ends is answered as a file that does not parse: the error is
    logged, the command returns, the backend is not reached and no
    refresh runs. *)
Theorem restoreconfig_blank_file {B : Type} `{BackendHandle B}
    (expanduser : string -> string) (w : world B) (savefile : string) (clear : bool)
    (mode : Z) (data : string) :
  as_root w = true ->
  fs w !! expanduser savefile = Some (File mode data) ->
  forallb is_ws (chars data) = true ->
  ui_command_restoreconfig expanduser savefile clear w
  = (Ok tt,
     World (as_root w) (children w) (fs w) (backend w)
       (events w ++ [EvRead (expanduser savefile);
                     EvLog Error ("Error parsing savefile: " ++ expanduser savefile)])).
Proof.
  intros Hroot Hfile Hblank.
  apply (restoreconfig_malformed expanduser w savefile clear mode data Hroot Hfile).
  now apply json_loads_blank.
Qed.

Lemma restoreconfig_blank_file_witness :
  ui_command_restoreconfig example_expanduser "/tmp/blank.json" true blank_file_world
  = (Ok tt,
     World true [] (fs blank_file_world) (example_backend true)
       [EvRead "/tmp/blank.json"; EvLog Error "Error parsing savefile: /tmp/blank.json"]).
Proof.
  apply (restoreconfig_blank_file example_expanduser blank_file_world
           "/tmp/blank.json" true 420 (String " " (String newline ""))).
  - reflexivity.
  - vm_compute. reflexivity.
  - reflexivity.
Defined.

(** ** Clear *)

Lemma confirm_flag_eval {B : Type} (w : world B) (confirm : option string) (flag : bool) :
  confirm_flag confirm = Some flag ->
  ui_eval_param_bool confirm false w = (Ok flag, w).
Proof.
  unfold confirm_flag, ui_eval_param_bool. intros Hflag.
  destruct confirm as [v|]; [|now injection Hflag as <-].
  destruct (String.eqb (lower v) "true"); [now injection Hflag as <-|].
  destruct (String.eqb (lower v) "false"); [now injection Hflag as <-|discriminate].
Qed.

(** Property X11 (a clear the backend refuses).  As root, when the
    backend's [clear_existing] raises, the command fails with the same
    exception: nothing is logged, no refresh runs, the node tree and
    the files are as they were, and the backend is left in the state
    the failed call reached. *)
Theorem clearconfig_backend_raises {B : Type} `{BackendHandle B}
    (w : world B) (confirm : option string) (flag : bool) (e : exn) (b' : B) :
  as_root w = true ->
  confirm_flag confirm = Some flag ->
  clear_existing flag (backend w) = (Raise e, b') ->
  ui_command_clearconfig confirm w
  = (Raise e, World true (children w) (fs w) b' (events w ++ [EvClearExisting flag])).
Proof.
  intros Hroot Hflag Hclear.
  rewrite (clearconfig_run w confirm flag Hroot (confirm_flag_eval w _ _ Hflag)).
  now rewrite Hclear.
Qed.

Lemma clearconfig_backend_raises_witness :
  ui_command_clearconfig (Some "FALSE"%string) (example_world true true)
  = (Raise (OtherError "RTSLibError"),
     World true [] example_files (example_backend true) [EvClearExisting false]).
Proof.
  exact (clearconfig_backend_raises (example_world true true) (Some "FALSE"%string) false
           (OtherError "RTSLibError") (example_backend true) eq_refl eq_refl eq_refl).
Defined.

(** ** The files *)

(** Property X12 (only a save touches the files).  Whatever their
    arguments, the privilege and their outcome, restore and clear leave
    every file as it is, and so does the version command. *)
Theorem files_untouched {B : Type} `{BackendHandle B}
    (expanduser : string -> string) (version : string) (w : world B)
    (savefile : string) (clear : bool) (confirm : option string) :
  fs (after (ui_command_restoreconfig expanduser savefile clear) w) = fs w
  /\ fs (after (ui_command_clearconfig confirm) w) = fs w
  /\ fs (after (ui_command_version version) w) = fs w.
Proof.
  split; [|split; [|reflexivity]]; unfold after.
  - destruct (as_root w) eqn:Hroot.
    2:{ destruct (command_not_root_restore expanduser w savefile clear Hroot) as (e & ->).
        reflexivity. }
    destruct (fs w !! expanduser savefile) as [[mode data|]|] eqn:Hfile.
    + destruct (json_loads data) as [snapshot|] eqn:Hparse.
      * exact (proj1 (proj2 (restoreconfig_hands_over_frame expanduser w savefile clear
                               mode data snapshot Hroot Hfile Hparse))).
      * now rewrite (restoreconfig_malformed expanduser w savefile clear mode data
                       Hroot Hfile Hparse).
    + rewrite restoreconfig_not_found;
        [reflexivity | exact Hroot | intros ? ?; rewrite Hfile; discriminate].
    + rewrite restoreconfig_not_found;
        [reflexivity | exact Hroot | intros ? ?; rewrite Hfile; discriminate].
  - destruct (as_root w) eqn:Hroot.
    2:{ now rewrite (clearconfig_not_root w confirm Hroot). }
    destruct (confirm_flag confirm) as [flag|] eqn:Hflag.
    + rewrite (clearconfig_run w confirm flag Hroot (confirm_flag_eval w _ _ Hflag)).
      now destruct (clear_existing flag (backend w)) as [[[]|e] b'].
    + open_world w. unfold confirm_flag in Hflag. destruct confirm as [v|]; [|discriminate].
      unfold_cmd.
      destruct (String.eqb (lower v) "true"); [discriminate|].
      destruct (String.eqb (lower v) "false"); [discriminate|]. reflexivity.
Qed.

(** ** What a save touches *)

Section SaveFrame.
Context {B : Type} `{BackendHandle B}.
Variable expanduser : string -> string.
Variable umask : Z.


End SaveFrame.





(** ** The written text is plain ASCII *)

Lemma is_plain_code (c : ascii) :
  (32 <= N_of_ascii c <= 126)%N -> is_plain c = true.
Proof.
  intros Hc. unfold is_plain. cbv zeta.
  destruct (N.leb_spec 32 (N_of_ascii c)); [|lia].
  destruct (N.leb_spec (N_of_ascii c) 126); [|lia].
  apply orb_true_r.
Qed.

Lemma plain_chars (s : list ascii) :
  Forall (fun c => (32 <= N_of_ascii c <= 126)%N) s -> forallb is_plain s = true.
Proof.
  induction 1 as [|c s Hc _ IH]; [reflexivity|].
  cbn [forallb]. now rewrite is_plain_code, IH.
Qed.

Lemma plain_digits (ds : list ascii) :
  forallb is_digit ds = true -> forallb is_plain ds = true.
Proof.
  intros Hds. apply plain_chars. apply Forall_forall. intros c Hc.
  apply list_elem_of_In in Hc.
  apply (proj1 (forallb_forall _ _) Hds), is_digit_range in Hc. lia.
Qed.

Lemma plain_repr_int (n : Z) : forallb is_plain (repr_int n) = true.
Proof.
  destruct n; cbn [repr_int forallb];
    rewrite ?(plain_digits _ (digits_of_N_digits _)); reflexivity.
Qed.

Lemma plain_hex_char (d : N) : (d < 16)%N -> is_plain (hex_char d) = true.
Proof.
  intros Hd. apply is_plain_code. unfold hex_char.
  destruct (N.ltb_spec d 10); rewrite N_ascii_embedding; lia.
Qed.

Lemma plain_u_escape (n : N) : forallb is_plain (u_escape n) = true.
Proof.
  unfold u_escape, hex4. cbn [forallb].
  rewrite !plain_hex_char by (apply N.mod_lt; lia). reflexivity.
Qed.

Lemma plain_escape_char (c : N) : forallb is_plain (escape_char c) = true.
Proof.
  unfold escape_char.
  repeat match goal with
         | |- context [if ?b then _ else _] => destruct b eqn:?; try reflexivity
         end.
  - cbn [forallb]. rewrite is_plain_code; [reflexivity|].
    match goal with
    | Hrange : (_ && _)%bool = true |- _ => apply andb_prop in Hrange as [Hlo Hhi]
    end.
    apply N.leb_le in Hlo, Hhi. rewrite N_ascii_embedding; lia.
  - apply plain_u_escape.
  - cbv zeta. now rewrite forallb_app, !plain_u_escape.
Qed.

Lemma plain_encode_string (s : list N) : forallb is_plain (encode_string s) = true.
Proof.
  unfold encode_string. cbn [forallb]. rewrite forallb_app.
  change (is_plain dquote) with true. cbn [forallb andb]. rewrite andb_true_r.
  induction s as [|c s IH]; [reflexivity|].
  cbn [flat_map]. now rewrite forallb_app, plain_escape_char, IH.
Qed.

Lemma plain_newline_indent (level : nat) : forallb is_plain (newline_indent level) = true.
Proof.
  unfold newline_indent. cbn [forallb]. change (is_plain "010") with true. cbn [andb].
  induction (2 * level)%nat; [reflexivity | assumption].
Qed.

Lemma plain_join (sep : list ascii) (parts : list (list ascii)) :
  forallb is_plain sep = true ->
  Forall (fun p => forallb is_plain p = true) parts ->
  forallb is_plain (join sep parts) = true.
Proof.
  intros Hsep. induction 1 as [|p ps Hp Hps IH]; [reflexivity|].
  destruct ps as [|q qs]; [exact Hp|].
  change (join sep (p :: q :: qs)) with (p ++ sep ++ join sep (q :: qs)).
  now rewrite !forallb_app, Hp, Hsep, IH.
Qed.

Lemma plain_container (opening closing : ascii) (level : nat) (parts : list (list ascii)) :
  is_plain opening = true -> is_plain closing = true ->
  Forall (fun p => forallb is_plain p = true) parts ->
  forallb is_plain
    (opening :: newline_indent (S level)
       ++ join (item_separator ++ newline_indent (S level)) parts
       ++ newline_indent level ++ [closing]) = true.
Proof.
  intros Ho Hc Hparts. cbn [forallb]. rewrite Ho, !forallb_app, !plain_newline_indent.
  rewrite plain_join; [cbn [forallb]; now rewrite Hc | | exact Hparts].
  now rewrite forallb_app, plain_newline_indent.
Qed.

Lemma plain_encode (v : json) :
  wf_json v = true -> forall level, forallb is_plain (encode level v) = true.
Proof.
  induction v as [| b | n | lit | s | items IH | members IH] using json_induction;
    intros Hwf level.
  - reflexivity.
  - now destruct b.
  - apply plain_repr_int.
  - discriminate.
  - apply plain_encode_string.
  - destruct items as [|x items]; [reflexivity|].
    apply wf_json_array in Hwf.
    apply (plain_container "[" "]" level); try reflexivity.
    apply Forall_forall. intros p Hp.
    apply list_elem_of_In, in_map_iff in Hp as (y & <- & Hy).
    apply list_elem_of_In in Hy.
    apply (proj1 (Forall_forall _ _) IH y Hy).
    exact (proj1 (Forall_forall _ _) Hwf y Hy).
  - destruct members as [|kv members]; [reflexivity|].
    apply wf_json_object in Hwf as [Hwf _].
    apply (plain_container "{" "}" level); try reflexivity.
    apply Forall_forall. intros p Hp.
    apply list_elem_of_In, in_map_iff in Hp as ([k t] & <- & Hkt).
    apply (Permutation_in _ (sort_items_perm _)) in Hkt.
    apply in_map_iff in Hkt as ([k' y] & E & Hy). cbn [fst snd] in E.
    injection E as <- <-. apply list_elem_of_In in Hy.
    unfold encode_member. cbn [fst snd].
    rewrite !forallb_app, plain_encode_string. cbn [andb].
    change (forallb is_plain key_separator) with true. cbn [andb].
    apply (proj1 (Forall_forall _ _) IH (k', y) Hy).
    exact (proj2 (proj1 (Forall_forall _ _) Hwf (k', y) Hy)).
Qed.

(** Property X15 (the saved file is plain ASCII).  After a save that
    returns, on a backend whose dump is a snapshot of null, booleans,
    integers, strings, lists and dicts, every character of the file is
    printable ASCII or a line feed, whatever code points the strings of
    the snapshot hold: no tab, no carriage return, no byte above 126. *)
Theorem saveconfig_plain_ascii {B : Type} `{BackendHandle B}
    (expanduser : string -> string) (umask : Z) (w w' : world B) (savefile : string) :
  wf_json (dump (backend w)) = true ->
  ui_command_saveconfig expanduser umask savefile w = (Ok tt, w') ->
  exists mode data,
    fs w' !! expanduser savefile = Some (File mode data)
    /\ forallb is_plain (chars data) = true.
Proof.
  intros Hwf Hrun.
  apply saveconfig_returns in Hrun as (_ & _ & _ & _ & Hfile & _).
  eexists _, _. split; [exact Hfile|].
  unfold saved_text, json_dumps. rewrite chars_append, chars_of_list, forallb_app.
  now rewrite plain_encode.
Qed.

Lemma saveconfig_plain_ascii_witness :
  let w := World true [] example_files
             (MemBackend (JObj [(text_of_string "name", JStr [233; 9; 128512]%N)])
                [] [] true) [] in
  exists mode data,
    fs (after (ui_command_saveconfig example_expanduser example_umask "~/cfg.json") w)
      !! "/root/cfg.json"%string = Some (File mode data)
    /\ forallb is_plain (chars data) = true.
Proof.
  intros w.
  apply (saveconfig_plain_ascii example_expanduser example_umask w
           (after (ui_command_saveconfig example_expanduser example_umask "~/cfg.json") w)
           "~/cfg.json").
  - vm_compute. reflexivity.
  - vm_compute. reflexivity.
Defined.

(** ** What may follow a saved document *)

(** [json.loads] once the first value is scanned: whitespace may follow
    it, and nothing else. *)
Lemma json_loads_after (s : string) (v : json) (fuel : nat) (trail : list ascii) :
  opens_value (chars s) ->
  scan_once fuel (chars s) = Scanned v trail ->
  json_loads s = match skip_ws trail with [] => Some v | _ :: _ => None end.
Proof.
  intros Hopen Hscan. unfold json_loads.
  rewrite skip_ws_opens by assumption.
  set (doc := chars s) in *.
  destruct (Nat.le_gt_cases fuel (S (2 * length doc))) as [Hle|Hgt].
  - replace (S (2 * length doc)) with ((S (2 * length doc) - fuel) + fuel)%nat by lia.
    rewrite scan_once_more by (rewrite Hscan; discriminate).
    now rewrite Hscan.
  - destruct (scan_once_fuel doc fuel) as [<- _]; [lia|].
    now rewrite Hscan.
Qed.

Lemma json_loads_saved_then (v : json) (more : string) :
  wf_json v = true ->
  json_loads (json_dumps v ++ String newline more)
  = match skip_ws (chars more) with [] => Some (canon v) | _ :: _ => None end.
Proof.
  intros Hwf. unfold json_dumps.
  destruct (reads_wf v Hwf 0%nat (newline :: chars more) eq_refl) as (f & Hf).
  rewrite (json_loads_after _ (canon v) f (newline :: chars more)).
  - reflexivity.
  - rewrite chars_append, chars_of_list. apply opens_value_app. now apply opens_encode.
  - rewrite chars_append, chars_of_list. apply Hf. lia.
Qed.

(** Property X16 (nothing may follow the saved document).  As root,
    let the restore file hold the text of a save followed by more text.
    When the addition is blank the snapshot is handed to the backend
    as if nothing followed; when it holds anything else, a second
    saved document for instance, the file does not parse: the error is
    logged, the backend is not reached and no refresh runs. *)
Theorem restoreconfig_after_the_document {B : Type} `{BackendHandle B}
    (expanduser : string -> string) (w : world B) (savefile : string) (clear : bool)
    (mode : Z) (snapshot : json) (more : string) :
  as_root w = true ->
  wf_json snapshot = true ->
  fs w !! expanduser savefile
    = Some (File mode (json_dumps snapshot ++ String newline more)) ->
  (forallb is_ws (chars more) = true ->
   exists rest,
     events (after (ui_command_restoreconfig expanduser savefile clear) w)
     = events w ++ [EvRead (expanduser savefile); EvRestore (canon snapshot) clear] ++ rest)
  /\ (skip_ws (chars more) <> [] ->
      ui_command_restoreconfig expanduser savefile clear w
      = (Ok tt,
         World (as_root w) (children w) (fs w) (backend w)
           (events w ++ [EvRead (expanduser savefile);
                         EvLog Error ("Error parsing savefile: " ++ expanduser savefile)]))).
Proof.
  intros Hroot Hwf Hfile. pose proof (json_loads_saved_then snapshot more Hwf) as Hloads.
  split.
  - intros Hblank. rewrite (skip_ws_blank _ Hblank) in Hloads.
    destruct (restoreconfig_hands_over_frame expanduser w savefile clear _ _ _
                Hroot Hfile Hloads) as (_ & _ & rest & Hev & _).
    now exists rest.
  - intros Hmore. destruct (skip_ws (chars more)) as [|c r]; [congruence|].
    exact (restoreconfig_malformed expanduser w savefile clear _ _ Hroot Hfile Hloads).
Qed.

Lemma restoreconfig_after_the_document_witness :
  let twice := (json_dumps example_snapshot
                ++ String newline (json_dumps example_snapshot ++ String newline ""))%string in
  let w := World true [] (<["/tmp/twice.json"%string := File 384 twice]> example_files)
             (example_backend true) [] in
  ui_command_restoreconfig example_expanduser "/tmp/twice.json" true w
  = (Ok tt,
     World true [] (fs w) (example_backend true)
       [EvRead "/tmp/twice.json"; EvLog Error "Error parsing savefile: /tmp/twice.json"]).
Proof.
  intros twice w.
  refine (proj2 (restoreconfig_after_the_document example_expanduser w "/tmp/twice.json"
                   true 384 example_snapshot
                   (json_dumps example_snapshot ++ String newline "") _ _ _) _).
  - reflexivity.
  - vm_compute. reflexivity.
  - vm_compute. reflexivity.
  - vm_compute. discriminate.
Defined.

(** ** Saving what was loaded *)

(** Property X17 (the saved text is a fixed point).  For a snapshot of
    null, booleans, integers, strings, lists and dicts with distinct
    keys, the document loaded from the saved text is written back as
    the same text, character for character: loading and saving again
    does not reformat or reorder a saved file. *)
Theorem saved_text_fixed_point (snapshot : json) :
  wf_json snapshot = true ->
  exists doc,
    json_loads (json_dumps snapshot ++ String newline "") = Some doc
    /\ wf_json doc = true
    /\ json_dumps doc = json_dumps snapshot.
Proof.
  intros Hwf. exists (canon snapshot).
  split; [apply (json_loads_dumps _ Hwf)|].
  split; [now apply wf_json_canon|].
  unfold json_dumps. f_equal. apply encode_canon; [exact Hwf | now apply wf_json_canon].
Qed.

Lemma saved_text_fixed_point_witness :
  exists doc,
    json_loads (json_dumps example_snapshot ++ String newline "") = Some doc
    /\ wf_json doc = true
    /\ json_dumps doc = json_dumps example_snapshot.
Proof. apply (saved_text_fixed_point example_snapshot). reflexivity. Defined.

(** ** The name in the backup report *)

Lemma fold_segment_plain (l acc : list ascii) :
  forallb (fun c => negb (Ascii.eqb c slash)) l = true ->
  fold_left (fun acc c => if Ascii.eqb c slash then [] else acc ++ [c]) l acc = acc ++ l.
Proof.
  revert acc. induction l as [|c l IH]; intros acc Hl; [now rewrite app_nil_r|].
  cbn [forallb] in Hl. apply andb_prop in Hl as [Hc Hl].
  cbn [fold_left]. destruct (Ascii.eqb c slash); [discriminate|].
  rewrite IH by exact Hl. now rewrite <- app_assoc.
Qed.

Lemma last_segment_path (dir name : string) :
  no_slash name = true ->
  last_segment (dir ++ String slash name) = name.
Proof.
  intros Hname. unfold last_segment.
  rewrite chars_append. cbn [chars list_ascii_of_string].
  rewrite fold_left_app. cbn [fold_left]. rewrite Ascii.eqb_refl.
  rewrite fold_segment_plain by exact Hname.
  apply string_of_list_ascii_of_string.
Qed.

Lemma no_slash_append (a b : string) :
  no_slash a = true -> no_slash b = true -> no_slash (a ++ b) = true.
Proof. unfold no_slash. intros Ha Hb. now rewrite chars_append, forallb_app, Ha, Hb. Qed.

(** Property X18 (the backup report names the file).  As root, with
    no directory in the place of the backup, when a save replaces a
    file at [dir/name] it reports, before it writes, that the file was
    backed up to [name.backup]: the report gives the full path of the
    file and the bare name of the backup. *)
Theorem saveconfig_backup_report {B : Type} `{BackendHandle B}
    (expanduser : string -> string) (umask : Z) (w : world B) (savefile : string)
    (dir name : string) (mode : Z) (data : string) :
  as_root w = true ->
  expanduser savefile = (dir ++ String slash name)%string ->
  no_slash name = true ->
  fs w !! expanduser savefile = Some (File mode data) ->
  fs w !! (expanduser savefile ++ ".backup")%string <> Some Dir ->
  exists rest,
    events (after (ui_command_saveconfig expanduser umask savefile) w)
    = events w
      ++ [EvMove (expanduser savefile) (expanduser savefile ++ ".backup");
          EvLog Info ("Existing file " ++ expanduser savefile ++ " backed up to "
                      ++ name ++ ".backup")]
      ++ rest.
Proof.
  intros Hroot Hpath Hname Hfile Hbk.
  destruct (saveconfig_run expanduser umask w savefile Hroot Hbk) as [Hrun _].
  assert (Hlast : last_segment (expanduser savefile ++ ".backup")
                  = (name ++ ".backup")%string).
  { rewrite Hpath, append_assoc, append_cons.
    apply last_segment_path. now apply no_slash_append. }
  unfold after. rewrite (Hrun mode data Hfile). cbn [snd events].
  rewrite Hlast. eexists. reflexivity.
Qed.

Lemma saveconfig_backup_report_witness :
  exists rest,
    events (after (ui_command_saveconfig example_expanduser example_umask default_save_file)
              (example_world true true))
    = [EvMove "/etc/target/saveconfig.json" "/etc/target/saveconfig.json.backup";
       EvLog Info "Existing file /etc/target/saveconfig.json backed up to saveconfig.json.backup"]
      ++ rest.
Proof.
  apply (saveconfig_backup_report example_expanduser example_umask (example_world true true)
           default_save_file "/etc/target" "saveconfig.json" 420 "{}").
  - reflexivity.
  - reflexivity.
  - reflexivity.
  - vm_compute. reflexivity.
  - vm_compute. discriminate.
Defined.
